(** * react-ghost-text: the suggestion lifecycle of [AutocompleteTextbox]

    A shallow embedding of [src/AutocompleteTextbox.tsx] (the revision with the
    abort controller), of the caret helpers of [src/utils.tsx] and of the
    [lru-cache] instance the component owns, followed by the properties of the
    specification that are settled on it.

    Conventions of the embedding.
    - The browser is the environment.  Every DOM query the code makes is a
      field of [Surface]; every DOM mutation the code makes is an update of it.
    - The component's refs, the clock, the abort controllers created so far and
      the logs of what left the component (callback invocations, calls of
      [props.getSuggestion], default actions prevented, errors nobody caught)
      form one [State], threaded through a state-and-exception monad [M].
    - An [async] function is cut at its [await]: the part before it returns the
      suspended frame ([Awaiting]), the part after it is a second function that
      takes the frame and the settled promise.
    - [Date.now()] reads the field [now].  The clock moves between tasks
      ([Tick]) and, inside a task, while the cache is looked up
      ([lookupTime]): the reads [timeBefore] and [timeAfter] of
      [showSuggestionAtCaret] are two reads of a running clock also when no
      [await] lies between them. *)

From Stdlib Require Import String Ascii List ZArith Bool Lia DecimalString.
Import ListNotations.
Open Scope string_scope.

Set Implicit Arguments.

(* ------------------------------------------------------------------------- *)
(** ** types.ts *)

Inductive SuggestionRemovalReason : Type :=
| IMPLICIT   (* moved caret, input another character, blurred away, ... *)
| EXPLICIT   (* pressed escape *)
| SYSTEM.    (* internal reason *)

(** [SuggestionInfo] without [getFullHTML], which is a closure over the ref. *)
Record SuggestionInfo : Type := mkSuggestionInfo {
  info_id : string;
  timeShown : Z;
  latency : Z;
  suggestionText : string;
  leadingText : string
}.

(** What the component hands to the four optional callbacks. *)
Inductive Notification : Type :=
| SuggestionShown (info : SuggestionInfo)
| SuggestionAccepted (suggestionId : string) (timeAccepted : Z)
| SuggestionRejected (suggestionId : string) (timeRejected : Z)
                     (reason : SuggestionRemovalReason)
| ContentChange (content : string).

Record Props : Type := mkProps {
  disableAutocomplete : bool;
  debounceTime : option Z;            (* [debounceTime?: number], in ms *)
  has_onContentChange : bool;         (* is the optional callback supplied? *)
  has_onSuggestionShown : bool;
  has_onSuggestionAccepted : bool;
  has_onSuggestionRejected : bool
}.

(* ------------------------------------------------------------------------- *)
(** ** Exceptions and promises *)

Inductive Error : Type :=
| IndexSizeError                (* [selection.getRangeAt(0)] on an empty selection *)
| AssertionError                (* [assert(...)] *)
| ProviderError (msg : string). (* whatever [getSuggestion] throws or rejects with *)

Inductive Completion (A : Type) : Type :=
| Normal (a : A)
| Throw (e : Error).
Arguments Normal {A} a.
Arguments Throw {A} e.

(** How the promise awaited in [showSuggestionAtCaret] settles.  A
    [getSuggestion] that throws instead of returning a promise rejects the
    promise of the [async] function in the same way. *)
Inductive ProviderResult : Type :=
| Resolves (text : string)
| Rejects (e : Error).

(* ------------------------------------------------------------------------- *)
(** ** The editable surface *)

(** An element carrying the attribute [data-suggestionid]. *)
Record SuggestionElement : Type := mkSuggestionElement {
  suggestionId : string;     (* getAttribute(suggestionIdAttribute) *)
  textContent : string
}.

(** [parentElement.closest("div")] of the caret's text node, and, for a line
    [div] other than the textbox, the [textContent] of the next sibling of the
    child that contains the caret. *)
Inductive ClosestDiv : Type :=
| NoDiv
| IsTextbox
| LineDiv (nextSiblingText : option string).

(** The anchor of the selection: for a collapsed selection it is also the
    start of [getRangeAt(0)]. *)
Record Anchor : Type := mkAnchor {
  isTextNode : bool;          (* nodeType === Node.TEXT_NODE *)
  textLength : nat;           (* textContent.length *)
  anchorOffset : nat;
  parentIsTextbox : bool;     (* parentElement === textbox *)
  closestDiv : ClosestDiv;
  insideTextbox : bool;       (* textbox.contains(range.startContainer) *)
  setStartThrows : bool       (* range.setStart(element, 0) raises *)
}.

(** [window.getSelection()]; [anchor = None] is the empty selection
    ([rangeCount = 0], for which [isCollapsed] is [true]). *)
Record Selection : Type := mkSelection {
  isCollapsed : bool;
  anchor : option Anchor
}.

(** The textbox around the caret: the text runs before the caret in document
    order (one per text node, a line break being the run of one newline), the
    suggestion elements (they sit right after the caret, in document order)
    and the markup after them. *)
Record Surface : Type := mkSurface {
  selection : option Selection;
  before : list string;
  suggestionElements : list SuggestionElement;
  after : string
}.

Definition nbsp : ascii := ascii_of_nat 160.

(** [s.replace(/\xa0/g, " ")] *)
Fixpoint replace_nbsp (s : string) : string :=
  match s with
  | EmptyString => EmptyString
  | String c s' =>
      String (if Ascii.eqb c nbsp then " "%char else c) (replace_nbsp s')
  end.

(** Serialisation of a suggestion element inside [innerHTML] (class and style
    left out, no escaping). *)
Definition outerHTML (e : SuggestionElement) : string :=
  "<span data-suggestionid='" ++ suggestionId e ++ "'>" ++ textContent e ++ "</span>".

(** [textbox.current?.innerHTML || ""] *)
Definition innerHTML (w : Surface) : string :=
  String.concat "" (before w)
  ++ String.concat "" (map outerHTML (suggestionElements w))
  ++ after w.

(* ------------------------------------------------------------------------- *)
(** ** utils.tsx *)

(** [getCaretAsRange]: [null] when there is no selection or it is not
    collapsed; otherwise [getRangeAt(0)], which raises on an empty selection. *)
Definition getCaretAsRange (w : Surface) : Completion (option Anchor) :=
  match selection w with
  | None => Normal None
  | Some sel =>
      if negb (isCollapsed sel) then Normal None
      else match anchor sel with
           | None => Throw IndexSizeError
           | Some range => Normal (Some range)
           end
  end.

(** [getTextUptilCaretInElement]: the text of the range from the start of the
    element to the caret, nbsp replaced by a plain space.  [setStart] then
    [collapse(false)] leave a caret that is inside the textbox, or behind it,
    where it was, and [before] is the text in front of it.  A caret in front
    of the textbox is not a surface of this model: [setStart] would pull the
    live range to the start of the textbox. *)
Definition getTextUptilCaretInElement (w : Surface) : Completion string :=
  match getCaretAsRange w with
  | Throw e => Throw e
  | Normal None => Normal ""
  | Normal (Some range) =>
      if setStartThrows range then Normal ""      (* catch (e) { ...; return "" } *)
      else Normal (replace_nbsp (String.concat "" (before w)))
  end.

(** [isCaretAtLineEnd(selection, textbox)] *)
Definition isCaretAtLineEnd (sel : Selection) : Completion bool :=
  match anchor sel with
  | None => Normal false
  | Some currentNode =>
      if isTextNode currentNode then
        if Nat.ltb (anchorOffset currentNode) (textLength currentNode)
        then Normal false
        else if parentIsTextbox currentNode then Normal true
        else match closestDiv currentNode with
             | NoDiv => Throw AssertionError            (* assert(closestDiv) *)
             | IsTextbox => Normal true
             | LineDiv None => Normal true
             | LineDiv (Some t) => Normal (String.eqb t "")
             end
      else Normal true
  end.

Definition NUL : ascii := ascii_of_nat 0.
Definition CR : ascii := ascii_of_nat 13.
Definition LF : ascii := ascii_of_nat 10.

(** The newlines of the input stream of the HTML parser: CR LF and a lone CR
    become LF. *)
Fixpoint normalizeNewlines (afterCR : bool) (s : string) : string :=
  match s with
  | EmptyString => EmptyString
  | String c s' =>
      if Ascii.eqb c CR then String LF (normalizeNewlines true s')
      else if Ascii.eqb c LF then
        if afterCR then normalizeNewlines false s'
        else String LF (normalizeNewlines false s')
      else String c (normalizeNewlines false s')
  end.

(** U+0000 is dropped from the text of the body. *)
Fixpoint dropNUL (s : string) : string :=
  match s with
  | EmptyString => EmptyString
  | String c s' => if Ascii.eqb c NUL then dropNUL s' else String c (dropNUL s')
  end.

(** The [textContent] of the element that [DOMParser] builds from the markup
    [renderToStaticMarkup] writes for [text]: React escapes the markup
    characters and the parser reads them back, so what the round trip changes
    is what the HTML parser changes in any text. *)
Definition parsedText (text : string) : string :=
  dropNUL (normalizeNewlines false text).

(** [generateSuggestionElement(text, suggestionId, className, style)]: the
    first element of the parsed markup, a [span] that carries the id
    ([className] and [style] are left out). *)
Definition generateSuggestionElement (text id : string) : SuggestionElement :=
  mkSuggestionElement id (parsedText text).

(** The two nodes the component inserts, each with the flags of its call site:
    the suggestion element with [caretToStart = true], the accepted text with
    [caretToStart = false] and [replacePrevNbspWithSpace = true]. *)
Inductive NodeToInsert : Type :=
| SuggestionNode (e : SuggestionElement)
| AcceptedText (text : string).

(** The last run of [before] is the caret's text node: nbsp becomes a space. *)
Fixpoint replacePrevNbsp (runs : list string) : list string :=
  match runs with
  | [] => []
  | [r] => [replace_nbsp r]
  | r :: rs => r :: replacePrevNbsp rs
  end.

(** After [collapse(false)] behind an inserted text node the caret is a point
    of the parent element. *)
Definition afterInsertedText (range : Anchor) : Anchor :=
  {| isTextNode := false; textLength := 0; anchorOffset := 0;
     parentIsTextbox := parentIsTextbox range; closestDiv := closestDiv range;
     insideTextbox := true; setStartThrows := setStartThrows range |}.

(** [insertNodeAtCaret]: [false] when there is no caret or it is outside the
    textbox. *)
Definition insertNodeAtCaret (nodeToInsert : NodeToInsert) (w : Surface)
  : Completion (bool * Surface) :=
  match getCaretAsRange w with
  | Throw e => Throw e
  | Normal None => Normal (false, w)
  | Normal (Some range) =>
      if negb (insideTextbox range) then Normal (false, w)
      else match nodeToInsert with
           | SuggestionNode e =>
               Normal (true,
                 {| selection := selection w; before := before w;
                    suggestionElements := e :: suggestionElements w;
                    after := after w |})
           | AcceptedText text =>
               Normal (true,
                 {| selection :=
                      Some {| isCollapsed := true;
                              anchor := Some (afterInsertedText range) |};
                    before :=
                      (if isTextNode range then replacePrevNbsp (before w)
                       else before w) ++ [text];
                    suggestionElements := suggestionElements w;
                    after := after w |})
           end
  end.

(* ------------------------------------------------------------------------- *)
(** ** The cache: [new LRUCache<string, string>({ max: 25 })]

    An association list, most recently used entry first. *)

Definition LRUCache : Type := list (string * string).

Definition lru_max : nat := 25.

Fixpoint lru_find (k : string) (c : LRUCache) : option string :=
  match c with
  | [] => None
  | (k', v) :: c' => if String.eqb k k' then Some v else lru_find k c'
  end.

Fixpoint lru_remove (k : string) (c : LRUCache) : LRUCache :=
  match c with
  | [] => []
  | (k', v) :: c' =>
      if String.eqb k k' then lru_remove k c' else (k', v) :: lru_remove k c'
  end.

(** [cache.get(k)]: a hit moves the entry to the front. *)
Definition lru_get (k : string) (c : LRUCache) : option string * LRUCache :=
  match lru_find k c with
  | Some v => (Some v, (k, v) :: lru_remove k c)
  | None => (None, c)
  end.

(** [cache.set(k, v)]: the entry goes to the front, the least recently used
    one is dropped beyond [max]. *)
Definition lru_set (k v : string) (c : LRUCache) : LRUCache :=
  firstn lru_max ((k, v) :: lru_remove k c).

(* ------------------------------------------------------------------------- *)
(** ** AutocompleteTextbox.tsx: state *)

(** The function handed to [showSuggestionAtCaret]: the prop, or the closure
    [() => remainingSuggestion] built by [handleInput]. *)
Inductive GetSuggestionFn : Type :=
| FromProps
| Remaining (remainingSuggestion : string).

(** A run of [showSuggestionAtCaret] suspended at its [await]: the locals it
    resumes with, and the abort controller whose signal it passed on. *)
Record Awaiting : Type := mkAwaiting {
  aw_textUptilCaret : string;
  aw_timeBefore : Z;
  aw_signal : nat
}.

(** A live timeout created by [setTimeout(..., DEBOUNCE_TIME)]. *)
Record Timer : Type := mkTimer {
  delay : Z;
  armedAt : Z
}.

Record State : Type := mkState {
  props : Props;
  surface : Surface;
  (* refs *)
  timer : option Timer;               (* the live timeout of [timer.current] *)
  disableSelectionEvent : bool;
  abortController : nat;              (* [abortController.current], an index of [controllers] *)
  suggestionCache : LRUCache;
  (* the world around the component *)
  controllers : list bool;            (* every [AbortController] so far: [signal.aborted] *)
  awaiting : list Awaiting;           (* suspended runs started by the timer *)
  now : Z;                            (* [Date.now()] *)
  lookupTime : Z;                     (* what the clock moves by during one cache lookup *)
  uuids : nat;                        (* [uuidv4()] calls so far *)
  (* what left the component *)
  notifications : list Notification;  (* callback invocations, oldest first *)
  providerCalls : list (string * nat); (* [props.getSuggestion(text, signal)] *)
  escaped : list Error;               (* uncaught exceptions and unhandled rejections *)
  defaultPrevented : list string      (* keys of the events that got [preventDefault()] *)
}.

Definition set_props (x : Props) (st : State) : State :=
  mkState x (surface st) (timer st) (disableSelectionEvent st)
    (abortController st) (suggestionCache st) (controllers st) (awaiting st)
    (now st) (lookupTime st) (uuids st) (notifications st)
    (providerCalls st) (escaped st) (defaultPrevented st).

Definition set_surface (x : Surface) (st : State) : State :=
  mkState (props st) x (timer st) (disableSelectionEvent st)
    (abortController st) (suggestionCache st) (controllers st) (awaiting st)
    (now st) (lookupTime st) (uuids st) (notifications st)
    (providerCalls st) (escaped st) (defaultPrevented st).

Definition set_timer (x : option Timer) (st : State) : State :=
  mkState (props st) (surface st) x (disableSelectionEvent st)
    (abortController st) (suggestionCache st) (controllers st) (awaiting st)
    (now st) (lookupTime st) (uuids st) (notifications st)
    (providerCalls st) (escaped st) (defaultPrevented st).

Definition set_disableSelectionEvent (x : bool) (st : State) : State :=
  mkState (props st) (surface st) (timer st) x
    (abortController st) (suggestionCache st) (controllers st) (awaiting st)
    (now st) (lookupTime st) (uuids st) (notifications st)
    (providerCalls st) (escaped st) (defaultPrevented st).

Definition set_abortController (x : nat) (st : State) : State :=
  mkState (props st) (surface st) (timer st) (disableSelectionEvent st)
    x (suggestionCache st) (controllers st) (awaiting st)
    (now st) (lookupTime st) (uuids st) (notifications st)
    (providerCalls st) (escaped st) (defaultPrevented st).

Definition set_suggestionCache (x : LRUCache) (st : State) : State :=
  mkState (props st) (surface st) (timer st) (disableSelectionEvent st)
    (abortController st) x (controllers st) (awaiting st)
    (now st) (lookupTime st) (uuids st) (notifications st)
    (providerCalls st) (escaped st) (defaultPrevented st).

Definition set_controllers (x : list bool) (st : State) : State :=
  mkState (props st) (surface st) (timer st) (disableSelectionEvent st)
    (abortController st) (suggestionCache st) x (awaiting st)
    (now st) (lookupTime st) (uuids st) (notifications st)
    (providerCalls st) (escaped st) (defaultPrevented st).

Definition set_awaiting (x : list Awaiting) (st : State) : State :=
  mkState (props st) (surface st) (timer st) (disableSelectionEvent st)
    (abortController st) (suggestionCache st) (controllers st) x
    (now st) (lookupTime st) (uuids st) (notifications st)
    (providerCalls st) (escaped st) (defaultPrevented st).

Definition set_now (x : Z) (st : State) : State :=
  mkState (props st) (surface st) (timer st) (disableSelectionEvent st)
    (abortController st) (suggestionCache st) (controllers st) (awaiting st)
    x (lookupTime st) (uuids st) (notifications st)
    (providerCalls st) (escaped st) (defaultPrevented st).

Definition set_lookupTime (x : Z) (st : State) : State :=
  mkState (props st) (surface st) (timer st) (disableSelectionEvent st)
    (abortController st) (suggestionCache st) (controllers st) (awaiting st)
    (now st) x (uuids st) (notifications st)
    (providerCalls st) (escaped st) (defaultPrevented st).

Definition set_uuids (x : nat) (st : State) : State :=
  mkState (props st) (surface st) (timer st) (disableSelectionEvent st)
    (abortController st) (suggestionCache st) (controllers st) (awaiting st)
    (now st) (lookupTime st) x (notifications st)
    (providerCalls st) (escaped st) (defaultPrevented st).

Definition set_notifications (x : list Notification) (st : State) : State :=
  mkState (props st) (surface st) (timer st) (disableSelectionEvent st)
    (abortController st) (suggestionCache st) (controllers st) (awaiting st)
    (now st) (lookupTime st) (uuids st) x
    (providerCalls st) (escaped st) (defaultPrevented st).

Definition set_providerCalls (x : list (string * nat)) (st : State) : State :=
  mkState (props st) (surface st) (timer st) (disableSelectionEvent st)
    (abortController st) (suggestionCache st) (controllers st) (awaiting st)
    (now st) (lookupTime st) (uuids st) (notifications st)
    x (escaped st) (defaultPrevented st).

Definition set_escaped (x : list Error) (st : State) : State :=
  mkState (props st) (surface st) (timer st) (disableSelectionEvent st)
    (abortController st) (suggestionCache st) (controllers st) (awaiting st)
    (now st) (lookupTime st) (uuids st) (notifications st)
    (providerCalls st) x (defaultPrevented st).

Definition set_defaultPrevented (x : list string) (st : State) : State :=
  mkState (props st) (surface st) (timer st) (disableSelectionEvent st)
    (abortController st) (suggestionCache st) (controllers st) (awaiting st)
    (now st) (lookupTime st) (uuids st) (notifications st)
    (providerCalls st) (escaped st) x.

Definition set_suggestionElements (x : list SuggestionElement) (w : Surface)
  : Surface :=
  mkSurface (selection w) (before w) x (after w).

(* ------------------------------------------------------------------------- *)
(** ** The monad of the component's code *)

Definition M (A : Type) : Type := State -> Completion A * State.

Definition ret {A : Type} (a : A) : M A := fun st => (Normal a, st).

Definition bind {A B : Type} (m : M A) (k : A -> M B) : M B :=
  fun st =>
    match m st with
    | (Normal a, st') => k a st'
    | (Throw e, st') => (Throw e, st')
    end.

Definition throw {A : Type} (e : Error) : M A := fun st => (Throw e, st).

Definition gets {A : Type} (f : State -> A) : M A := fun st => (Normal (f st), st).

Definition modify (f : State -> State) : M unit := fun st => (Normal tt, f st).

(** A pure helper that may raise. *)
Definition lift {A : Type} (c : Completion A) : M A := fun st => (c, st).

Declare Scope M_scope.
Delimit Scope M_scope with M.
Notation "x <- m ;; k" := (bind m (fun x => k))
  (at level 61, m at next level, right associativity) : M_scope.
Notation "m ;; k" := (bind m (fun _ => k))
  (at level 61, right associativity) : M_scope.
Open Scope M_scope.

(** Calling an [async] function never raises: what its body throws before the
    first [await] rejects the promise it returns.  The component keeps none of
    these promises, so the rejection is unhandled. *)
Definition async_call {A : Type} (m : M (option A)) : M (option A) :=
  fun st =>
    match m st with
    | (Normal r, st') => (Normal r, st')
    | (Throw e, st') => (Normal None, set_escaped (escaped st' ++ [e]) st')
    end.

(** Running a task (an event handler, a timer callback, a promise reaction)
    to its end: what it throws escapes the component. *)
Definition run_task {A : Type} (m : M A) (st : State) : State :=
  match m st with
  | (Normal _, st') => st'
  | (Throw e, st') => set_escaped (escaped st' ++ [e]) st'
  end.

Definition Date_now : M Z := gets now.

(** [event.preventDefault()] on the keyboard event of [key]. *)
Definition preventDefault (key : string) : M unit :=
  modify (fun st => set_defaultPrevented (defaultPrevented st ++ [key]) st).

(** [suggestionCache.current.get(k)]: the cache answers, and the clock has
    moved by [lookupTime] when it does. *)
Definition cache_get (k : string) : M (option string) :=
  fun st =>
    let r := lru_get k (suggestionCache st) in
    (Normal (fst r),
     set_now (now st + lookupTime st) (set_suggestionCache (snd r) st)).

Definition notify (supplied : Props -> bool) (n : Notification) : M unit :=
  fun st =>
    if supplied (props st)
    then (Normal tt, set_notifications (notifications st ++ [n]) st)
    else (Normal tt, st).

Definition onContentChange : M unit :=
  content <- gets (fun st => innerHTML (surface st)) ;;
  notify has_onContentChange (ContentChange content).

(** ['s-' + uuidv4()]: the n-th identifier is [s-n]. *)
Definition uuid_string (n : nat) : string :=
  "s-" ++ NilEmpty.string_of_uint (Nat.to_uint n).

Definition new_suggestionId : M string :=
  n <- gets uuids ;;
  modify (set_uuids (S n)) ;;
  ret (uuid_string n).

(** [abortController.current = new AbortController()] *)
Definition new_AbortController : M nat :=
  i <- gets (fun st => length (controllers st)) ;;
  modify (fun st => set_abortController i (set_controllers (controllers st ++ [false]) st)) ;;
  ret i.

Fixpoint abort (i : nat) (cs : list bool) : list bool :=
  match cs, i with
  | [], _ => []
  | _ :: cs', O => true :: cs'
  | c :: cs', S i' => c :: abort i' cs'
  end.

(** [const DEBOUNCE_TIME = debounceTime || 1000] *)
Definition DEBOUNCE_TIME (p : Props) : Z :=
  match debounceTime p with
  | None => 1000
  | Some 0%Z => 1000
  | Some ms => ms
  end.

(** JavaScript truthiness of [string | undefined] and [string | null]. *)
Definition truthy (s : option string) : bool :=
  match s with
  | None => false
  | Some t => negb (String.eqb t "")
  end.

(* ------------------------------------------------------------------------- *)
(** ** AutocompleteTextbox.tsx: the component *)

Definition isSuggestionDisplayed : M bool :=
  suggestionElements <- gets (fun st => suggestionElements (surface st)) ;;
  ret (Nat.ltb 0 (length suggestionElements)).

Definition getCurrentSuggestionElement : M (option SuggestionElement) :=
  suggestionElements <- gets (fun st => suggestionElements (surface st)) ;;
  ret (hd_error suggestionElements).

(** The body of the [forEach] of [removeSuggestionIfDisplayed].  The node list
    is in document order, so the element being removed is the first one still
    in the textbox. *)
Definition removeSuggestionElement (reason : SuggestionRemovalReason)
    (suggestionElement : SuggestionElement) : M unit :=
  let suggestionId := suggestionId suggestionElement in
  modify (fun st =>
    set_surface (set_suggestionElements (tl (suggestionElements (surface st)))
                   (surface st)) st) ;;
  match reason with
  | SYSTEM => ret tt
  | _ =>
      timeRejected <- Date_now ;;
      notify has_onSuggestionRejected
        (SuggestionRejected suggestionId timeRejected reason)
  end.

Fixpoint forEach {A : Type} (l : list A) (f : A -> M unit) : M unit :=
  match l with
  | [] => ret tt
  | x :: l' => f x ;; forEach l' f
  end.

Definition removeSuggestionIfDisplayed (reason : SuggestionRemovalReason)
  : M unit :=
  suggestionElements <- gets (fun st => suggestionElements (surface st)) ;;
  forEach suggestionElements (removeSuggestionElement reason).

(** [showSuggestionAtCaret] from the staleness check on: reached directly on
    a cache hit, and after the [await] otherwise. *)
Definition showSuggestionAtCaret_display (textUptilCaret : string)
    (timeBefore : Z) (suggestionText : string) : M unit :=
  timeAfter <- Date_now ;;
  textUptilCaretAfterFetch <-
    (w <- gets surface ;; lift (getTextUptilCaretInElement w)) ;;
  if negb (String.eqb textUptilCaret textUptilCaretAfterFetch) then ret tt
  else
    suggestionId <- new_suggestionId ;;
    let suggestionElement :=
      generateSuggestionElement suggestionText suggestionId in
    isSuccessfullyInserted <-
      (w <- gets surface ;;
       r <- lift (insertNodeAtCaret (SuggestionNode suggestionElement) w) ;;
       modify (set_surface (snd r)) ;;
       ret (fst r)) ;;
    if isSuccessfullyInserted then
      timeShown <- Date_now ;;
      notify has_onSuggestionShown
        (SuggestionShown
           {| info_id := suggestionId;
              timeShown := timeShown;
              latency := timeAfter - timeBefore;
              suggestionText := suggestionText;
              leadingText := textUptilCaret |})
    else ret tt.

(** [showSuggestionAtCaret] up to its [await]: [None] when the run finished
    without suspending (cache hit), [Some frame] when it awaits the promise of
    [getSuggestion].  A call of the prop is recorded in [providerCalls]. *)
Definition showSuggestionAtCaret (getSuggestion : GetSuggestionFn)
  : M (option Awaiting) :=
  removeSuggestionIfDisplayed SYSTEM ;;
  textUptilCaret <-
    (w <- gets surface ;; lift (getTextUptilCaretInElement w)) ;;
  timeBefore <- Date_now ;;
  suggestionText <- cache_get textUptilCaret ;;
  if truthy suggestionText then
    showSuggestionAtCaret_display textUptilCaret timeBefore
      (match suggestionText with Some t => t | None => "" end) ;;
    ret None
  else
    signal <- new_AbortController ;;
    match getSuggestion with
    | FromProps =>
        modify (fun st =>
          set_providerCalls (providerCalls st ++ [(textUptilCaret, signal)]) st)
    | Remaining _ => ret tt
    end ;;
    ret (Some (mkAwaiting textUptilCaret timeBefore signal)).

(** [showSuggestionAtCaret] after its [await]. *)
Definition showSuggestionAtCaret_resume (frame : Awaiting) (r : ProviderResult)
  : M unit :=
  match r with
  | Rejects e => throw e
  | Resolves suggestionText =>
      if negb (truthy (Some suggestionText)) then ret tt
      else
        modify (fun st =>
          set_suggestionCache
            (lru_set (aw_textUptilCaret frame) suggestionText (suggestionCache st))
            st) ;;
        showSuggestionAtCaret_display (aw_textUptilCaret frame)
          (aw_timeBefore frame) suggestionText
  end.

(** [s.substring(n)] *)
Definition substring_from (n : nat) (s : string) : string :=
  String.substring n (String.length s - n) s.

(** [handleInput], with [justTyped = event.nativeEvent.data].  The result is
    the frame of the [showSuggestionAtCaret(() => remainingSuggestion)] call
    when that call suspended. *)
Definition handleInput (justTyped : option string)
  : M (option (Awaiting * string)) :=
  disabled <- gets (fun st => disableAutocomplete (props st)) ;;
  if disabled then onContentChange ;; ret None
  else
    displayed <- isSuggestionDisplayed ;;
    current <- getCurrentSuggestionElement ;;
    let suggestionText :=
      match current with Some e => textContent e | None => "" end in
    let inputMatchesSuggestion :=
      truthy justTyped &&
      String.prefix (match justTyped with Some d => d | None => "" end)
        suggestionText in
    if displayed && inputMatchesSuggestion then
      removeSuggestionIfDisplayed IMPLICIT ;;
      onContentChange ;;
      let remainingSuggestion :=
        substring_from
          (String.length (match justTyped with Some d => d | None => "" end))
          suggestionText in
      if truthy (Some remainingSuggestion) then
        frame <- async_call (showSuggestionAtCaret (Remaining remainingSuggestion)) ;;
        modify (set_disableSelectionEvent true) ;;
        ret (match frame with
             | Some f => Some (f, remainingSuggestion)
             | None => None
             end)
      else ret None
    else
      removeSuggestionIfDisplayed IMPLICIT ;;
      onContentChange ;;
      ret None.

(** [handleKeyDown], with [key = event.key].  The accepted text is followed
    by a synthetic [input] event without [data], dispatched synchronously. *)
Definition handleKeyDown (key : string) : M unit :=
  disabled <- gets (fun st => disableAutocomplete (props st)) ;;
  if disabled then ret tt
  else if String.eqb key "Escape" then
    preventDefault key ;;
    removeSuggestionIfDisplayed EXPLICIT
  else if String.eqb key "Tab" then
    preventDefault key ;;
    displayed <- isSuggestionDisplayed ;;
    if negb displayed then ret tt
    else
      suggestion <- getCurrentSuggestionElement ;;
      match suggestion with
      | None => ret tt
      | Some suggestion =>
          let suggestionText := textContent suggestion in
          (if truthy (Some suggestionText) then ret tt
           else throw AssertionError) ;;
          let suggestionId := suggestionId suggestion in
          removeSuggestionIfDisplayed SYSTEM ;;
          isInserted <-
            (w <- gets surface ;;
             r <- lift (insertNodeAtCaret (AcceptedText suggestionText) w) ;;
             modify (set_surface (snd r)) ;;
             ret (fst r)) ;;
          if negb isInserted then ret tt
          else
            timeAccepted <- Date_now ;;
            notify has_onSuggestionAccepted
              (SuggestionAccepted suggestionId timeAccepted) ;;
            handleInput None ;;
            ret tt
      end
  else ret tt.

Definition clearTimerAndAbortFetch : M unit :=
  modify (set_timer None) ;;
  modify (fun st =>
    set_controllers (abort (abortController st) (controllers st)) st).

(** [handleSelection]; the timeout it creates is the new [timer.current]. *)
Definition handleSelection : M unit :=
  disabled <- gets (fun st => disableAutocomplete (props st)) ;;
  if disabled then ret tt
  else
    skip <- gets disableSelectionEvent ;;
    if skip then modify (set_disableSelectionEvent false)
    else
      removeSuggestionIfDisplayed IMPLICIT ;;
      clearTimerAndAbortFetch ;;
      selection <- gets (fun st => selection (surface st)) ;;
      match selection with
      | None => ret tt
      | Some selection =>
          if negb (isCollapsed selection) then ret tt
          else
            showSuggestion <- lift (isCaretAtLineEnd selection) ;;
            if showSuggestion then
              modify (fun st =>
                set_timer (Some (mkTimer (DEBOUNCE_TIME (props st)) (now st))) st)
            else ret tt
      end.

Definition handleBlur : M unit :=
  removeSuggestionIfDisplayed IMPLICIT ;;
  clearTimerAndAbortFetch.

(* ------------------------------------------------------------------------- *)
(** ** Tasks of the event loop *)

(** The [input] handler, then the microtask it may have queued: the promise of
    [() => remainingSuggestion] is already resolved, so the suspended run
    resumes before any other event. *)
Definition input_task (justTyped : option string) (st : State) : State :=
  match handleInput justTyped st with
  | (Normal (Some (frame, remainingSuggestion)), st') =>
      run_task (showSuggestionAtCaret_resume frame (Resolves remainingSuggestion)) st'
  | (Normal None, st') => st'
  | (Throw e, st') => set_escaped (escaped st' ++ [e]) st'
  end.

(** The callback of the debounce timer:
    [async () => await showSuggestionAtCaret(getSuggestion)]. *)
Definition timer_task (st : State) : State :=
  match showSuggestionAtCaret FromProps (set_timer None st) with
  | (Normal (Some frame), st') => set_awaiting (awaiting st' ++ [frame]) st'
  | (Normal None, st') => st'
  | (Throw e, st') => set_escaped (escaped st' ++ [e]) st'
  end.

Fixpoint find_frame (signal : nat) (l : list Awaiting) : option Awaiting :=
  match l with
  | [] => None
  | f :: l' => if Nat.eqb (aw_signal f) signal then Some f else find_frame signal l'
  end.

Fixpoint drop_frame (signal : nat) (l : list Awaiting) : list Awaiting :=
  match l with
  | [] => []
  | f :: l' => if Nat.eqb (aw_signal f) signal then l' else f :: drop_frame signal l'
  end.

(** The promise of the [getSuggestion] call that received [signal] settles. *)
Definition settle_task (frame : Awaiting) (r : ProviderResult) (st : State)
  : State :=
  run_task (showSuggestionAtCaret_resume frame r)
    (set_awaiting (drop_frame (aw_signal frame) (awaiting st)) st).

Inductive Event : Type :=
| Input (data : option string)          (* onInput *)
| KeyDown (key : string)                (* onKeyDown *)
| Select                                (* onSelect *)
| Blur                                  (* onBlur *)
| TimerFires
| Settles (signal : nat) (r : ProviderResult)
| Rerender (disableAutocomplete : bool) (* the parent changes the prop *)
| Tick (ms : Z)
| Edit (selection : option Selection) (before : list string) (after : string)
      (* the user or the browser changes the caret and the committed content *)
| Lag (ms : Z).
      (* the machine gets slower or faster: a cache lookup now takes [ms] *)

(** One task; [None] when the event cannot happen in the state. *)
Definition step (ev : Event) (st : State) : option State :=
  match ev with
  | Input data => Some (input_task data st)
  | KeyDown key => Some (run_task (handleKeyDown key) st)
  | Select => Some (run_task handleSelection st)
  | Blur => Some (run_task handleBlur st)
  | TimerFires =>
      match timer st with
      | Some t =>
          if (armedAt t + Z.max 0 (delay t) <=? now st)%Z
          then Some (timer_task st) else None
      | None => None
      end
  | Settles signal r =>
      match find_frame signal (awaiting st) with
      | Some frame => Some (settle_task frame r st)
      | None => None
      end
  | Rerender b =>
      let p := props st in
      Some (set_props
              (mkProps b (debounceTime p) (has_onContentChange p)
                 (has_onSuggestionShown p) (has_onSuggestionAccepted p)
                 (has_onSuggestionRejected p)) st)
  | Tick ms =>
      if (0 <=? ms)%Z then Some (set_now (now st + ms)%Z st) else None
  | Edit sel b a =>
      Some (set_surface (mkSurface sel b (suggestionElements (surface st)) a) st)
  | Lag ms =>
      if (0 <=? ms)%Z then Some (set_lookupTime ms st) else None
  end.

Fixpoint run (evs : list Event) (st : State) : option State :=
  match evs with
  | [] => Some st
  | ev :: evs' =>
      match step ev st with
      | Some st' => run evs' st'
      | None => None
      end
  end.

(** The component right after mounting: one abort controller, an empty cache,
    no suggestion timer. *)
Definition mount (p : Props) (w : Surface) : State :=
  mkState p w None false 0 [] [false] [] 0%Z 0%Z 0 [] [] [] [].

Open Scope list_scope.

(* ------------------------------------------------------------------------- *)
(** ** States the equations name *)

(** The [onSuggestionRejected] calls of one [removeSuggestionIfDisplayed]. *)
Definition rejections (p : Props) (reason : SuggestionRemovalReason) (t : Z)
    (els : list SuggestionElement) : list Notification :=
  match reason with
  | SYSTEM => []
  | _ =>
      if has_onSuggestionRejected p
      then map (fun e => SuggestionRejected (suggestionId e) t reason) els
      else []
  end.

(** The state [removeSuggestionIfDisplayed] leaves. *)
Definition removed (reason : SuggestionRemovalReason) (st : State) : State :=
  set_notifications
    (notifications st
       ++ rejections (props st) reason (now st) (suggestionElements (surface st)))
    (set_surface (set_suggestionElements [] (surface st)) st).

(** The state after [removeSuggestionIfDisplayed(SYSTEM)]. *)
Definition cleared (st : State) : State :=
  set_surface (set_suggestionElements [] (surface st)) st.

(** The state after [event.preventDefault()] on the event of [key]. *)
Definition prevented (key : string) (st : State) : State :=
  set_defaultPrevented (defaultPrevented st ++ [key]) st.

(** The state in which [showSuggestionAtCaret] has displayed [text]. *)
Definition shown (textUptilCaret : string) (timeBefore : Z) (text : string)
    (st : State) : State :=
  let suggestionId := uuid_string (uuids st) in
  let st1 :=
    set_surface
      (set_suggestionElements
         (generateSuggestionElement text suggestionId
            :: suggestionElements (surface st))
         (surface st))
      (set_uuids (S (uuids st)) st) in
  if has_onSuggestionShown (props st)
  then set_notifications
         (notifications st
            ++ [SuggestionShown
                  (mkSuggestionInfo suggestionId (now st) (now st - timeBefore)
                     text textUptilCaret)])
         st1
  else st1.

(** The state in which [showSuggestionAtCaret] awaits [getSuggestion]. *)
Definition suspended (getSuggestion : GetSuggestionFn) (textUptilCaret : string)
    (st : State) : State :=
  let signal := length (controllers st) in
  let st1 :=
    set_abortController signal
      (set_controllers (controllers st ++ [false])
         (set_now (now st + lookupTime st)
            (set_suggestionCache
               (snd (lru_get textUptilCaret (suggestionCache st)))
               (cleared st)))) in
  match getSuggestion with
  | FromProps =>
      set_providerCalls (providerCalls st ++ [(textUptilCaret, signal)]) st1
  | Remaining _ => st1
  end.

(** The state after [onContentChange?.(textbox.current?.innerHTML || "")]. *)
Definition contentChanged (st : State) : State :=
  if has_onContentChange (props st)
  then set_notifications
         (notifications st ++ [ContentChange (innerHTML (surface st))]) st
  else st.

(* ------------------------------------------------------------------------- *)
(** ** Sample data *)

Definition allCallbacks (disable : bool) (debounce : option Z) : Props :=
  mkProps disable debounce true true true true.

(** A caret at the end of the only text node of the textbox. *)
Definition caretAtEnd (len : nat) : Selection :=
  mkSelection true
    (Some (mkAnchor true len len true IsTextbox true false)).

Definition hello : Surface :=
  mkSurface (Some (caretAtEnd 6)) ["hello "] [] "".

(** The same textbox while nothing is selected in the document:
    [window.getSelection()] is a selection with [rangeCount = 0]. *)
Definition nothing_selected : Surface :=
  mkSurface (Some (mkSelection true None)) ["hello "] [] "".

Definition hello_world : Surface :=
  mkSurface (Some (caretAtEnd 6)) ["hello "]
    [mkSuggestionElement "s-0" "world"] "".

(** The sample textbox one debounce delay after the caret settled: the timer
    has fired and the call of [getSuggestion("hello ", signal 1)] is pending. *)
Definition fetching : State :=
  mkState (allCallbacks false None) hello None false 1 [] [true; false]
    [mkAwaiting "hello " 1000 1] 1000 0 0 [] [("hello ", 1)] [] [].

(** The sample textbox with the suggestion "world" displayed after "hello ". *)
Definition displaying : State :=
  mkState (allCallbacks false None) hello_world None false 1
    [("hello ", "world")] [true; false] [] 1000 0 1
    [SuggestionShown (mkSuggestionInfo "s-0" 1000 0 "world" "hello ")]
    [("hello ", 1)] [] [].

(** The browser has put the typed "w" into the textbox, in front of the
    displayed suggestion; the [input] event is about to be handled. *)
Definition typed_w : State :=
  set_surface
    (mkSurface (Some (caretAtEnd 7)) ["hello w"]
       [mkSuggestionElement "s-0" "world"] "")
    displaying.

(** A session that caches a suggestion for "hello w", goes back to "hello ",
    gets "world" there and types "w" again. *)
Definition back_and_forth : list Event :=
  [ Edit (Some (caretAtEnd 7)) ["hello w"] ""; Select; Tick 1000; TimerFires;
    Settles 1 (Resolves "ait");
    Edit (Some (caretAtEnd 6)) ["hello "] ""; Input None; Select; Tick 1000;
    TimerFires; Settles 2 (Resolves "world");
    Edit (Some (caretAtEnd 7)) ["hello w"] "" ].

(** The caret leaves the end of "hello " and comes back. *)
Definition left_and_right : list Event :=
  [ Edit (Some (mkSelection true
                  (Some (mkAnchor true 6 5 true IsTextbox true false))))
      ["hello"] " ";
    Select;
    Edit (Some (caretAtEnd 6)) ["hello "] "";
    Select ].

(** "world" is fetched and cached for "hello "; the next selection event
    removes it and starts a new debounce, which ends on a machine where a
    cache lookup takes a millisecond. *)
Definition cached_then_slow : list Event :=
  [ Select; Tick 1000; TimerFires; Settles 1 (Resolves "world");
    Select; Lag 1; Tick 1000 ].

(** Two calls of [getSuggestion] for the same text are pending at once (the
    provider takes three seconds and ignores the abort signal), and both
    resolve. *)
Definition racing_fetches : list Event :=
  [Select; Tick 1000; TimerFires; Tick 500]
  ++ left_and_right
  ++ [Tick 1000; TimerFires; Tick 1500; Settles 1 (Resolves "world");
      Tick 1500; Settles 2 (Resolves "world")].

(* ------------------------------------------------------------------------- *)
(** ** Predicates of the statements *)

(** Every cached suggestion is a non-empty string: [set] is only reached with
    a truthy [suggestionText]. *)
Definition cache_ok (c : LRUCache) : Prop :=
  Forall (fun entry => snd entry <> "") c.

(** The partial-acceptance case of [handleInput]: autocomplete is on, a
    suggestion is displayed, and the typed data is a non-empty prefix of the
    text of the current (first) suggestion element. *)
Definition partialAcceptance (st : State) (justTyped : string)
    (current : SuggestionElement) : Prop :=
  disableAutocomplete (props st) = false
  /\ hd_error (suggestionElements (surface st)) = Some current
  /\ justTyped <> ""
  /\ String.prefix justTyped (textContent current) = true.

Definition is_rejection (n : Notification) : bool :=
  match n with
  | SuggestionRejected _ _ _ => true
  | _ => false
  end.

(** C1 as the specification words it: between two states no
    [onSuggestionRejected] call was made. *)
Definition no_rejection_emitted (st st' : State) : Prop :=
  filter is_rejection (notifications st')
  = filter is_rejection (notifications st).

(** From [st] to [st'] the log of callbacks only grew, and by no rejection. *)
Definition emits_no_rejection (st st' : State) : Prop :=
  exists tail,
    notifications st' = notifications st ++ tail
    /\ Forall (fun n => is_rejection n = false) tail.

(** C2 as the specification words it: a failing [getSuggestion] is handled
    exactly like one that resolves to the empty string. *)
Definition failure_like_empty_result (frame : Awaiting) (e : Error)
    (st : State) : Prop :=
  settle_task frame (Rejects e) st = settle_task frame (Resolves "") st.

(** C3 as the specification words it: after the [input] task exactly the
    remainder is displayed, the cache is what it was and [props.getSuggestion]
    has not been called. *)
Definition redisplayed_without_cache (st : State) (justTyped : string)
    (current : SuggestionElement) : Prop :=
  let remainingSuggestion :=
    substring_from (String.length justTyped) (textContent current) in
  let st' := input_task (Some justTyped) st in
  map textContent (suggestionElements (surface st')) = [remainingSuggestion]
  /\ suggestionCache st' = suggestionCache st
  /\ providerCalls st' = providerCalls st.

(** C4 as the specification words it, for one event arriving while the call
    awaited by [frame] is pending: the event aborts the controller whose
    signal the call received, and the result that arrives afterwards is not
    displayed. *)
Definition cancels_pending (ev : Event) (st : State) (frame : Awaiting)
    (result : string) : Prop :=
  exists st1 st2,
    step ev st = Some st1
    /\ nth_error (controllers st1) (aw_signal frame) = Some true
    /\ step (Settles (aw_signal frame) (Resolves result)) st1 = Some st2
    /\ suggestionElements (surface st2) = [].

(** C5 as the specification words it, for the moment the flag is set: the
    displayed suggestion is removed and reported as an implicit rejection. *)
Definition disabling_removes_suggestion (st : State) : Prop :=
  exists st',
    step (Rerender true) st = Some st'
    /\ suggestionElements (surface st') = []
    /\ notifications st'
       = notifications st
         ++ rejections (props st) IMPLICIT (now st)
              (suggestionElements (surface st)).

(** C7 as the specification words it, for a timer callback that finds the
    text before the caret in the cache: [props.getSuggestion] is not called,
    and every [onSuggestionShown] call the callback makes reports the latency
    0. *)
Definition cache_hit_has_latency_0 (st : State) : Prop :=
  providerCalls (timer_task st) = providerCalls st
  /\ exists tail,
       notifications (timer_task st) = notifications st ++ tail
       /\ forall info, In (SuggestionShown info) tail -> latency info = 0%Z.

(** The caret cannot be resolved to a collapsed position inside the surface:
    no selection exists ([window.getSelection()] is null, or it is a selection
    that holds no range), or the selection is not collapsed, or
    [range.setStart(element, 0)] raises. *)
Definition caretUnresolved (w : Surface) : Prop :=
  selection w = None
  \/ (exists sel, selection w = Some sel /\ anchor sel = None)
  \/ (exists sel, selection w = Some sel /\ isCollapsed sel = false)
  \/ (exists sel range,
        selection w = Some sel /\ isCollapsed sel = true
        /\ anchor sel = Some range /\ setStartThrows range = true).

Definition falsy_debounceTime (p : Props) : Prop :=
  debounceTime p = None \/ debounceTime p = Some 0%Z.

(* ------------------------------------------------------------------------- *)
(** ** Further states and predicates *)

(** The state after a successful [insertNodeAtCaret(textNode, textbox, false,
    true)] of the accepted [text] at the caret [range]. *)
Definition textInserted (range : Anchor) (text : string) (w : Surface)
  : Surface :=
  mkSurface
    (Some (mkSelection true (Some (afterInsertedText range))))
    ((if isTextNode range then replacePrevNbsp (before w) else before w)
       ++ [text])
    (suggestionElements w)
    (after w).

(** The [onSuggestionAccepted] call of an accepted suggestion. *)
Definition acceptance (p : Props) (e : SuggestionElement) (t : Z)
  : list Notification :=
  if has_onSuggestionAccepted p
  then [SuggestionAccepted (suggestionId e) t] else [].

(** The [onContentChange] call for the content of [w]. *)
Definition contentReport (p : Props) (w : Surface) : list Notification :=
  if has_onContentChange p then [ContentChange (innerHTML w)] else [].

(** The refs and logs that the display of a suggestion has no business with:
    from [st] to [st'] the props, the timer, the skip flag, the suspended
    runs and the escaped errors are the same. *)
Definition same_refs (st st' : State) : Prop :=
  props st' = props st
  /\ timer st' = timer st
  /\ disableSelectionEvent st' = disableSelectionEvent st
  /\ awaiting st' = awaiting st
  /\ escaped st' = escaped st.

(** A text that the HTML parser leaves as it is: no U+0000, no CR. *)
Definition plainText (s : string) : Prop :=
  ~ In NUL (list_ascii_of_string s) /\ ~ In CR (list_ascii_of_string s).

(** A provider result that is still a text once the suggestion element has
    been built from it: it does not consist of U+0000 only. *)
Definition survivesParsing (ev : Event) : Prop :=
  match ev with
  | Settles _ (Resolves text) => text <> "" -> parsedText text <> ""
  | _ => True
  end.

(** The states the component reaches from a freshly mounted textbox, which
    holds no suggestion element, by events that all satisfy [P]. *)
Definition reachable_by (P : Event -> Prop) (st : State) : Prop :=
  exists p w evs,
    suggestionElements w = [] /\ Forall P evs /\ run evs (mount p w) = Some st.

(** Every displayed suggestion has a non-empty text, as the HTML parser
    left it. *)
Definition suggestions_ok (w : Surface) : Prop :=
  Forall (fun e => textContent e <> "" /\ plainText (textContent e))
    (suggestionElements w).

(** Every cached suggestion is still a text once parsed. *)
Definition cache_parses (c : LRUCache) : Prop :=
  Forall (fun entry => parsedText (snd entry) <> "") c.

(** The cache respects its capacity and holds each key once. *)
Definition cache_bounded (c : LRUCache) : Prop :=
  length c <= lru_max /\ NoDup (map fst c).

(** From [st] to [st'] the log of callbacks only grew, and only by
    [onSuggestionShown] calls. *)
Definition emits_only_shown (st st' : State) : Prop :=
  exists tail,
    notifications st' = notifications st ++ tail
    /\ Forall (fun n => exists info, n = SuggestionShown info) tail.

(* ------------------------------------------------------------------------- *)
(** ** Proof automation *)

(** The helpers of [utils.tsx] and the cache stay folded under [simpl]. *)
#[local] Arguments getCaretAsRange : simpl never.
#[local] Arguments getTextUptilCaretInElement : simpl never.
#[local] Arguments insertNodeAtCaret : simpl never.
#[local] Arguments isCaretAtLineEnd : simpl never.
#[local] Arguments innerHTML : simpl never.
#[local] Arguments lru_get : simpl never.
#[local] Arguments lru_set : simpl never.
#[local] Arguments uuid_string : simpl never.

Ltac unfold_monad :=
  cbv beta iota zeta delta
    [bind ret gets modify lift throw notify Date_now onContentChange
     new_suggestionId new_AbortController async_call run_task cache_get
     preventDefault isSuggestionDisplayed getCurrentSuggestionElement
     clearTimerAndAbortFetch].

(* ------------------------------------------------------------------------- *)
(** ** Removal of the displayed suggestions *)

Lemma forEach_removeSuggestionElement reason :
  forall els st,
    suggestionElements (surface st) = els ->
    forEach els (removeSuggestionElement reason) st = (Normal tt, removed reason st).
Proof.
  induction els as [|e els IH]; intros st Hels.
  - destruct st as [p w]; destruct w; simpl in *; subst.
    unfold removed, rejections; simpl.
    destruct reason; try destruct (has_onSuggestionRejected p);
      simpl; rewrite ?app_nil_r; reflexivity.
  - simpl. unfold bind at 1.
    destruct st as [p w]; destruct w as [sel bef sugg aft]; simpl in Hels; subst.
    unfold removeSuggestionElement, bind, modify, Date_now, gets, notify, ret.
    destruct reason; simpl; try destruct (has_onSuggestionRejected p) eqn:Hp;
      rewrite IH by reflexivity; unfold removed, rejections; simpl;
      rewrite ?Hp; simpl; rewrite <- ?app_assoc; reflexivity.
Qed.

(** [removeSuggestionIfDisplayed] removes every suggestion element in one
    call and, unless the reason is [SYSTEM], reports each of them. *)
Lemma removeSuggestionIfDisplayed_eq reason st :
  removeSuggestionIfDisplayed reason st = (Normal tt, removed reason st).
Proof.
  unfold removeSuggestionIfDisplayed, bind, gets.
  apply forEach_removeSuggestionElement. reflexivity.
Qed.

Lemma removed_SYSTEM st : removed SYSTEM st = cleared st.
Proof.
  unfold removed, cleared, rejections. rewrite app_nil_r.
  destruct st; reflexivity.
Qed.

(** One call of [removeSuggestionIfDisplayed] empties the textbox of
    suggestion elements, however many there were. *)
Lemma removeSuggestionIfDisplayed_removes_all reason st :
  suggestionElements (surface (snd (removeSuggestionIfDisplayed reason st))) = [].
Proof. rewrite removeSuggestionIfDisplayed_eq. reflexivity. Qed.

(* ------------------------------------------------------------------------- *)
(** ** Display: the part of [showSuggestionAtCaret] after the await *)

Lemma truthy_Some t : t <> "" -> truthy (Some t) = true.
Proof. intros H. simpl. apply negb_true_iff. apply String.eqb_neq. exact H. Qed.

Lemma truthy_cases o :
  (exists v, o = Some v /\ v <> "") \/ truthy o = false.
Proof.
  destruct o as [v|]; [|right; reflexivity].
  destruct (String.eqb_spec v "") as [->|Hne]; [right; reflexivity|].
  left. eauto.
Qed.

Lemma getCaretAsRange_text w L :
  getTextUptilCaretInElement w = Normal L ->
  exists r, getCaretAsRange w = Normal r.
Proof.
  unfold getTextUptilCaretInElement.
  destruct (getCaretAsRange w) as [r|e]; [eauto | discriminate].
Qed.

Lemma getTextUptilCaretInElement_set_suggestionElements x w :
  getTextUptilCaretInElement (set_suggestionElements x w)
  = getTextUptilCaretInElement w.
Proof. reflexivity. Qed.

Lemma showSuggestionAtCaret_display_shown L tb text st range :
  getCaretAsRange (surface st) = Normal (Some range) ->
  insideTextbox range = true ->
  getTextUptilCaretInElement (surface st) = Normal L ->
  showSuggestionAtCaret_display L tb text st = (Normal tt, shown L tb text st).
Proof.
  intros Hrange Hin Hget.
  unfold showSuggestionAtCaret_display. unfold_monad.
  rewrite Hget, String.eqb_refl. simpl.
  unfold insertNodeAtCaret. rewrite Hrange, Hin. simpl.
  unfold shown. destruct st as [p w]; destruct w; simpl.
  destruct (has_onSuggestionShown p); reflexivity.
Qed.

(** Everything [showSuggestionAtCaret_display] can do. *)
Lemma showSuggestionAtCaret_display_cases L tb text st :
  (exists range,
     getCaretAsRange (surface st) = Normal (Some range)
     /\ insideTextbox range = true
     /\ getTextUptilCaretInElement (surface st) = Normal L
     /\ showSuggestionAtCaret_display L tb text st = (Normal tt, shown L tb text st))
  \/ (getTextUptilCaretInElement (surface st) = Normal L
      /\ showSuggestionAtCaret_display L tb text st
         = (Normal tt, set_uuids (S (uuids st)) st))
  \/ ((exists L', getTextUptilCaretInElement (surface st) = Normal L' /\ L' <> L)
      /\ showSuggestionAtCaret_display L tb text st = (Normal tt, st))
  \/ (exists e, getTextUptilCaretInElement (surface st) = Throw e
      /\ showSuggestionAtCaret_display L tb text st = (Throw e, st)).
Proof.
  unfold showSuggestionAtCaret_display. unfold_monad.
  destruct (getTextUptilCaretInElement (surface st)) as [L'|e] eqn:Hget;
    [|right; right; right; eauto].
  destruct (String.eqb_spec L L') as [Heq|Hne]; simpl;
    [|right; right; left; split; [exists L'; split; congruence | reflexivity]].
  subst L'. simpl.
  destruct (getCaretAsRange_text _ Hget) as [r Hr].
  unfold insertNodeAtCaret. rewrite Hr.
  destruct r as [range|]; simpl; [|right; left; destruct st as [p w]; destruct w; auto].
  destruct (insideTextbox range) eqn:Hin; simpl.
  - left. exists range. repeat split; auto.
    unfold shown. simpl. destruct st as [p w]; destruct w; simpl.
    destruct (has_onSuggestionShown p); reflexivity.
  - right; left. destruct st as [p w]; destruct w; auto.
Qed.

(** What [showSuggestionAtCaret_display] leaves alone. *)
Lemma showSuggestionAtCaret_display_frame L tb text st :
  suggestionCache (snd (showSuggestionAtCaret_display L tb text st))
  = suggestionCache st
  /\ providerCalls (snd (showSuggestionAtCaret_display L tb text st))
     = providerCalls st
  /\ controllers (snd (showSuggestionAtCaret_display L tb text st))
     = controllers st.
Proof.
  destruct (showSuggestionAtCaret_display_cases L tb text st)
    as [(range & _ & _ & _ & Heq) | [(_ & Heq) | [(_ & Heq) | (e & _ & Heq)]]];
    rewrite Heq; simpl; auto.
  unfold shown. destruct (has_onSuggestionShown (props st)); simpl; auto.
Qed.

(* ------------------------------------------------------------------------- *)
(** ** [showSuggestionAtCaret] up to the await *)

Lemma showSuggestionAtCaret_throws g st e :
  getTextUptilCaretInElement (surface st) = Throw e ->
  showSuggestionAtCaret g st = (Throw e, cleared st).
Proof.
  intros Hget. unfold showSuggestionAtCaret.
  unfold bind at 1. rewrite removeSuggestionIfDisplayed_eq, removed_SYSTEM.
  unfold_monad. simpl.
  rewrite getTextUptilCaretInElement_set_suggestionElements, Hget. reflexivity.
Qed.

Lemma showSuggestionAtCaret_miss g st L :
  getTextUptilCaretInElement (surface st) = Normal L ->
  truthy (lru_find L (suggestionCache st)) = false ->
  showSuggestionAtCaret g st
  = (Normal (Some (mkAwaiting L (now st) (length (controllers st)))),
     suspended g L st).
Proof.
  intros Hget Hmiss. unfold showSuggestionAtCaret.
  unfold bind at 1. rewrite removeSuggestionIfDisplayed_eq, removed_SYSTEM.
  unfold_monad. simpl.
  rewrite getTextUptilCaretInElement_set_suggestionElements, Hget. simpl.
  unfold suspended, lru_get.
  destruct (lru_find L (suggestionCache st)) as [v|] eqn:Hfind;
    cbn [fst snd]; rewrite Hmiss; destruct g; reflexivity.
Qed.

Lemma showSuggestionAtCaret_hit g st L v :
  getTextUptilCaretInElement (surface st) = Normal L ->
  lru_find L (suggestionCache st) = Some v ->
  v <> "" ->
  showSuggestionAtCaret g st
  = (let (c, st') :=
       showSuggestionAtCaret_display L (now st) v
         (set_now (now st + lookupTime st)
            (set_suggestionCache ((L, v) :: lru_remove L (suggestionCache st))
               (cleared st))) in
     match c with
     | Normal _ => (Normal None, st')
     | Throw e => (Throw e, st')
     end).
Proof.
  intros Hget Hfind Hv. unfold showSuggestionAtCaret.
  unfold bind at 1. rewrite removeSuggestionIfDisplayed_eq, removed_SYSTEM.
  unfold bind at 1. unfold bind at 1. unfold gets at 1. unfold lift at 1.
  simpl surface at 1.
  rewrite getTextUptilCaretInElement_set_suggestionElements, Hget.
  unfold bind at 1. unfold Date_now, gets at 1.
  unfold bind at 1. unfold cache_get, lru_get.
  change (suggestionCache (cleared st)) with (suggestionCache st).
  change (now (cleared st)) with (now st).
  change (lookupTime (cleared st)) with (lookupTime st).
  rewrite Hfind. cbn [fst snd]. rewrite (truthy_Some Hv).
  unfold bind at 1. unfold ret.
  reflexivity.
Qed.

(* ------------------------------------------------------------------------- *)
(** ** The handlers as equations *)

Lemma contentChanged_frame st :
  surface (contentChanged st) = surface st
  /\ suggestionCache (contentChanged st) = suggestionCache st
  /\ providerCalls (contentChanged st) = providerCalls st
  /\ controllers (contentChanged st) = controllers st
  /\ uuids (contentChanged st) = uuids st
  /\ now (contentChanged st) = now st
  /\ props (contentChanged st) = props st.
Proof.
  unfold contentChanged. destruct (has_onContentChange (props st)); simpl; auto 10.
Qed.

(** [handleInput] for an event without [data] (a deletion, a paste, the
    synthetic event that follows an accepted suggestion). *)
Lemma handleInput_no_data st :
  handleInput None st
  = (Normal None,
     if disableAutocomplete (props st) then contentChanged st
     else contentChanged (removed IMPLICIT st)).
Proof.
  unfold handleInput. unfold_monad.
  destruct (disableAutocomplete (props st)).
  - unfold contentChanged. destruct (has_onContentChange (props st)); reflexivity.
  - cbn [truthy andb]. rewrite andb_false_r.
    rewrite removeSuggestionIfDisplayed_eq. unfold contentChanged.
    change (props (removed IMPLICIT st)) with (props st).
    destruct (has_onContentChange (props st)); reflexivity.
Qed.

(** [handleInput] in the partial-acceptance case. *)
Lemma handleInput_partialAcceptance st d e :
  partialAcceptance st d e ->
  handleInput (Some d) st
  = (let st1 := contentChanged (removed IMPLICIT st) in
     let remainingSuggestion := substring_from (String.length d) (textContent e) in
     if truthy (Some remainingSuggestion) then
       match showSuggestionAtCaret (Remaining remainingSuggestion) st1 with
       | (Normal frame, st2) =>
           (Normal (match frame with
                    | Some f => Some (f, remainingSuggestion)
                    | None => None
                    end),
            set_disableSelectionEvent true st2)
       | (Throw err, st2) =>
           (Normal None,
            set_disableSelectionEvent true (set_escaped (escaped st2 ++ [err]) st2))
       end
     else (Normal None, st1)).
Proof.
  intros (Hen & Hcur & Hd & Hprefix).
  unfold handleInput. unfold_monad. rewrite Hen, Hcur.
  destruct (suggestionElements (surface st)) as [|e0 rest] eqn:Hels;
    [discriminate|].
  simpl in Hcur. injection Hcur as ->.
  cbn [length Nat.ltb Nat.leb andb].
  rewrite (truthy_Some Hd), Hprefix. cbn [andb].
  rewrite removeSuggestionIfDisplayed_eq. cbv zeta.
  unfold contentChanged.
  change (props (removed IMPLICIT st)) with (props st).
  destruct (has_onContentChange (props st)).
  - destruct (truthy (Some (substring_from (String.length d) (textContent e))));
      [|reflexivity].
    match goal with
    | |- context [showSuggestionAtCaret ?g ?s] =>
        destruct (showSuggestionAtCaret g s) as [[frame|err] st2]
    end; reflexivity.
  - destruct (truthy (Some (substring_from (String.length d) (textContent e))));
      [|reflexivity].
    match goal with
    | |- context [showSuggestionAtCaret ?g ?s] =>
        destruct (showSuggestionAtCaret g s) as [[frame|err] st2]
    end; reflexivity.
Qed.

(** Outside the partial-acceptance case [handleInput] only removes and
    reports. *)
Lemma handleInput_cases justTyped st :
  (exists d e, justTyped = Some d /\ partialAcceptance st d e)
  \/ handleInput justTyped st
     = (Normal None,
        if disableAutocomplete (props st) then contentChanged st
        else contentChanged (removed IMPLICIT st)).
Proof.
  destruct justTyped as [d|]; [|right; apply handleInput_no_data].
  destruct (disableAutocomplete (props st)) eqn:Hen.
  { right. unfold handleInput. unfold_monad. rewrite Hen.
    unfold contentChanged. destruct (has_onContentChange (props st)); reflexivity. }
  destruct (hd_error (suggestionElements (surface st))) as [e|] eqn:Hcur.
  - destruct (truthy (Some d)) eqn:Hd.
    + destruct (String.prefix d (textContent e)) eqn:Hprefix.
      * left. exists d, e. split; [reflexivity|]. repeat split; auto.
        intros ->. discriminate.
      * right. unfold handleInput. unfold_monad. rewrite Hen, Hcur, Hd, Hprefix.
        rewrite andb_false_r. rewrite removeSuggestionIfDisplayed_eq.
        unfold contentChanged. change (props (removed IMPLICIT st)) with (props st).
        destruct (has_onContentChange (props st)); reflexivity.
    + right. unfold handleInput. unfold_monad. rewrite Hen, Hcur, Hd.
      cbn [andb]. rewrite andb_false_r. rewrite removeSuggestionIfDisplayed_eq.
      unfold contentChanged. change (props (removed IMPLICIT st)) with (props st).
      destruct (has_onContentChange (props st)); reflexivity.
  - right. unfold handleInput. unfold_monad. rewrite Hen, Hcur.
    destruct (suggestionElements (surface st)); [|discriminate].
    cbn [length Nat.ltb Nat.leb andb]. rewrite removeSuggestionIfDisplayed_eq.
    unfold contentChanged. change (props (removed IMPLICIT st)) with (props st).
    destruct (has_onContentChange (props st)); reflexivity.
Qed.

Lemma handleBlur_eq st :
  handleBlur st
  = (Normal tt,
     set_controllers (abort (abortController st) (controllers st))
       (set_timer None (removed IMPLICIT st))).
Proof.
  unfold handleBlur. unfold_monad. rewrite removeSuggestionIfDisplayed_eq.
  reflexivity.
Qed.

Lemma removed_nothing reason st :
  suggestionElements (surface st) = [] -> removed reason st = st.
Proof.
  intros Hels. unfold removed, rejections. rewrite Hels.
  destruct st as [p w]; destruct w; simpl in *; subst.
  destruct reason; try destruct (has_onSuggestionRejected p);
    simpl; rewrite app_nil_r; reflexivity.
Qed.

Lemma insertNodeAtCaret_AcceptedText text w :
  insertNodeAtCaret (AcceptedText text) w
  = match getCaretAsRange w with
    | Throw err => Throw err
    | Normal None => Normal (false, w)
    | Normal (Some range) =>
        if insideTextbox range then Normal (true, textInserted range text w)
        else Normal (false, w)
    end.
Proof.
  unfold insertNodeAtCaret.
  destruct (getCaretAsRange w) as [[range|]|err]; try reflexivity.
  destruct (insideTextbox range); reflexivity.
Qed.

(** [handleKeyDown], branch by branch. *)
Lemma handleKeyDown_eq key st :
  handleKeyDown key st
  = if disableAutocomplete (props st) then (Normal tt, st)
    else if String.eqb key "Escape" then
      (Normal tt, removed EXPLICIT (prevented key st))
    else if String.eqb key "Tab" then
      match suggestionElements (surface st) with
      | [] => (Normal tt, prevented key st)
      | e :: _ =>
          if truthy (Some (textContent e)) then
            match getCaretAsRange (surface st) with
            | Throw err => (Throw err, cleared (prevented key st))
            | Normal None => (Normal tt, cleared (prevented key st))
            | Normal (Some range) =>
                if insideTextbox range then
                  let st1 :=
                    set_surface
                      (textInserted range (textContent e) (surface (cleared st)))
                      (prevented key st) in
                  (Normal tt,
                   set_notifications
                     (notifications st ++ acceptance (props st) e (now st)
                        ++ contentReport (props st) (surface st1))
                     st1)
                else (Normal tt, cleared (prevented key st))
            end
          else (Throw AssertionError, prevented key st)
      end
    else (Normal tt, st).
Proof.
  unfold handleKeyDown. unfold bind at 1. unfold gets at 1.
  destruct (disableAutocomplete (props st)) eqn:Hen; [reflexivity|].
  destruct (String.eqb key "Escape").
  { unfold bind, preventDefault, modify. fold (prevented key st).
    apply removeSuggestionIfDisplayed_eq. }
  destruct (String.eqb key "Tab"); [|reflexivity].
  unfold bind at 1. unfold preventDefault, modify. fold (prevented key st).
  unfold_monad.
  change (surface (prevented key st)) with (surface st).
  destruct (suggestionElements (surface st)) as [|e rest] eqn:Hels;
    [reflexivity|].
  cbn [length Nat.ltb Nat.leb negb].
  change (surface (prevented key st)) with (surface st).
  rewrite Hels. cbn [hd_error].
  destruct (truthy (Some (textContent e))); [|reflexivity].
  rewrite removeSuggestionIfDisplayed_eq, removed_SYSTEM.
  rewrite insertNodeAtCaret_AcceptedText.
  change (getCaretAsRange (surface (cleared (prevented key st))))
    with (getCaretAsRange (surface st)).
  destruct (getCaretAsRange (surface st)) as [[range|]|err];
    [| destruct st as [p w]; destruct w; reflexivity | reflexivity].
  destruct (insideTextbox range);
    [| destruct st as [p w]; destruct w; reflexivity].
  cbn [fst snd negb]. unfold acceptance, contentReport.
  match goal with
  | |- context [set_surface ?w (cleared (prevented key st))] =>
      change (props (set_surface w (cleared (prevented key st))))
        with (props st)
  end.
  destruct (has_onSuggestionAccepted (props st));
    rewrite handleInput_no_data; simpl; rewrite Hen;
    rewrite removed_nothing by reflexivity; unfold contentChanged; simpl;
    destruct (has_onContentChange (props st)); simpl;
    rewrite <- ?app_assoc, ?app_nil_r; destruct st; reflexivity.
Qed.

(** What no branch of [handleKeyDown] touches. *)
Lemma handleKeyDown_frame key st :
  suggestionCache (run_task (handleKeyDown key) st) = suggestionCache st
  /\ controllers (run_task (handleKeyDown key) st) = controllers st
  /\ providerCalls (run_task (handleKeyDown key) st) = providerCalls st.
Proof.
  unfold run_task. rewrite handleKeyDown_eq.
  destruct (disableAutocomplete (props st)); [auto|].
  destruct (String.eqb key "Escape"); [auto|].
  destruct (String.eqb key "Tab"); [|auto].
  destruct (suggestionElements (surface st)) as [|e rest]; [auto|].
  destruct (truthy (Some (textContent e))); [|auto].
  destruct (getCaretAsRange (surface st)) as [[range|]|err]; [|auto|auto].
  destruct (insideTextbox range); auto.
Qed.

Lemma run_task_notifications A (m : M A) st :
  notifications (run_task m st) = notifications (snd (m st)).
Proof. unfold run_task. destruct (m st) as [[a|e] st']; reflexivity. Qed.

Lemma run_task_providerCalls A (m : M A) st :
  providerCalls (run_task m st) = providerCalls (snd (m st)).
Proof. unfold run_task. destruct (m st) as [[a|e] st']; reflexivity. Qed.

Lemma run_task_suggestionCache A (m : M A) st :
  suggestionCache (run_task m st) = suggestionCache (snd (m st)).
Proof. unfold run_task. destruct (m st) as [[a|e] st']; reflexivity. Qed.

(* ------------------------------------------------------------------------- *)
(** ** The cache holds non-empty suggestions *)

Lemma cache_ok_find c :
  cache_ok c -> forall k v, lru_find k c = Some v -> v <> "".
Proof.
  induction 1 as [|[k0 v0] c Hv _ IH]; intros k v; simpl; [discriminate|].
  destruct (String.eqb k k0); [|apply IH].
  intros H. injection H as <-. exact Hv.
Qed.

Lemma cache_ok_remove k c : cache_ok c -> cache_ok (lru_remove k c).
Proof.
  induction 1 as [|[k0 v0] c Hv _ IH]; simpl; [constructor|].
  destruct (String.eqb k k0); [exact IH | constructor; assumption].
Qed.

Lemma cache_ok_firstn n : forall c, cache_ok c -> cache_ok (firstn n c).
Proof.
  induction n as [|n IH]; intros c Hc; simpl; [constructor|].
  destruct Hc as [|entry c Hv Hc]; constructor; [exact Hv | apply IH, Hc].
Qed.

Lemma cache_ok_get k c : cache_ok c -> cache_ok (snd (lru_get k c)).
Proof.
  intros Hc. unfold lru_get.
  destruct (lru_find k c) as [v|] eqn:Hfind; simpl; [|exact Hc].
  constructor; [exact (cache_ok_find Hc _ Hfind) | apply cache_ok_remove, Hc].
Qed.

Lemma cache_ok_set k v c : v <> "" -> cache_ok c -> cache_ok (lru_set k v c).
Proof.
  intros Hv Hc. unfold lru_set. apply cache_ok_firstn.
  constructor; [exact Hv | apply cache_ok_remove, Hc].
Qed.

Lemma showSuggestionAtCaret_cache_ok g st :
  cache_ok (suggestionCache st) ->
  cache_ok (suggestionCache (snd (showSuggestionAtCaret g st))).
Proof.
  intros Hok.
  destruct (getTextUptilCaretInElement (surface st)) as [L|e] eqn:Hget.
  - destruct (truthy_cases (lru_find L (suggestionCache st)))
      as [(v & Hfind & Hv) | Hmiss].
    + rewrite (showSuggestionAtCaret_hit g st Hget Hfind Hv).
      match goal with
      | |- context [showSuggestionAtCaret_display ?a ?b ?c ?s] =>
          destruct (showSuggestionAtCaret_display_frame a b c s) as (Hd & _);
          destruct (showSuggestionAtCaret_display a b c s) as [[u|e] st']
      end; simpl in *; rewrite Hd;
        (constructor; [exact Hv | apply cache_ok_remove, Hok]).
    + rewrite (showSuggestionAtCaret_miss g st Hget Hmiss).
      destruct g; simpl; apply cache_ok_get, Hok.
  - rewrite (showSuggestionAtCaret_throws g st Hget). exact Hok.
Qed.

Lemma resume_cache_ok frame r st :
  cache_ok (suggestionCache st) ->
  cache_ok (suggestionCache (snd (showSuggestionAtCaret_resume frame r st))).
Proof.
  intros Hok. destruct r as [text|e]; simpl; [|exact Hok].
  destruct (String.eqb_spec text "") as [->|Hne]; simpl; [exact Hok|].
  unfold bind, modify.
  match goal with
  | |- context [showSuggestionAtCaret_display ?a ?b ?c ?s] =>
      destruct (showSuggestionAtCaret_display_frame a b c s) as (Hd & _)
  end.
  rewrite Hd. simpl. apply cache_ok_set; assumption.
Qed.

Lemma input_task_cache_ok justTyped st :
  cache_ok (suggestionCache st) ->
  cache_ok (suggestionCache (input_task justTyped st)).
Proof.
  intros Hok. unfold input_task.
  destruct (handleInput_cases justTyped st) as [(d & e & -> & Hpa) | Heq].
  - rewrite (handleInput_partialAcceptance Hpa). cbv zeta.
    assert (Hok1 : cache_ok (suggestionCache (contentChanged (removed IMPLICIT st)))).
    { destruct (contentChanged_frame (removed IMPLICIT st)) as (_ & Hc & _).
      rewrite Hc. exact Hok. }
    destruct (truthy (Some (substring_from (String.length d) (textContent e))));
      [|exact Hok1].
    match goal with
    | |- context [showSuggestionAtCaret ?g ?s] =>
        pose proof (@showSuggestionAtCaret_cache_ok g s Hok1) as Hshow;
        destruct (showSuggestionAtCaret g s) as [[[frame|]|err] st2]
    end; simpl in Hshow; try exact Hshow.
    rewrite run_task_suggestionCache. apply resume_cache_ok. exact Hshow.
  - rewrite Heq.
    destruct (disableAutocomplete (props st));
      match goal with
      | |- context [contentChanged ?s] =>
          destruct (contentChanged_frame s) as (_ & Hc & _)
      end; rewrite Hc; exact Hok.
Qed.

Lemma handleKeyDown_suggestionCache key st :
  suggestionCache (run_task (handleKeyDown key) st) = suggestionCache st.
Proof. apply handleKeyDown_frame. Qed.

Lemma handleSelection_suggestionCache st :
  suggestionCache (run_task handleSelection st) = suggestionCache st.
Proof.
  unfold handleSelection. unfold_monad.
  destruct (disableAutocomplete (props st)); [reflexivity|].
  destruct (disableSelectionEvent st); [reflexivity|].
  rewrite removeSuggestionIfDisplayed_eq. simpl.
  destruct (selection (surface st)) as [sel|]; simpl; [|reflexivity].
  destruct (isCollapsed sel); simpl; [|reflexivity].
  destruct (isCaretAtLineEnd sel) as [[|]|e]; reflexivity.
Qed.

(** Every task keeps the cached suggestions non-empty. *)
Lemma step_cache_ok ev st st' :
  cache_ok (suggestionCache st) ->
  step ev st = Some st' ->
  cache_ok (suggestionCache st').
Proof.
  intros Hok Hstep. destruct ev; simpl in Hstep.
  - injection Hstep as <-. apply input_task_cache_ok, Hok.
  - injection Hstep as <-. rewrite handleKeyDown_suggestionCache. exact Hok.
  - injection Hstep as <-. rewrite handleSelection_suggestionCache. exact Hok.
  - injection Hstep as <-. unfold run_task. rewrite handleBlur_eq. exact Hok.
  - destruct (timer st) as [t|]; [|discriminate].
    destruct (armedAt t + Z.max 0 (delay t) <=? now st)%Z; [|discriminate].
    injection Hstep as <-. unfold timer_task.
    pose proof (@showSuggestionAtCaret_cache_ok FromProps (set_timer None st) Hok)
      as Hshow.
    destruct (showSuggestionAtCaret FromProps (set_timer None st))
      as [[[frame|]|err] st2]; exact Hshow.
  - destruct (find_frame signal (awaiting st)) as [frame|]; [|discriminate].
    injection Hstep as <-. unfold settle_task.
    rewrite run_task_suggestionCache. apply resume_cache_ok. exact Hok.
  - injection Hstep as <-. exact Hok.
  - destruct (0 <=? ms)%Z; [|discriminate]. injection Hstep as <-. exact Hok.
  - injection Hstep as <-. exact Hok.
  - destruct (0 <=? ms)%Z; [|discriminate]. injection Hstep as <-. exact Hok.
Qed.

Lemma run_cache_ok evs : forall st st',
  cache_ok (suggestionCache st) ->
  run evs st = Some st' ->
  cache_ok (suggestionCache st').
Proof.
  induction evs as [|ev evs IH]; intros st st' Hok Hrun; simpl in Hrun.
  - injection Hrun as <-. exact Hok.
  - destruct (step ev st) as [st1|] eqn:Hstep; [|discriminate].
    exact (IH _ _ (@step_cache_ok ev st st1 Hok Hstep) Hrun).
Qed.

(** In every state the component can reach, a cache entry is a non-empty
    suggestion. *)
Corollary reachable_cache_ok p w evs st :
  run evs (mount p w) = Some st -> cache_ok (suggestionCache st).
Proof. apply run_cache_ok. constructor. Qed.

(* ------------------------------------------------------------------------- *)
(** ** The sample states are reachable *)

Example fetching_reached :
  run [Select; Tick 1000; TimerFires] (mount (allCallbacks false None) hello)
  = Some fetching.
Proof. reflexivity. Qed.

Example displaying_reached :
  run [Settles 1 (Resolves "world")] fetching = Some displaying.
Proof. reflexivity. Qed.

Example typed_w_reached :
  run [Edit (Some (caretAtEnd 7)) ["hello w"] ""] displaying = Some typed_w.
Proof. reflexivity. Qed.

(* ------------------------------------------------------------------------- *)
(** ** C1: what partial acceptance reports *)

Lemma emits_no_rejection_same st st' :
  notifications st' = notifications st -> emits_no_rejection st st'.
Proof. intros H. exists []. rewrite app_nil_r. split; [exact H | constructor]. Qed.

Lemma emits_no_rejection_trans st1 st2 st3 :
  emits_no_rejection st1 st2 -> emits_no_rejection st2 st3 ->
  emits_no_rejection st1 st3.
Proof.
  intros (t1 & H1 & F1) (t2 & H2 & F2). exists (t1 ++ t2). split.
  - rewrite H2, H1, app_assoc. reflexivity.
  - apply Forall_app. split; assumption.
Qed.

Lemma emits_no_rejection_one st st' n :
  notifications st' = notifications st ++ [n] -> is_rejection n = false ->
  emits_no_rejection st st'.
Proof. intros H Hn. exists [n]. split; [exact H | repeat constructor; exact Hn]. Qed.

Lemma display_emits_no_rejection L tb text st :
  emits_no_rejection st (snd (showSuggestionAtCaret_display L tb text st)).
Proof.
  destruct (showSuggestionAtCaret_display_cases L tb text st)
    as [(range & _ & _ & _ & Heq) | [(_ & Heq) | [(_ & Heq) | (e & _ & Heq)]]];
    rewrite Heq; simpl; try (apply emits_no_rejection_same; reflexivity).
  unfold shown. destruct (has_onSuggestionShown (props st)).
  - eapply emits_no_rejection_one; reflexivity.
  - apply emits_no_rejection_same; reflexivity.
Qed.

Lemma showSuggestionAtCaret_emits_no_rejection g st :
  emits_no_rejection st (snd (showSuggestionAtCaret g st)).
Proof.
  destruct (getTextUptilCaretInElement (surface st)) as [L|e] eqn:Hget.
  - destruct (truthy_cases (lru_find L (suggestionCache st)))
      as [(v & Hfind & Hv) | Hmiss].
    + rewrite (showSuggestionAtCaret_hit g st Hget Hfind Hv).
      match goal with
      | |- context [showSuggestionAtCaret_display ?a ?b ?c ?s] =>
          pose proof (display_emits_no_rejection a b c s) as Hd;
          destruct (showSuggestionAtCaret_display a b c s) as [[u|e] st']
      end; exact Hd.
    + rewrite (showSuggestionAtCaret_miss g st Hget Hmiss).
      apply emits_no_rejection_same. destruct g; reflexivity.
  - rewrite (showSuggestionAtCaret_throws g st Hget).
    apply emits_no_rejection_same. reflexivity.
Qed.

Lemma resume_emits_no_rejection frame r st :
  emits_no_rejection st (snd (showSuggestionAtCaret_resume frame r st)).
Proof.
  destruct r as [text|e]; simpl; [|apply emits_no_rejection_same; reflexivity].
  destruct (String.eqb text ""); simpl;
    [apply emits_no_rejection_same; reflexivity|].
  unfold bind, modify.
  match goal with
  | |- context [showSuggestionAtCaret_display ?a ?b ?c ?s] =>
      pose proof (display_emits_no_rejection a b c s) as Hd
  end.
  exact Hd.
Qed.

Lemma contentChanged_removed_notifications reason st :
  exists cc,
    notifications (contentChanged (removed reason st))
    = notifications st
      ++ rejections (props st) reason (now st) (suggestionElements (surface st))
      ++ cc
    /\ Forall (fun n => is_rejection n = false) cc.
Proof.
  unfold contentChanged.
  change (props (removed reason st)) with (props st).
  destruct (has_onContentChange (props st)).
  - eexists. split.
    + simpl. rewrite <- app_assoc. reflexivity.
    + repeat constructor.
  - exists []. split; [|constructor].
    simpl. rewrite app_nil_r. reflexivity.
Qed.

(** C1, counterexample.  "world" is displayed and the user types "w": the
    element is removed with the reason [IMPLICIT], and [onSuggestionRejected]
    is called for it. *)
Lemma partial_acceptance_reports_rejection :
  partialAcceptance typed_w "w" (mkSuggestionElement "s-0" "world")
  /\ ~ no_rejection_emitted typed_w (input_task (Some "w") typed_w).
Proof.
  split.
  - repeat split. discriminate.
  - unfold no_rejection_emitted. vm_compute. discriminate.
Qed.

Example partial_acceptance_log :
  notifications (input_task (Some "w") typed_w)
  = notifications typed_w
    ++ [SuggestionRejected "s-0" 1000 IMPLICIT;
        ContentChange "hello w";
        SuggestionShown (mkSuggestionInfo "s-1" 1000 0 "orld" "hello w")].
Proof. reflexivity. Qed.

(** C1, amended.  In the partial-acceptance case [handleInput] removes the
    displayed suggestion with the reason [IMPLICIT]: the first callbacks it
    makes are the [onSuggestionRejected] calls of that removal, one per
    suggestion element when the callback is supplied, and nothing it emits
    afterwards (content change, the re-displayed remainder) is a rejection. *)
Theorem partial_acceptance_rejects_implicitly (st : State) (d : string)
    (e : SuggestionElement) :
  partialAcceptance st d e ->
  exists tail,
    notifications (input_task (Some d) st)
    = notifications st
      ++ rejections (props st) IMPLICIT (now st) (suggestionElements (surface st))
      ++ tail
    /\ Forall (fun n => is_rejection n = false) tail.
Proof.
  intros Hpa.
  assert (Hgoal : forall st',
             emits_no_rejection (contentChanged (removed IMPLICIT st)) st' ->
             exists tail,
               notifications st'
               = notifications st
                 ++ rejections (props st) IMPLICIT (now st)
                      (suggestionElements (surface st))
                 ++ tail
               /\ Forall (fun n => is_rejection n = false) tail).
  { intros st' (t & Ht & Ft).
    destruct (contentChanged_removed_notifications IMPLICIT st) as (cc & Hcc & Fcc).
    exists (cc ++ t). split.
    - rewrite Ht, Hcc. rewrite <- !app_assoc. reflexivity.
    - apply Forall_app. split; assumption. }
  apply Hgoal.
  unfold input_task. rewrite (handleInput_partialAcceptance Hpa). cbv zeta.
  destruct (truthy (Some (substring_from (String.length d) (textContent e))));
    [|apply emits_no_rejection_same; reflexivity].
  match goal with
  | |- context [showSuggestionAtCaret ?g ?s] =>
      pose proof (showSuggestionAtCaret_emits_no_rejection g s) as Hshow;
      destruct (showSuggestionAtCaret g s) as [[[frame|]|err] st2]
  end; simpl in Hshow.
  - eapply emits_no_rejection_trans; [exact Hshow|].
    match goal with
    | |- context [run_task (showSuggestionAtCaret_resume ?f ?r) ?s] =>
        pose proof (resume_emits_no_rejection f r s) as Hres
    end.
    destruct Hres as (t & Ht & Ft). exists t. split; [|exact Ft].
    rewrite run_task_notifications. exact Ht.
  - destruct Hshow as (t & Ht & Ft). exists t. split; [exact Ht | exact Ft].
  - destruct Hshow as (t & Ht & Ft). exists t. split; [exact Ht | exact Ft].
Qed.

Lemma partial_acceptance_rejects_implicitly_witness :
  partialAcceptance typed_w "w" (mkSuggestionElement "s-0" "world")
  /\ exists tail,
       notifications (input_task (Some "w") typed_w)
       = notifications typed_w
         ++ rejections (props typed_w) IMPLICIT (now typed_w)
              (suggestionElements (surface typed_w))
         ++ tail
       /\ Forall (fun n => is_rejection n = false) tail.
Proof.
  assert (H : partialAcceptance typed_w "w" (mkSuggestionElement "s-0" "world")).
  { repeat split. discriminate. }
  split; [exact H | exact (partial_acceptance_rejects_implicitly H)].
Defined.

(* ------------------------------------------------------------------------- *)
(** ** C2: a failing provider *)

Lemma settle_task_empty (frame : Awaiting) (st : State) :
  settle_task frame (Resolves "") st
  = set_awaiting (drop_frame (aw_signal frame) (awaiting st)) st.
Proof. reflexivity. Qed.

(** C2, counterexample.  The pending call of the sample state fails: the
    error is not caught, it leaves the component as an unhandled rejection,
    which an empty result does not. *)
Lemma provider_failure_not_like_empty_result :
  ~ failure_like_empty_result (mkAwaiting "hello " 1000 1)
      (ProviderError "503") fetching.
Proof.
  unfold failure_like_empty_result. intros H.
  apply (f_equal escaped) in H. vm_compute in H. discriminate.
Qed.

(** C2, amended.  When [getSuggestion] throws or its promise rejects, nothing
    in [showSuggestionAtCaret] catches the error: the run ends there and the
    error escapes as the rejection of its promise.  Apart from that the state
    is the one an empty result leaves: no suggestion is displayed, no callback
    is invoked and the cache is not written. *)
Theorem provider_failure_escapes (frame : Awaiting) (e : Error) (st : State) :
  settle_task frame (Rejects e) st
  = set_escaped (escaped st ++ [e]) (settle_task frame (Resolves "") st)
  /\ escaped (settle_task frame (Rejects e) st) = escaped st ++ [e]
  /\ surface (settle_task frame (Rejects e) st) = surface st
  /\ notifications (settle_task frame (Rejects e) st) = notifications st
  /\ suggestionCache (settle_task frame (Rejects e) st) = suggestionCache st.
Proof.
  rewrite settle_task_empty. unfold settle_task. simpl. auto.
Qed.

(* ------------------------------------------------------------------------- *)
(** ** C3: the re-displayed remainder *)

(** The function handed over in the partial-acceptance case is not the prop:
    [props.getSuggestion] is not called, whatever the cache holds. *)
Lemma showSuggestionAtCaret_Remaining_providerCalls r st :
  providerCalls (snd (showSuggestionAtCaret (Remaining r) st)) = providerCalls st.
Proof.
  destruct (getTextUptilCaretInElement (surface st)) as [L|e] eqn:Hget.
  - destruct (truthy_cases (lru_find L (suggestionCache st)))
      as [(v & Hfind & Hv) | Hmiss].
    + rewrite (showSuggestionAtCaret_hit (Remaining r) st Hget Hfind Hv).
      match goal with
      | |- context [showSuggestionAtCaret_display ?a ?b ?c ?s] =>
          destruct (showSuggestionAtCaret_display_frame a b c s) as (_ & Hd & _);
          destruct (showSuggestionAtCaret_display a b c s) as [[u|e] st']
      end; exact Hd.
    + rewrite (showSuggestionAtCaret_miss (Remaining r) st Hget Hmiss). reflexivity.
  - rewrite (showSuggestionAtCaret_throws (Remaining r) st Hget). reflexivity.
Qed.

Lemma resume_providerCalls frame r st :
  providerCalls (snd (showSuggestionAtCaret_resume frame r st)) = providerCalls st.
Proof.
  destruct r as [text|e]; simpl; [|reflexivity].
  destruct (String.eqb text ""); simpl; [reflexivity|].
  unfold bind, modify.
  match goal with
  | |- context [showSuggestionAtCaret_display ?a ?b ?c ?s] =>
      destruct (showSuggestionAtCaret_display_frame a b c s) as (_ & Hd & _)
  end.
  exact Hd.
Qed.

(** C3.  The cache already holds "ait" for "hello w" when the user types "w"
    in front of the displayed "world".  The remainder of the suggestion is
    "orld", but the run of [showSuggestionAtCaret] that [handleInput] starts
    with [() => remainingSuggestion] looks the cache up first and, on a hit,
    never calls that function: what is displayed next is the cached "ait". *)
Theorem remainder_replaced_by_cached_text :
  exists st,
    run back_and_forth (mount (allCallbacks false None) hello) = Some st
    /\ partialAcceptance st "w" (mkSuggestionElement "s-1" "world")
    /\ substring_from (String.length "w") "world" = "orld"
    /\ map textContent (suggestionElements (surface (input_task (Some "w") st)))
       = ["ait"]
    /\ ~ redisplayed_without_cache st "w" (mkSuggestionElement "s-1" "world").
Proof.
  eexists. split; [vm_compute; reflexivity|]. split; [|split; [|split]].
  - repeat split. discriminate.
  - reflexivity.
  - reflexivity.
  - unfold redisplayed_without_cache. intros (H & _).
    vm_compute in H. discriminate.
Qed.

(** Without a cached entry the remainder is displayed, and written to the
    cache. *)
Example remainder_written_to_cache :
  map textContent (suggestionElements (surface (input_task (Some "w") typed_w)))
  = ["orld"]
  /\ suggestionCache typed_w = [("hello ", "world")]
  /\ suggestionCache (input_task (Some "w") typed_w)
     = [("hello w", "orld"); ("hello ", "world")].
Proof. repeat split. Qed.

(* ------------------------------------------------------------------------- *)
(** ** C4: cancellation of the pending fetch *)

Lemma nth_error_abort i : forall cs,
  i < length cs -> nth_error (abort i cs) i = Some true.
Proof.
  induction i as [|i IH]; intros [|c cs] Hlt; simpl in *; try lia.
  - reflexivity.
  - apply IH. lia.
Qed.

Lemma handleKeyDown_controllers key st :
  controllers (run_task (handleKeyDown key) st) = controllers st.
Proof. apply handleKeyDown_frame. Qed.

Lemma handleSelection_controllers st :
  disableAutocomplete (props st) = false ->
  disableSelectionEvent st = false ->
  controllers (run_task handleSelection st)
  = abort (abortController st) (controllers st).
Proof.
  intros Hen Hskip. unfold handleSelection. unfold_monad.
  rewrite Hen, Hskip. rewrite removeSuggestionIfDisplayed_eq. simpl.
  destruct (selection (surface st)) as [sel|]; simpl; [|reflexivity].
  destruct (isCollapsed sel); simpl; [|reflexivity].
  destruct (isCaretAtLineEnd sel) as [[|]|e]; reflexivity.
Qed.

(** C4, counterexample.  A call of [getSuggestion] is pending and the user
    presses Escape: [handleKeyDown] does not touch the abort controller, and
    the result that arrives afterwards is displayed. *)
Lemma escape_does_not_cancel_pending_fetch :
  ~ cancels_pending (KeyDown "Escape") fetching (mkAwaiting "hello " 1000 1)
      "world".
Proof.
  intros (st1 & st2 & Hstep & Haborted & _).
  vm_compute in Hstep. injection Hstep as <-.
  vm_compute in Haborted. discriminate.
Qed.

Example result_displayed_after_escape :
  option_map (fun st => suggestionElements (surface st))
    (run [KeyDown "Escape"; Settles 1 (Resolves "world")] fetching)
  = Some [mkSuggestionElement "s-0" "world"].
Proof. reflexivity. Qed.

Example result_displayed_after_tab :
  option_map (fun st => (nth_error (controllers st) 1,
                         suggestionElements (surface st)))
    (run [KeyDown "Tab"; Settles 1 (Resolves "world")] fetching)
  = Some (Some false, [mkSuggestionElement "s-0" "world"]).
Proof. reflexivity. Qed.

(** The signal is for the provider only: the component never reads it.  A
    provider that ignores it still gets its result displayed when the caret is
    back where the call was issued. *)
Example aborted_result_displayed :
  option_map (fun st => (nth_error (controllers st) 1,
                         suggestionElements (surface st)))
    (run (left_and_right ++ [Settles 1 (Resolves "world")]) fetching)
  = Some (Some true, [mkSuggestionElement "s-0" "world"]).
Proof. reflexivity. Qed.

(** C4, amended.  While a call of [getSuggestion] is pending and its abort
    controller is still the current one, a selection event that starts a new
    debounce cycle and a blur abort that controller, which signals
    cancellation to the call; a key press (Escape and Tab included) leaves
    every controller as it is. *)
Theorem selection_and_blur_abort_pending_fetch (st : State) (frame : Awaiting) :
  In frame (awaiting st) ->
  aw_signal frame = abortController st ->
  abortController st < length (controllers st) ->
  (disableAutocomplete (props st) = false ->
   disableSelectionEvent st = false ->
   nth_error (controllers (run_task handleSelection st)) (aw_signal frame)
   = Some true)
  /\ nth_error (controllers (run_task handleBlur st)) (aw_signal frame)
     = Some true
  /\ (forall key,
        controllers (run_task (handleKeyDown key) st) = controllers st).
Proof.
  intros _ Hsig Hlt. rewrite Hsig. repeat split.
  - intros Hen Hskip. rewrite (handleSelection_controllers st Hen Hskip).
    apply nth_error_abort. exact Hlt.
  - unfold run_task. rewrite handleBlur_eq. simpl.
    apply nth_error_abort. exact Hlt.
  - intros key. apply handleKeyDown_controllers.
Qed.

Lemma selection_and_blur_abort_pending_fetch_witness :
  nth_error (controllers (run_task handleSelection fetching)) 1 = Some true
  /\ nth_error (controllers (run_task handleBlur fetching)) 1 = Some true
  /\ (forall key,
        controllers (run_task (handleKeyDown key) fetching)
        = controllers fetching).
Proof.
  destruct (@selection_and_blur_abort_pending_fetch fetching
              (mkAwaiting "hello " 1000 1)) as (Hsel & Hblur & Hkey).
  - left. reflexivity.
  - reflexivity.
  - simpl. lia.
  - split; [exact (Hsel eq_refl eq_refl)|]. split; [exact Hblur | exact Hkey].
Defined.

(* ------------------------------------------------------------------------- *)
(** ** C5: the [disableAutocomplete] flag *)

(** C5, counterexample.  "world" is displayed and the parent sets the flag:
    the suggestion is still in the textbox and nothing has been reported. *)
Lemma disabling_keeps_displayed_suggestion :
  ~ disabling_removes_suggestion displaying.
Proof.
  intros (st' & Hstep & Hels & _).
  vm_compute in Hstep. injection Hstep as <-.
  vm_compute in Hels. discriminate.
Qed.

(** The flag is set while the debounce timer is live: the timer still fires,
    the fetch is still made and its result is displayed with the flag set;
    the guarded handlers then leave the suggestion where it is. *)
Example suggestion_displayed_while_disabled :
  option_map
    (fun st => (disableAutocomplete (props st), suggestionElements (surface st)))
    (run [Select; Rerender true; Tick 1000; TimerFires;
          Settles 1 (Resolves "world"); Select; KeyDown "Escape"; Input (Some "x")]
       (mount (allCallbacks false None) hello))
  = Some (true, [mkSuggestionElement "s-0" "world"]).
Proof. reflexivity. Qed.

(** A blur is not guarded by the flag. *)
Example blur_removes_while_disabled :
  option_map
    (fun st => (suggestionElements (surface st), notifications st))
    (run [Rerender true; Blur] displaying)
  = Some ([], notifications displaying ++ [SuggestionRejected "s-0" 1000 IMPLICIT]).
Proof. reflexivity. Qed.

(** C5, amended.  Setting or clearing [disableAutocomplete] is a re-render
    that changes the prop and nothing else: a displayed suggestion stays in
    the textbox unreported, a live timer and a pending fetch stay as they
    are, and nothing is resurrected.  While the flag is set, [handleKeyDown]
    and [handleSelection] return at once and [handleInput] only reports the
    content: these handlers neither remove, reject nor display a suggestion,
    and they neither arm nor clear a timer nor abort a fetch. *)
Theorem disabling_changes_only_the_prop (st : State) :
  (forall b st',
     step (Rerender b) st = Some st' ->
     disableAutocomplete (props st') = b
     /\ surface st' = surface st
     /\ timer st' = timer st
     /\ controllers st' = controllers st
     /\ awaiting st' = awaiting st
     /\ suggestionCache st' = suggestionCache st
     /\ notifications st' = notifications st)
  /\ (disableAutocomplete (props st) = true ->
      (forall key, run_task (handleKeyDown key) st = st)
      /\ run_task handleSelection st = st
      /\ (forall justTyped, input_task justTyped st = contentChanged st)).
Proof.
  split.
  - intros b st' Hstep. simpl in Hstep. injection Hstep as <-.
    repeat split.
  - intros Hdis. split; [|split].
    + intros key. unfold handleKeyDown. unfold_monad. rewrite Hdis. reflexivity.
    + unfold handleSelection. unfold_monad. rewrite Hdis. reflexivity.
    + intros justTyped. unfold input_task, handleInput. unfold_monad.
      rewrite Hdis. unfold contentChanged.
      destruct (has_onContentChange (props st)); reflexivity.
Qed.

Lemma disabling_changes_only_the_prop_witness :
  disableAutocomplete (props (set_props (allCallbacks true None) displaying))
  = true
  /\ run_task handleSelection (set_props (allCallbacks true None) displaying)
     = set_props (allCallbacks true None) displaying
  /\ (forall key,
        run_task (handleKeyDown key)
          (set_props (allCallbacks true None) displaying)
        = set_props (allCallbacks true None) displaying).
Proof.
  assert (H : disableAutocomplete
                (props (set_props (allCallbacks true None) displaying)) = true)
    by reflexivity.
  destruct (disabling_changes_only_the_prop
              (set_props (allCallbacks true None) displaying))
    as (_ & Hinert).
  destruct (Hinert H) as (Hkey & Hsel & _).
  split; [exact H|]. split; [exact Hsel | exact Hkey].
Defined.

(* ------------------------------------------------------------------------- *)
(** ** C6: how many suggestions are displayed *)

(** C6.  [showSuggestionAtCaret] removes the displayed suggestions before its
    await and inserts the new one after it.  Two runs suspended at the same
    time therefore insert one element each: after [racing_fetches] the
    textbox holds two suggestion elements; the next selection event removes
    both in one call and reports both. *)
Theorem two_suggestions_after_racing_fetches :
  exists st,
    run racing_fetches (mount (allCallbacks false None) hello) = Some st
    /\ suggestionElements (surface st)
       = [mkSuggestionElement "s-1" "world"; mkSuggestionElement "s-0" "world"]
    /\ suggestionElements (surface (run_task handleSelection st)) = []
    /\ notifications (run_task handleSelection st)
       = notifications st
         ++ [SuggestionRejected "s-1" 5500 IMPLICIT;
             SuggestionRejected "s-0" 5500 IMPLICIT].
Proof.
  eexists. split; [vm_compute; reflexivity|]. repeat split.
Qed.

(* ------------------------------------------------------------------------- *)
(** ** C7: cache hits *)

(** C7, counterexample.  After [cached_then_slow] the debounce timer is due,
    the cache holds "world" for the text "hello " before the caret, and a
    lookup takes one millisecond: the timer callback is served from the cache,
    and the [onSuggestionShown] call it makes reports the latency 1. *)
Lemma cache_hit_reports_latency_1 :
  exists st,
    run cached_then_slow (mount (allCallbacks false None) hello) = Some st
    /\ getTextUptilCaretInElement (surface st) = Normal "hello "
    /\ lru_find "hello " (suggestionCache st) = Some "world"
    /\ step TimerFires st = Some (timer_task st)
    /\ ~ cache_hit_has_latency_0 st.
Proof.
  eexists. split; [vm_compute; reflexivity|].
  split; [reflexivity|]. split; [reflexivity|]. split; [reflexivity|].
  intros (_ & tail & Ht & Hall).
  vm_compute in Ht. injection Ht as <-.
  specialize (Hall _ (or_introl eq_refl)). discriminate.
Qed.

Example slow_cache_hit_log :
  option_map (fun st => (notifications st, providerCalls st, awaiting st))
    (run (cached_then_slow ++ [TimerFires])
       (mount (allCallbacks false None) hello))
  = Some ([SuggestionShown (mkSuggestionInfo "s-0" 1000 0 "world" "hello ");
           SuggestionRejected "s-0" 1000 IMPLICIT;
           SuggestionShown (mkSuggestionInfo "s-1" 2001 1 "world" "hello ")],
          [("hello ", 1)], []).
Proof. reflexivity. Qed.

(** C7, amended.  When the text before the caret has an entry in the cache,
    [showSuggestionAtCaret] finishes without suspending: [props.getSuggestion]
    is not called and no abort controller is created.  Every notification the
    run emits is an [onSuggestionShown] for the cached text, and its latency
    is the difference of the two clock reads made before and after the cache
    lookup, that is what the clock moved by during the lookup: 0 only when
    the clock stood still.  With the caret at a collapsed position inside the
    textbox the cached text is displayed as the one suggestion and, when the
    callback is supplied, reported by exactly one such notification. *)
Theorem cache_hit_skips_provider (g : GetSuggestionFn) (st : State)
    (L v : string) :
  cache_ok (suggestionCache st) ->
  getTextUptilCaretInElement (surface st) = Normal L ->
  lru_find L (suggestionCache st) = Some v ->
  providerCalls (snd (showSuggestionAtCaret g st)) = providerCalls st
  /\ controllers (snd (showSuggestionAtCaret g st)) = controllers st
  /\ (forall frame, fst (showSuggestionAtCaret g st) <> Normal (Some frame))
  /\ (exists tail,
        notifications (snd (showSuggestionAtCaret g st)) = notifications st ++ tail
        /\ forall n, In n tail ->
             exists info, n = SuggestionShown info
                          /\ latency info = lookupTime st
                          /\ suggestionText info = v
                          /\ leadingText info = L)
  /\ (forall range,
        getCaretAsRange (surface st) = Normal (Some range) ->
        insideTextbox range = true ->
        suggestionElements (surface (snd (showSuggestionAtCaret g st)))
        = [generateSuggestionElement v (uuid_string (uuids st))]
        /\ (has_onSuggestionShown (props st) = true ->
            exists info,
              notifications (snd (showSuggestionAtCaret g st))
              = notifications st ++ [SuggestionShown info]
              /\ info_id info = uuid_string (uuids st)
              /\ latency info = lookupTime st
              /\ suggestionText info = v
              /\ leadingText info = L)).
Proof.
  intros Hok Hget Hfind.
  rewrite (showSuggestionAtCaret_hit g st Hget Hfind (cache_ok_find Hok _ Hfind)).
  set (s := set_now (now st + lookupTime st)
              (set_suggestionCache ((L, v) :: lru_remove L (suggestionCache st))
                 (cleared st))).
  assert (Hlat : (now s - now st = lookupTime st)%Z) by (simpl; lia).
  assert (Hshown : forall range,
             getCaretAsRange (surface st) = Normal (Some range) ->
             insideTextbox range = true ->
             showSuggestionAtCaret_display L (now st) v s
             = (Normal tt, shown L (now st) v s)).
  { intros range Hrange Hin.
    apply (@showSuggestionAtCaret_display_shown _ _ _ _ range);
      [exact Hrange | exact Hin | exact Hget]. }
  destruct (showSuggestionAtCaret_display_cases L (now st) v s)
    as [(range & Hrange & Hin & _ & Heq) | [(Hget' & Heq) | [(_ & Heq) | (e & _ & Heq)]]].
  - rewrite Heq. unfold shown.
    change (props s) with (props st). change (uuids s) with (uuids st).
    change (notifications s) with (notifications st).
    destruct (has_onSuggestionShown (props st)) eqn:Hcb; cbn [fst snd].
    + split; [reflexivity|]. split; [reflexivity|].
      split; [discriminate|]. split.
      * eexists. split; [reflexivity|].
        intros n [<- | []]. eexists. split; [reflexivity|].
        cbn [latency suggestionText leadingText]. auto.
      * intros range' _ _. split; [reflexivity|].
        intros _. eexists. split; [reflexivity|].
        cbn [info_id latency suggestionText leadingText]. auto.
    + split; [reflexivity|]. split; [reflexivity|].
      split; [discriminate|]. split.
      * exists []. rewrite app_nil_r. split; [reflexivity | intros n []].
      * intros range' _ _. split; [reflexivity | discriminate].
  - rewrite Heq. cbn [fst snd].
    split; [reflexivity|]. split; [reflexivity|]. split; [discriminate|]. split.
    + exists []. rewrite app_nil_r. split; [reflexivity | intros n []].
    + intros range Hrange Hin. exfalso.
      rewrite (Hshown range Hrange Hin) in Heq.
      apply (f_equal (fun x => length (suggestionElements (surface (snd x)))))
        in Heq.
      unfold shown in Heq.
      destruct (has_onSuggestionShown (props s)); simpl in Heq; lia.
  - rewrite Heq. cbn [fst snd].
    split; [reflexivity|]. split; [reflexivity|]. split; [discriminate|]. split.
    + exists []. rewrite app_nil_r. split; [reflexivity | intros n []].
    + intros range Hrange Hin. exfalso.
      rewrite (Hshown range Hrange Hin) in Heq.
      apply (f_equal (fun x => length (suggestionElements (surface (snd x)))))
        in Heq.
      unfold shown in Heq.
      destruct (has_onSuggestionShown (props s)); simpl in Heq; lia.
  - rewrite Heq. cbn [fst snd].
    split; [reflexivity|]. split; [reflexivity|]. split; [discriminate|]. split.
    + exists []. rewrite app_nil_r. split; [reflexivity | intros n []].
    + intros range Hrange Hin. exfalso.
      rewrite (Hshown range Hrange Hin) in Heq. discriminate.
Qed.

Lemma cache_hit_skips_provider_witness :
  cache_ok (suggestionCache (set_lookupTime 1 displaying))
  /\ providerCalls (snd (showSuggestionAtCaret FromProps (set_lookupTime 1 displaying)))
     = providerCalls displaying
  /\ exists info,
       notifications (snd (showSuggestionAtCaret FromProps (set_lookupTime 1 displaying)))
       = notifications displaying ++ [SuggestionShown info]
       /\ latency info = 1%Z.
Proof.
  assert (Hok : cache_ok (suggestionCache (set_lookupTime 1 displaying))).
  { repeat constructor. discriminate. }
  destruct (@cache_hit_skips_provider FromProps (set_lookupTime 1 displaying)
              "hello " "world" Hok eq_refl eq_refl)
    as (Hcalls & _ & _ & _ & Hshown).
  split; [exact Hok|]. split; [exact Hcalls|].
  destruct (Hshown (mkAnchor true 6 6 true IsTextbox true false)
              eq_refl eq_refl) as (_ & Hnote).
  destruct (Hnote eq_refl) as (info & Hlog & _ & Hlat & _).
  exists info. split; [exact Hlog | exact Hlat].
Defined.

(** With a clock that stands still during the lookup the cached "world" is
    displayed again for "hello " with latency 0, and still the single call of
    the provider that filled the cache. *)
Example cache_hit_shows_with_latency_0 :
  notifications (timer_task displaying)
  = notifications displaying
    ++ [SuggestionShown (mkSuggestionInfo "s-1" 1000 0 "world" "hello ")]
  /\ providerCalls (timer_task displaying) = [("hello ", 1)]
  /\ awaiting (timer_task displaying) = [].
Proof. repeat split. Qed.

(* ------------------------------------------------------------------------- *)
(** ** C8: staleness *)

(** C8. When the fetch issued for the leading text L resolves while the text
    before the caret is no longer L (or cannot be read), the textbox is left
    as it is and no callback is invoked: no suggestion is displayed and
    [onSuggestionShown] does not fire, whatever text the fetch resolved to.
    The comparison is made after the await, on the text read at that moment;
    a non-empty result has by then been written to the cache under L. *)
Theorem stale_result_not_displayed (st : State) (frame : Awaiting) (T : string) :
  getTextUptilCaretInElement (surface st) <> Normal (aw_textUptilCaret frame) ->
  surface (settle_task frame (Resolves T) st) = surface st
  /\ notifications (settle_task frame (Resolves T) st) = notifications st
  /\ (T <> "" ->
      suggestionCache (settle_task frame (Resolves T) st)
      = lru_set (aw_textUptilCaret frame) T (suggestionCache st)).
Proof.
  intros Hstale.
  destruct (String.eqb_spec T "") as [->|HT].
  { repeat split. intros H. exfalso. apply H. reflexivity. }
  unfold settle_task, showSuggestionAtCaret_resume.
  rewrite (truthy_Some HT). cbn [negb].
  unfold showSuggestionAtCaret_display. unfold_monad. simpl.
  destruct (getTextUptilCaretInElement (surface st)) as [L'|e] eqn:Hget.
  - destruct (String.eqb_spec (aw_textUptilCaret frame) L') as [Heq|Hne].
    + exfalso. apply Hstale. rewrite Heq. reflexivity.
    + simpl. auto.
  - simpl. auto.
Qed.

(** The caret moved from behind "hello " to behind "hello w" while the fetch
    for "hello " was pending. *)
Lemma stale_result_not_displayed_witness :
  surface
    (settle_task (mkAwaiting "hello " 1000 1) (Resolves "world")
       (set_surface (mkSurface (Some (caretAtEnd 7)) ["hello w"] [] "") fetching))
  = mkSurface (Some (caretAtEnd 7)) ["hello w"] [] ""
  /\ notifications
       (settle_task (mkAwaiting "hello " 1000 1) (Resolves "world")
          (set_surface (mkSurface (Some (caretAtEnd 7)) ["hello w"] [] "") fetching))
     = [].
Proof.
  assert (Hstale :
            getTextUptilCaretInElement
              (surface
                 (set_surface (mkSurface (Some (caretAtEnd 7)) ["hello w"] [] "")
                    fetching))
            <> Normal (aw_textUptilCaret (mkAwaiting "hello " 1000 1))).
  { vm_compute. discriminate. }
  destruct (@stale_result_not_displayed
              (set_surface (mkSurface (Some (caretAtEnd 7)) ["hello w"] [] "")
                 fetching)
              (mkAwaiting "hello " 1000 1) "world" Hstale) as (Hsurf & Hnot & _).
  split; [exact Hsurf | exact Hnot].
Defined.

(** Had the caret stayed, the same result would have been displayed. *)
Example fresh_result_displayed :
  suggestionElements
    (surface (settle_task (mkAwaiting "hello " 1000 1) (Resolves "world") fetching))
  = [mkSuggestionElement "s-0" "world"].
Proof. reflexivity. Qed.

(* ------------------------------------------------------------------------- *)
(** ** C9: the caret-text extraction *)

(** Behind its three guards ([window.getSelection()] null, a selection that
    is not collapsed, [range.setStart] raising) the function completes with
    the empty string. *)
Lemma getTextUptilCaretInElement_guarded (w : Surface) :
  selection w = None
  \/ (exists sel, selection w = Some sel /\ isCollapsed sel = false)
  \/ (exists sel range,
        selection w = Some sel /\ isCollapsed sel = true
        /\ anchor sel = Some range /\ setStartThrows range = true) ->
  getTextUptilCaretInElement w = Normal "".
Proof.
  unfold getTextUptilCaretInElement, getCaretAsRange.
  intros [Hnone | [(sel & Hsel & Hrange) | (sel & range & Hsel & Hcoll & Hanchor & Hthrows)]].
  - rewrite Hnone. reflexivity.
  - rewrite Hsel, Hrange. reflexivity.
  - rewrite Hsel, Hcoll, Hanchor. simpl. rewrite Hthrows. reflexivity.
Qed.

(** The one way the function raises: a collapsed selection without a range,
    on which [getRangeAt(0)] is called outside the [try] block. *)
Lemma getTextUptilCaretInElement_throws_iff (w : Surface) (e : Error) :
  getTextUptilCaretInElement w = Throw e <->
  e = IndexSizeError
  /\ exists sel, selection w = Some sel /\ isCollapsed sel = true
                 /\ anchor sel = None.
Proof.
  unfold getTextUptilCaretInElement, getCaretAsRange.
  destruct (selection w) as [sel|].
  2:{ split; [discriminate | intros (_ & sel & H & _); discriminate]. }
  destruct (isCollapsed sel) eqn:Hcoll; simpl.
  2:{ split; [discriminate|].
      intros (_ & sel' & H & Hc & _). injection H as <-. congruence. }
  destruct (anchor sel) as [range|] eqn:Hanchor.
  - split.
    + destruct (setStartThrows range); discriminate.
    + intros (_ & sel' & H & _ & Ha). injection H as <-. congruence.
  - split.
    + intros H. injection H as <-. split; [reflexivity|]. exists sel. auto.
    + intros (-> & _). reflexivity.
Qed.

(** C9.  While nothing is selected in the document no selection exists for
    the caret-text extraction to resolve, and it throws: [getCaretAsRange]
    tests [isCollapsed], which is true of a selection without a range, and
    then calls [getRangeAt(0)], whose [IndexSizeError] is raised before the
    [try] block of [getTextUptilCaretInElement] is entered. *)
Theorem getTextUptilCaretInElement_throws_without_range :
  caretUnresolved nothing_selected
  /\ getCaretAsRange nothing_selected = Throw IndexSizeError
  /\ getTextUptilCaretInElement nothing_selected = Throw IndexSizeError.
Proof.
  split; [|split; reflexivity].
  right. left. exists (mkSelection true None). split; reflexivity.
Qed.

(** The error leaves the component: the selection is emptied while the
    debounce timer is live, and the timer callback ends in an unhandled
    rejection. *)
Example timer_callback_without_range :
  option_map escaped
    (run [Select; Tick 1000; Edit (Some (mkSelection true None)) ["hello "] "";
          TimerFires]
       (mount (allCallbacks false None) hello))
  = Some [IndexSizeError].
Proof. reflexivity. Qed.

(** The selection object missing altogether is one of the guarded cases. *)
Example getTextUptilCaretInElement_no_selection :
  getTextUptilCaretInElement (mkSurface None ["hello "] [] "") = Normal "".
Proof. reflexivity. Qed.

(** The other two guarded cases, on concrete surfaces. *)
Example getTextUptilCaretInElement_range_selected :
  getTextUptilCaretInElement
    (mkSurface (Some (mkSelection false
                        (Some (mkAnchor true 6 2 true IsTextbox true false))))
       ["he"] [] "llo ") = Normal "".
Proof. reflexivity. Qed.

Example getTextUptilCaretInElement_setStart_raises :
  getTextUptilCaretInElement
    (mkSurface (Some (mkSelection true
                        (Some (mkAnchor true 6 6 true IsTextbox false true))))
       ["hello "] [] "") = Normal "".
Proof. reflexivity. Qed.

(** With a resolvable caret the text comes back with nbsp normalised. *)
Example getTextUptilCaretInElement_hello :
  getTextUptilCaretInElement hello = Normal "hello ".
Proof. reflexivity. Qed.

(* ------------------------------------------------------------------------- *)
(** ** C10: the debounce delay *)

Lemma DEBOUNCE_TIME_nonzero (p : Props) : DEBOUNCE_TIME p <> 0%Z.
Proof.
  unfold DEBOUNCE_TIME. destruct (debounceTime p) as [[| |]|]; discriminate.
Qed.

Lemma handleSelection_timer (st : State) :
  disableAutocomplete (props st) = false ->
  disableSelectionEvent st = false ->
  timer (run_task handleSelection st) = None
  \/ timer (run_task handleSelection st)
     = Some (mkTimer (DEBOUNCE_TIME (props st)) (now st)).
Proof.
  intros Hen Hskip. unfold handleSelection. unfold_monad.
  rewrite Hen, Hskip. rewrite removeSuggestionIfDisplayed_eq. simpl.
  destruct (selection (surface st)) as [sel|]; simpl; [|left; reflexivity].
  destruct (isCollapsed sel); simpl; [|left; reflexivity].
  destruct (isCaretAtLineEnd sel) as [[|]|e]; simpl; auto.
Qed.

(** C10. With [debounceTime] 0 or missing, the delay is the default 1000 ms:
    [DEBOUNCE_TIME] is 1000, every timeout that [handleSelection] creates
    waits 1000 ms, and no value of the prop yields a delay of 0. *)
Theorem falsy_debounceTime_defaults_to_1000 (st : State) :
  falsy_debounceTime (props st) ->
  disableAutocomplete (props st) = false ->
  disableSelectionEvent st = false ->
  DEBOUNCE_TIME (props st) = 1000%Z
  /\ (forall t, timer (run_task handleSelection st) = Some t -> delay t = 1000%Z)
  /\ (forall p, DEBOUNCE_TIME p <> 0%Z).
Proof.
  intros Hfalsy Hen Hskip.
  assert (Hd : DEBOUNCE_TIME (props st) = 1000%Z).
  { unfold DEBOUNCE_TIME. destruct Hfalsy as [-> | ->]; reflexivity. }
  split; [exact Hd|]. split; [|exact DEBOUNCE_TIME_nonzero].
  intros t Ht.
  destruct (handleSelection_timer st Hen Hskip) as [H | H];
    rewrite H in Ht; [discriminate|].
  injection Ht as <-. exact Hd.
Qed.

Lemma falsy_debounceTime_defaults_to_1000_witness :
  falsy_debounceTime (allCallbacks false (Some 0%Z))
  /\ DEBOUNCE_TIME (allCallbacks false (Some 0%Z)) = 1000%Z
  /\ (forall t,
        timer (run_task handleSelection
                 (mount (allCallbacks false (Some 0%Z)) hello)) = Some t ->
        delay t = 1000%Z).
Proof.
  assert (H : falsy_debounceTime
                (props (mount (allCallbacks false (Some 0%Z)) hello)))
    by (right; reflexivity).
  destruct (@falsy_debounceTime_defaults_to_1000
              (mount (allCallbacks false (Some 0%Z)) hello) H eq_refl eq_refl)
    as (Hd & Ht & _).
  split; [exact H|]. split; [exact Hd | exact Ht].
Defined.

(** The timeout is really created on the sample surface. *)
Example handleSelection_arms_1000 :
  timer (run_task handleSelection (mount (allCallbacks false (Some 0%Z)) hello))
  = Some (mkTimer 1000 0).
Proof. reflexivity. Qed.

(* ------------------------------------------------------------------------- *)
(** * Further properties of the component *)

(* ------------------------------------------------------------------------- *)
(** ** Strings *)

Lemma string_app_empty_r (s : string) : (s ++ "")%string = s.
Proof. induction s as [|c s IH]; simpl; [reflexivity | rewrite IH; reflexivity]. Qed.

Lemma string_app_assoc (a b c : string) :
  ((a ++ b) ++ c)%string = (a ++ (b ++ c))%string.
Proof. induction a as [|x a IH]; simpl; [reflexivity | rewrite IH; reflexivity]. Qed.

Lemma concat_cons (x : string) (l : list string) :
  String.concat "" (x :: l) = (x ++ String.concat "" l)%string.
Proof.
  destruct l as [|y l]; simpl; [rewrite string_app_empty_r|]; reflexivity.
Qed.

Lemma concat_app_last (l : list string) (t : string) :
  String.concat "" (l ++ [t]) = (String.concat "" l ++ t)%string.
Proof.
  induction l as [|x l IH]; [reflexivity|].
  change ((x :: l) ++ [t]) with (x :: (l ++ [t])).
  rewrite !concat_cons, IH, string_app_assoc. reflexivity.
Qed.

Lemma replace_nbsp_app (a b : string) :
  replace_nbsp (a ++ b) = (replace_nbsp a ++ replace_nbsp b)%string.
Proof. induction a as [|c a IH]; simpl; [reflexivity | rewrite IH; reflexivity]. Qed.

Lemma replace_nbsp_idempotent (s : string) :
  replace_nbsp (replace_nbsp s) = replace_nbsp s.
Proof.
  induction s as [|c s IH]; simpl; [reflexivity|]. rewrite IH.
  destruct (Ascii.eqb c nbsp) eqn:Hc; [reflexivity|]. rewrite Hc. reflexivity.
Qed.

Lemma replace_nbsp_replacePrevNbsp (l : list string) :
  replace_nbsp (String.concat "" (replacePrevNbsp l))
  = replace_nbsp (String.concat "" l).
Proof.
  induction l as [|x l IH]; [reflexivity|].
  destruct l as [|y l].
  - simpl. apply replace_nbsp_idempotent.
  - change (replacePrevNbsp (x :: y :: l)) with (x :: replacePrevNbsp (y :: l)).
    rewrite (concat_cons x (replacePrevNbsp (y :: l))), (concat_cons x (y :: l)).
    rewrite !replace_nbsp_app, IH. reflexivity.
Qed.

Lemma replace_nbsp_no_nbsp (s : string) :
  ~ In nbsp (list_ascii_of_string (replace_nbsp s)).
Proof.
  induction s as [|c s IH]; simpl; [tauto|].
  intros [Hc | Hin]; [|exact (IH Hin)].
  destruct (Ascii.eqb c nbsp) eqn:Hcn.
  - discriminate.
  - apply Ascii.eqb_neq in Hcn. exact (Hcn Hc).
Qed.

Lemma replace_nbsp_length (s : string) :
  String.length (replace_nbsp s) = String.length s.
Proof. induction s as [|c s IH]; simpl; [reflexivity | rewrite IH; reflexivity]. Qed.

Lemma prefix_split (d s : string) :
  String.prefix d s = true ->
  s = (d ++ substring_from (String.length d) s)%string.
Proof.
  revert s. induction d as [|c d IH]; intros s Hp.
  - unfold substring_from. simpl. rewrite Nat.sub_0_r.
    clear Hp. induction s as [|x s IHs]; simpl; [reflexivity|].
    rewrite <- IHs. reflexivity.
  - destruct s as [|x s]; simpl in Hp; [discriminate|].
    destruct (Ascii.ascii_dec c x) as [->|Hne]; [|discriminate].
    simpl. unfold substring_from in *. simpl.
    rewrite <- (IH s Hp). reflexivity.
Qed.

Lemma prefix_refl (s : string) : String.prefix s s = true.
Proof.
  induction s as [|c s IH]; simpl; [reflexivity|].
  destruct (Ascii.ascii_dec c c); [exact IH | congruence].
Qed.

Lemma substring_from_all (s : string) :
  substring_from (String.length s) s = "".
Proof.
  unfold substring_from. rewrite Nat.sub_diag.
  induction s as [|c s IH]; simpl; [reflexivity | exact IH].
Qed.

Lemma string_app_length (a b : string) :
  String.length (a ++ b) = String.length a + String.length b.
Proof. induction a as [|c a IH]; simpl; [reflexivity | rewrite IH; reflexivity]. Qed.

Lemma string_app_neq (a b : string) : b <> "" -> (a ++ b)%string <> a.
Proof.
  intros Hb Heq. apply (f_equal String.length) in Heq.
  rewrite string_app_length in Heq.
  destruct b as [|c b]; [congruence | simpl in Heq; lia].
Qed.

Lemma replace_nbsp_nonempty (s : string) : s <> "" -> replace_nbsp s <> "".
Proof. destruct s; [congruence | discriminate]. Qed.

Lemma list_ascii_app (a b : string) :
  list_ascii_of_string (a ++ b)
  = list_ascii_of_string a ++ list_ascii_of_string b.
Proof. induction a as [|c a IH]; simpl; [reflexivity | rewrite IH; reflexivity]. Qed.

(* ------------------------------------------------------------------------- *)
(** ** What the HTML parser does to a text *)

#[local] Arguments parsedText : simpl never.
#[local] Arguments generateSuggestionElement : simpl never.

Lemma normalizeNewlines_no_CR (s : string) :
  ~ In CR (list_ascii_of_string s) -> normalizeNewlines false s = s.
Proof.
  induction s as [|c s IH]; intros Hcr; [reflexivity|].
  simpl in *.
  destruct (Ascii.eqb_spec c CR) as [->|Hc]; [exfalso; apply Hcr; auto|].
  rewrite IH by tauto.
  destruct (Ascii.eqb_spec c LF) as [->|Hl]; reflexivity.
Qed.

Lemma dropNUL_no_NUL (s : string) :
  ~ In NUL (list_ascii_of_string s) -> dropNUL s = s.
Proof.
  induction s as [|c s IH]; intros Hnul; [reflexivity|].
  simpl in *.
  destruct (Ascii.eqb_spec c NUL) as [->|Hc]; [exfalso; apply Hnul; auto|].
  rewrite IH by tauto. reflexivity.
Qed.

(** The HTML parser leaves a text without U+0000 and CR as it is. *)
Lemma parsedText_plain (s : string) : plainText s -> parsedText s = s.
Proof.
  intros (Hnul & Hcr). unfold parsedText.
  rewrite (normalizeNewlines_no_CR _ Hcr). apply dropNUL_no_NUL, Hnul.
Qed.

Lemma dropNUL_In (c : ascii) (s : string) :
  In c (list_ascii_of_string (dropNUL s)) ->
  In c (list_ascii_of_string s) /\ c <> NUL.
Proof.
  induction s as [|x s IH]; simpl; [tauto|].
  destruct (Ascii.eqb_spec x NUL) as [->|Hx].
  - intros H. destruct (IH H). auto.
  - simpl. intros [<- | H]; [auto|]. destruct (IH H). auto.
Qed.

Lemma normalizeNewlines_CR_free (s : string) : forall b,
  ~ In CR (list_ascii_of_string (normalizeNewlines b s)).
Proof.
  assert (Hlf : LF <> CR) by (intros H; vm_compute in H; discriminate).
  induction s as [|c s IH]; intros b; simpl; [tauto|].
  destruct (Ascii.eqb_spec c CR) as [->|Hc].
  - simpl. intros [H | H]; [exact (Hlf H) | exact (IH _ H)].
  - destruct (Ascii.eqb_spec c LF) as [->|Hl].
    + destruct b; [apply IH|].
      simpl. intros [H | H]; [exact (Hlf H) | exact (IH _ H)].
    + simpl. intros [H | H]; [exact (Hc H) | exact (IH _ H)].
Qed.

(** What the parser hands back holds neither U+0000 nor CR. *)
Lemma parsedText_is_plain (s : string) : plainText (parsedText s).
Proof.
  unfold plainText, parsedText. split.
  - intros H. apply dropNUL_In in H. destruct H as (_ & H). apply H. reflexivity.
  - intros H. apply dropNUL_In in H. destruct H as (H & _).
    exact (normalizeNewlines_CR_free _ _ H).
Qed.

Lemma plainText_app_r (a b : string) : plainText (a ++ b) -> plainText b.
Proof.
  unfold plainText. rewrite list_ascii_app. intros (Hn & Hc).
  split; intros H; [apply Hn | apply Hc]; apply in_or_app; right; exact H.
Qed.

Lemma parsedText_nonempty (s : string) : parsedText s <> "" -> s <> "".
Proof. intros H ->. apply H. reflexivity. Qed.

(** The parser reduces a text to nothing exactly when it is made of U+0000
    only. *)
Lemma parsedText_empty_iff (s : string) :
  parsedText s = "" <-> Forall (fun c => c = NUL) (list_ascii_of_string s).
Proof.
  unfold parsedText.
  assert (Hlf : LF <> NUL) by (intros H; vm_compute in H; discriminate).
  assert (Hcr : CR <> NUL) by (intros H; vm_compute in H; discriminate).
  induction s as [|c s IH]; simpl; [split; [constructor | reflexivity]|].
  destruct (Ascii.eqb_spec c CR) as [->|Hc].
  { simpl. destruct (Ascii.eqb_spec LF NUL) as [H|_]; [exfalso; exact (Hlf H)|].
    split; [discriminate|]. intros H. inversion H; subst. congruence. }
  destruct (Ascii.eqb_spec c LF) as [->|Hl].
  { simpl. destruct (Ascii.eqb_spec LF NUL) as [H|_]; [exfalso; exact (Hlf H)|].
    split; [discriminate|]. intros H. inversion H; subst. congruence. }
  simpl. destruct (Ascii.eqb_spec c NUL) as [->|Hn].
  - rewrite IH. split; [intros H; constructor; [reflexivity | exact H]|].
    intros H. inversion H; assumption.
  - split; [discriminate|]. intros H. inversion H; subst. congruence.
Qed.

(* ------------------------------------------------------------------------- *)
(** ** Key presses *)

(** X1. Escape with autocomplete enabled removes every displayed suggestion
    and reports each as a rejection with the reason [EXPLICIT]; it touches
    neither the committed text, the timer, the abort controllers, the
    suspended runs nor the cache. *)
Theorem escape_rejects_explicitly (st : State) :
  disableAutocomplete (props st) = false ->
  suggestionElements (surface (run_task (handleKeyDown "Escape") st)) = []
  /\ notifications (run_task (handleKeyDown "Escape") st)
     = notifications st
       ++ rejections (props st) EXPLICIT (now st)
            (suggestionElements (surface st))
  /\ before (surface (run_task (handleKeyDown "Escape") st)) = before (surface st)
  /\ timer (run_task (handleKeyDown "Escape") st) = timer st
  /\ controllers (run_task (handleKeyDown "Escape") st) = controllers st
  /\ awaiting (run_task (handleKeyDown "Escape") st) = awaiting st
  /\ suggestionCache (run_task (handleKeyDown "Escape") st) = suggestionCache st.
Proof.
  intros Hen.
  assert (Heq : run_task (handleKeyDown "Escape") st
                = removed EXPLICIT (prevented "Escape" st)).
  { unfold run_task. rewrite handleKeyDown_eq, Hen. reflexivity. }
  rewrite Heq. repeat split.
Qed.

Lemma escape_rejects_explicitly_witness :
  suggestionElements (surface (run_task (handleKeyDown "Escape") displaying)) = []
  /\ notifications (run_task (handleKeyDown "Escape") displaying)
     = notifications displaying ++ [SuggestionRejected "s-0" 1000 EXPLICIT].
Proof.
  destruct (@escape_rejects_explicitly displaying eq_refl) as (Hels & Hnot & _).
  split; [exact Hels | exact Hnot].
Defined.

(** X2. With no suggestion displayed a key press removes, inserts and
    reports nothing, whatever the key.  All it does, with autocomplete
    enabled, is to prevent the default action of Escape and of Tab: Tab does
    not move the focus out of the textbox even when there is nothing to
    accept. *)
Theorem keydown_without_suggestion_only_prevents_default (key : string)
    (st : State) :
  suggestionElements (surface st) = [] ->
  run_task (handleKeyDown key) st
  = if negb (disableAutocomplete (props st))
       && (String.eqb key "Escape" || String.eqb key "Tab")
    then set_defaultPrevented (defaultPrevented st ++ [key]) st
    else st.
Proof.
  intros Hels. unfold run_task. rewrite handleKeyDown_eq, Hels.
  destruct (disableAutocomplete (props st)); [reflexivity|].
  destruct (String.eqb key "Escape"); cbn [negb andb orb].
  { rewrite removed_nothing by exact Hels. reflexivity. }
  destruct (String.eqb key "Tab"); reflexivity.
Qed.

Lemma keydown_without_suggestion_only_prevents_default_witness :
  run_task (handleKeyDown "Tab") fetching
  = set_defaultPrevented ["Tab"] fetching
  /\ run_task (handleKeyDown "Escape") fetching
     = set_defaultPrevented ["Escape"] fetching
  /\ run_task (handleKeyDown "a") fetching = fetching.
Proof.
  split; [|split].
  - exact (@keydown_without_suggestion_only_prevents_default "Tab" fetching
             eq_refl).
  - exact (@keydown_without_suggestion_only_prevents_default "Escape" fetching
             eq_refl).
  - exact (@keydown_without_suggestion_only_prevents_default "a" fetching
             eq_refl).
Defined.

(** [handleKeyDown] for Tab with a suggestion displayed. *)
Lemma handleKeyDown_Tab st e rest :
  disableAutocomplete (props st) = false ->
  suggestionElements (surface st) = e :: rest ->
  textContent e <> "" ->
  handleKeyDown "Tab" st
  = match getCaretAsRange (surface st) with
    | Throw err => (Throw err, cleared (prevented "Tab" st))
    | Normal None => (Normal tt, cleared (prevented "Tab" st))
    | Normal (Some range) =>
        if insideTextbox range then
          let st1 :=
            set_surface (textInserted range (textContent e) (surface (cleared st)))
              (prevented "Tab" st) in
          (Normal tt,
           set_notifications
             (notifications st ++ acceptance (props st) e (now st)
                ++ contentReport (props st) (surface st1))
             st1)
        else (Normal tt, cleared (prevented "Tab" st))
    end.
Proof.
  intros Hen Hels Htext. rewrite handleKeyDown_eq, Hen, Hels.
  change (String.eqb "Tab" "Escape") with false.
  change (String.eqb "Tab" "Tab") with true. cbv beta iota.
  rewrite (truthy_Some Htext). reflexivity.
Qed.

(** X3. Tab with a suggestion displayed and the caret inside the textbox: the
    suggestion elements are removed without any rejection, the text of the
    first one becomes a text node before the caret, [onSuggestionAccepted] is
    called once with its id, and [onContentChange] reports the content that
    now holds the text and no suggestion. *)
Theorem tab_accepts_suggestion (st : State) (e : SuggestionElement)
    (rest : list SuggestionElement) (range : Anchor) :
  disableAutocomplete (props st) = false ->
  suggestionElements (surface st) = e :: rest ->
  textContent e <> "" ->
  getCaretAsRange (surface st) = Normal (Some range) ->
  insideTextbox range = true ->
  suggestionElements (surface (run_task (handleKeyDown "Tab") st)) = []
  /\ before (surface (run_task (handleKeyDown "Tab") st))
     = (if isTextNode range then replacePrevNbsp (before (surface st))
        else before (surface st)) ++ [textContent e]
  /\ notifications (run_task (handleKeyDown "Tab") st)
     = notifications st
       ++ acceptance (props st) e (now st)
       ++ contentReport (props st) (surface (run_task (handleKeyDown "Tab") st))
  /\ escaped (run_task (handleKeyDown "Tab") st) = escaped st
  /\ suggestionCache (run_task (handleKeyDown "Tab") st) = suggestionCache st.
Proof.
  intros Hen Hels Htext Hrange Hin.
  unfold run_task. rewrite (handleKeyDown_Tab st Hen Hels Htext), Hrange, Hin.
  cbv zeta. repeat split.
Qed.

Lemma tab_accepts_suggestion_witness :
  suggestionElements (surface (run_task (handleKeyDown "Tab") displaying)) = []
  /\ before (surface (run_task (handleKeyDown "Tab") displaying))
     = ["hello "; "world"]
  /\ notifications (run_task (handleKeyDown "Tab") displaying)
     = notifications displaying
       ++ [SuggestionAccepted "s-0" 1000; ContentChange "hello world"].
Proof.
  destruct (@tab_accepts_suggestion displaying
              (mkSuggestionElement "s-0" "world") []
              (mkAnchor true 6 6 true IsTextbox true false))
    as (Hels & Hbefore & Hnot & _).
  - reflexivity.
  - reflexivity.
  - discriminate.
  - reflexivity.
  - reflexivity.
  - split; [exact Hels|]. split; [exact Hbefore | exact Hnot].
Defined.

(** X4. Tab with a suggestion displayed but no collapsed caret inside the
    textbox: the suggestion elements have already been removed when the
    insertion fails, so the suggestion disappears and nothing is reported,
    neither as accepted nor as rejected. *)
Theorem tab_without_caret_drops_suggestion (st : State) (e : SuggestionElement)
    (rest : list SuggestionElement) :
  disableAutocomplete (props st) = false ->
  suggestionElements (surface st) = e :: rest ->
  textContent e <> "" ->
  (getCaretAsRange (surface st) = Normal None
   \/ exists range, getCaretAsRange (surface st) = Normal (Some range)
                    /\ insideTextbox range = false) ->
  suggestionElements (surface (run_task (handleKeyDown "Tab") st)) = []
  /\ before (surface (run_task (handleKeyDown "Tab") st)) = before (surface st)
  /\ notifications (run_task (handleKeyDown "Tab") st) = notifications st
  /\ escaped (run_task (handleKeyDown "Tab") st) = escaped st.
Proof.
  intros Hen Hels Htext Hcaret.
  unfold run_task. rewrite (handleKeyDown_Tab st Hen Hels Htext).
  destruct Hcaret as [-> | (range & -> & ->)]; repeat split.
Qed.

Lemma tab_without_caret_drops_suggestion_witness :
  suggestionElements
    (surface (run_task (handleKeyDown "Tab")
                (set_surface (mkSurface None ["hello "]
                                [mkSuggestionElement "s-0" "world"] "")
                   displaying))) = []
  /\ notifications
       (run_task (handleKeyDown "Tab")
          (set_surface (mkSurface None ["hello "]
                          [mkSuggestionElement "s-0" "world"] "")
             displaying))
     = notifications displaying.
Proof.
  destruct (@tab_without_caret_drops_suggestion
              (set_surface (mkSurface None ["hello "]
                              [mkSuggestionElement "s-0" "world"] "")
                 displaying)
              (mkSuggestionElement "s-0" "world") [])
    as (Hels & _ & Hnot & _).
  - reflexivity.
  - reflexivity.
  - discriminate.
  - left. reflexivity.
  - split; [exact Hels | exact Hnot].
Defined.

(** X11. Tab with a suggestion displayed while nothing is selected in the
    document (a collapsed selection without a range): the suggestion elements
    have been removed when [getRangeAt(0)] raises inside [insertNodeAtCaret],
    so the suggestion is lost without being reported as accepted or
    rejected, nothing is inserted, and the [IndexSizeError] leaves the
    handler. *)
Theorem tab_without_range_loses_suggestion (st : State) (e : SuggestionElement)
    (rest : list SuggestionElement) (sel : Selection) :
  disableAutocomplete (props st) = false ->
  suggestionElements (surface st) = e :: rest ->
  textContent e <> "" ->
  selection (surface st) = Some sel ->
  isCollapsed sel = true ->
  anchor sel = None ->
  fst (handleKeyDown "Tab" st) = Throw IndexSizeError
  /\ suggestionElements (surface (run_task (handleKeyDown "Tab") st)) = []
  /\ before (surface (run_task (handleKeyDown "Tab") st)) = before (surface st)
  /\ notifications (run_task (handleKeyDown "Tab") st) = notifications st
  /\ escaped (run_task (handleKeyDown "Tab") st)
     = escaped st ++ [IndexSizeError].
Proof.
  intros Hen Hels Htext Hsel Hcoll Hanchor.
  assert (Hrange : getCaretAsRange (surface st) = Throw IndexSizeError).
  { unfold getCaretAsRange. rewrite Hsel, Hcoll, Hanchor. reflexivity. }
  unfold run_task. rewrite (handleKeyDown_Tab st Hen Hels Htext), Hrange.
  repeat split.
Qed.

Lemma tab_without_range_loses_suggestion_witness :
  suggestionElements
    (surface (run_task (handleKeyDown "Tab")
                (set_surface
                   (mkSurface (Some (mkSelection true None)) ["hello "]
                      [mkSuggestionElement "s-0" "world"] "")
                   displaying))) = []
  /\ escaped
       (run_task (handleKeyDown "Tab")
          (set_surface
             (mkSurface (Some (mkSelection true None)) ["hello "]
                [mkSuggestionElement "s-0" "world"] "")
             displaying))
     = [IndexSizeError].
Proof.
  destruct (@tab_without_range_loses_suggestion
              (set_surface
                 (mkSurface (Some (mkSelection true None)) ["hello "]
                    [mkSuggestionElement "s-0" "world"] "")
                 displaying)
              (mkSuggestionElement "s-0" "world") [] (mkSelection true None))
    as (_ & Hels & _ & _ & Hesc).
  - reflexivity.
  - reflexivity.
  - discriminate.
  - reflexivity.
  - reflexivity.
  - reflexivity.
  - split; [exact Hels | exact Hesc].
Defined.

Lemma getTextUptilCaretInElement_resolved w range :
  getCaretAsRange w = Normal (Some range) ->
  setStartThrows range = false ->
  getTextUptilCaretInElement w
  = Normal (replace_nbsp (String.concat "" (before w))).
Proof.
  intros Hrange Hset. unfold getTextUptilCaretInElement.
  rewrite Hrange, Hset. reflexivity.
Qed.

Lemma handleKeyDown_Tab_leading_text st e rest range L :
  disableAutocomplete (props st) = false ->
  suggestionElements (surface st) = e :: rest ->
  textContent e <> "" ->
  getCaretAsRange (surface st) = Normal (Some range) ->
  insideTextbox range = true ->
  setStartThrows range = false ->
  getTextUptilCaretInElement (surface st) = Normal L ->
  getTextUptilCaretInElement (surface (run_task (handleKeyDown "Tab") st))
  = Normal (L ++ replace_nbsp (textContent e))%string.
Proof.
  intros Hen Hels Htext Hrange Hin Hset Hget.
  rewrite (getTextUptilCaretInElement_resolved _ Hrange Hset) in Hget.
  injection Hget as <-.
  unfold run_task. rewrite (handleKeyDown_Tab st Hen Hels Htext), Hrange, Hin.
  cbv zeta. cbn [surface set_notifications set_surface].
  rewrite (@getTextUptilCaretInElement_resolved _ (afterInsertedText range));
    [| reflexivity | exact Hset].
  f_equal. unfold textInserted. cbn [before].
  rewrite concat_app_last, replace_nbsp_app. f_equal.
  change (before (surface (cleared st))) with (before (surface st)).
  destruct (isTextNode range); [apply replace_nbsp_replacePrevNbsp | reflexivity].
Qed.

(** X5. After an accepted suggestion the text before the caret is the text
    that was before it followed by the accepted text (nbsp normalised): the
    caret ends behind what was inserted. *)
Theorem accept_extends_leading_text (st : State) (e : SuggestionElement)
    (rest : list SuggestionElement) (range : Anchor) (L : string) :
  disableAutocomplete (props st) = false ->
  suggestionElements (surface st) = e :: rest ->
  textContent e <> "" ->
  getCaretAsRange (surface st) = Normal (Some range) ->
  insideTextbox range = true ->
  setStartThrows range = false ->
  getTextUptilCaretInElement (surface st) = Normal L ->
  getTextUptilCaretInElement (surface (run_task (handleKeyDown "Tab") st))
  = Normal (L ++ replace_nbsp (textContent e))%string.
Proof. exact (@handleKeyDown_Tab_leading_text st e rest range L). Qed.

Lemma accept_extends_leading_text_witness :
  getTextUptilCaretInElement (surface (run_task (handleKeyDown "Tab") displaying))
  = Normal "hello world".
Proof.
  apply (@accept_extends_leading_text displaying
           (mkSuggestionElement "s-0" "world") []
           (mkAnchor true 6 6 true IsTextbox true false) "hello ").
  - reflexivity.
  - reflexivity.
  - discriminate.
  - reflexivity.
  - reflexivity.
  - reflexivity.
  - reflexivity.
Defined.

(* ------------------------------------------------------------------------- *)
(** ** Selection events and blur *)

(** [handleSelection] when it is neither disabled nor skipped. *)
Lemma handleSelection_eq st :
  disableAutocomplete (props st) = false ->
  disableSelectionEvent st = false ->
  handleSelection st
  = (let st1 :=
       set_controllers (abort (abortController st) (controllers st))
         (set_timer None (removed IMPLICIT st)) in
     match selection (surface st) with
     | None => (Normal tt, st1)
     | Some sel =>
         if isCollapsed sel then
           match isCaretAtLineEnd sel with
           | Normal true =>
               (Normal tt,
                set_timer (Some (mkTimer (DEBOUNCE_TIME (props st)) (now st))) st1)
           | Normal false => (Normal tt, st1)
           | Throw e => (Throw e, st1)
           end
         else (Normal tt, st1)
     end).
Proof.
  intros Hen Hskip. unfold handleSelection. unfold_monad.
  rewrite Hen, Hskip. rewrite removeSuggestionIfDisplayed_eq. simpl.
  destruct (selection (surface st)) as [sel|]; simpl; [|reflexivity].
  destruct (isCollapsed sel); simpl; [|reflexivity].
  destruct (isCaretAtLineEnd sel) as [[|]|e]; reflexivity.
Qed.

(** X6. [isCaretAtLineEnd] answers [false] exactly when there is no anchor
    node, or the anchor is a text node that has text behind the caret, or it
    is a text node nested in a line [div] whose child holding the caret has a
    next sibling with text.  It raises only for a text node, with the caret at
    its end, that is not a child of the textbox and has no enclosing [div].
    In particular a caret in a node that is not a text node is always at the
    line end. *)
Theorem isCaretAtLineEnd_false_iff (sel : Selection) :
  (isCaretAtLineEnd sel = Normal false <->
   anchor sel = None
   \/ exists a, anchor sel = Some a /\ isTextNode a = true
        /\ (anchorOffset a < textLength a
            \/ (parentIsTextbox a = false
                /\ exists t, closestDiv a = LineDiv (Some t) /\ t <> "")))
  /\ (forall e, isCaretAtLineEnd sel = Throw e <->
        e = AssertionError
        /\ exists a, anchor sel = Some a /\ isTextNode a = true
             /\ textLength a <= anchorOffset a
             /\ parentIsTextbox a = false /\ closestDiv a = NoDiv)
  /\ (forall a, anchor sel = Some a -> isTextNode a = false ->
        isCaretAtLineEnd sel = Normal true).
Proof.
  unfold isCaretAtLineEnd.
  destruct (anchor sel) as [a|].
  2:{ split; [split; [auto | reflexivity]|].
      split; [|discriminate].
      intros e. split; [discriminate|]. intros (_ & a & Ha & _). discriminate. }
  destruct (isTextNode a) eqn:Htext.
  2:{ split; [split; [discriminate|]|].
      - intros [H | (a' & Ha & Ht & _)]; [discriminate|].
        injection Ha as <-. congruence.
      - split; [|reflexivity].
        intros e. split; [discriminate|].
        intros (_ & a' & Ha & Ht & _). injection Ha as <-. congruence. }
  destruct (Nat.ltb_spec (anchorOffset a) (textLength a)) as [Hlt | Hge].
  { split; [split|].
    - intros _. right. exists a. auto.
    - reflexivity.
    - split; [|intros a' Ha; injection Ha as <-; congruence].
      intros e. split; [discriminate|].
      intros (_ & a' & Ha & _ & Hle & _). injection Ha as <-. lia. }
  destruct (parentIsTextbox a) eqn:Hparent.
  { split; [split|].
    - discriminate.
    - intros [H | (a' & Ha & _ & [Hlt | (Hp & _)])]; try discriminate;
        injection Ha as <-; [lia | congruence].
    - split; [|intros a' Ha; injection Ha as <-; congruence].
      intros e. split; [discriminate|].
      intros (_ & a' & Ha & _ & _ & Hp & _). injection Ha as <-. congruence. }
  destruct (closestDiv a) as [| |[t|]] eqn:Hdiv.
  - split; [split|].
    + discriminate.
    + intros [H | (a' & Ha & _ & [Hlt | (_ & t & Hd & _)])]; try discriminate;
        injection Ha as <-; [lia | congruence].
    + split; [|intros a' Ha; injection Ha as <-; congruence].
      intros e. split.
      * intros H. injection H as <-. split; [reflexivity|]. exists a. auto.
      * intros (-> & _). reflexivity.
  - split; [split|].
    + discriminate.
    + intros [H | (a' & Ha & _ & [Hlt | (_ & t & Hd & _)])]; try discriminate;
        injection Ha as <-; [lia | congruence].
    + split; [|intros a' Ha; injection Ha as <-; congruence].
      intros e. split; [discriminate|].
      intros (_ & a' & Ha & _ & _ & _ & Hd). injection Ha as <-. congruence.
  - split; [split|].
    + intros H. right. exists a. split; [reflexivity|]. split; [exact Htext|].
      right. split; [exact Hparent|]. exists t. split; [exact Hdiv|].
      injection H as H. apply String.eqb_neq. exact H.
    + intros [H | (a' & Ha & _ & [Hlt | (_ & t' & Hd & Hne)])]; try discriminate;
        injection Ha as <-; [lia|].
      rewrite Hdiv in Hd. injection Hd as <-.
      apply String.eqb_neq in Hne. rewrite Hne. reflexivity.
    + split; [|intros a' Ha; injection Ha as <-; congruence].
      intros e. split; [discriminate|].
      intros (_ & a' & Ha & _ & _ & _ & Hd). injection Ha as <-. congruence.
  - split; [split|].
    + discriminate.
    + intros [H | (a' & Ha & _ & [Hlt | (_ & t & Hd & _)])]; try discriminate;
        injection Ha as <-; [lia | congruence].
    + split; [|intros a' Ha; injection Ha as <-; congruence].
      intros e. split; [discriminate|].
      intros (_ & a' & Ha & _ & _ & _ & Hd). injection Ha as <-. congruence.
Qed.

Lemma same_refs_refl st : same_refs st st.
Proof. repeat split. Qed.

Lemma same_refs_trans st1 st2 st3 :
  same_refs st1 st2 -> same_refs st2 st3 -> same_refs st1 st3.
Proof.
  intros (A1 & A2 & A3 & A4 & A5) (B1 & B2 & B3 & B4 & B5).
  repeat split; congruence.
Qed.

Lemma display_same_refs L tb text st :
  same_refs st (snd (showSuggestionAtCaret_display L tb text st)).
Proof.
  destruct (showSuggestionAtCaret_display_cases L tb text st)
    as [(range & _ & _ & _ & Heq) | [(_ & Heq) | [(_ & Heq) | (e & _ & Heq)]]];
    rewrite Heq; simpl; try (repeat split; fail).
  unfold shown. destruct (has_onSuggestionShown (props st)); repeat split.
Qed.

Lemma showSuggestionAtCaret_same_refs g st :
  same_refs st (snd (showSuggestionAtCaret g st)).
Proof.
  destruct (getTextUptilCaretInElement (surface st)) as [L|e] eqn:Hget.
  - destruct (truthy_cases (lru_find L (suggestionCache st)))
      as [(v & Hfind & Hv) | Hmiss].
    + rewrite (showSuggestionAtCaret_hit g st Hget Hfind Hv).
      match goal with
      | |- context [showSuggestionAtCaret_display ?a ?b ?c ?s] =>
          pose proof (display_same_refs a b c s) as Hd;
          destruct (showSuggestionAtCaret_display a b c s) as [[u|e] st']
      end; exact Hd.
    + rewrite (showSuggestionAtCaret_miss g st Hget Hmiss).
      destruct g; repeat split.
  - rewrite (showSuggestionAtCaret_throws g st Hget). repeat split.
Qed.

Lemma resume_same_refs frame r st :
  same_refs st (snd (showSuggestionAtCaret_resume frame r st)).
Proof.
  destruct r as [text|e]; simpl; [|apply same_refs_refl].
  destruct (String.eqb text ""); simpl; [apply same_refs_refl|].
  unfold bind, modify.
  match goal with
  | |- context [showSuggestionAtCaret_display ?a ?b ?c ?s] =>
      pose proof (display_same_refs a b c s) as Hd
  end.
  exact Hd.
Qed.

(** X7. A selection event that is neither disabled nor skipped restarts the
    debounce: every displayed suggestion is removed and reported as an
    implicit rejection, the previous timeout is cleared, and a new one (armed
    now, with the debounce delay) exists afterwards exactly when the selection
    is collapsed and [isCaretAtLineEnd] answers [true]. *)
Theorem selection_restarts_debounce (st : State) :
  disableAutocomplete (props st) = false ->
  disableSelectionEvent st = false ->
  suggestionElements (surface (run_task handleSelection st)) = []
  /\ notifications (run_task handleSelection st)
     = notifications st
       ++ rejections (props st) IMPLICIT (now st)
            (suggestionElements (surface st))
  /\ (timer (run_task handleSelection st) <> None <->
      exists sel, selection (surface st) = Some sel
                  /\ isCollapsed sel = true
                  /\ isCaretAtLineEnd sel = Normal true)
  /\ (forall t, timer (run_task handleSelection st) = Some t ->
        t = mkTimer (DEBOUNCE_TIME (props st)) (now st)).
Proof.
  intros Hen Hskip. unfold run_task.
  rewrite (handleSelection_eq st Hen Hskip). cbv zeta.
  destruct (selection (surface st)) as [sel|].
  2:{ split; [reflexivity|]. split; [reflexivity|]. split; [split|].
      - intros H. exfalso. apply H. reflexivity.
      - intros (sel & Hsel & _). discriminate.
      - discriminate. }
  destruct (isCollapsed sel) eqn:Hcoll.
  2:{ split; [reflexivity|]. split; [reflexivity|]. split; [split|].
      - intros H. exfalso. apply H. reflexivity.
      - intros (sel' & Hsel & Hc & _). injection Hsel as <-. congruence.
      - discriminate. }
  destruct (isCaretAtLineEnd sel) as [[|]|e] eqn:Hend;
    (split; [reflexivity|]); (split; [reflexivity|]); (split; [split|]).
  - intros _. exists sel. auto.
  - discriminate.
  - intros t H. injection H as <-. reflexivity.
  - intros H. exfalso. apply H. reflexivity.
  - intros (sel' & Hsel & _ & He). injection Hsel as <-. congruence.
  - discriminate.
  - intros H. exfalso. apply H. reflexivity.
  - intros (sel' & Hsel & _ & He). injection Hsel as <-. congruence.
  - discriminate.
Qed.

Lemma selection_restarts_debounce_witness :
  suggestionElements (surface (run_task handleSelection displaying)) = []
  /\ notifications (run_task handleSelection displaying)
     = notifications displaying ++ [SuggestionRejected "s-0" 1000 IMPLICIT]
  /\ (forall t, timer (run_task handleSelection displaying) = Some t ->
        t = mkTimer 1000 1000).
Proof.
  destruct (@selection_restarts_debounce displaying eq_refl eq_refl)
    as (Hels & Hnot & _ & Htimer).
  split; [exact Hels|]. split; [exact Hnot | exact Htimer].
Defined.

(** X8. Line-end gating: a selection event with the caret inside a text node
    that has text behind the caret leaves no timeout behind, so no fetch can
    follow it. *)
Theorem no_debounce_mid_line (st : State) (sel : Selection) (a : Anchor) :
  disableAutocomplete (props st) = false ->
  disableSelectionEvent st = false ->
  selection (surface st) = Some sel ->
  anchor sel = Some a ->
  isTextNode a = true ->
  anchorOffset a < textLength a ->
  timer (run_task handleSelection st) = None
  /\ step TimerFires (run_task handleSelection st) = None
  /\ providerCalls (run_task handleSelection st) = providerCalls st.
Proof.
  intros Hen Hskip Hsel Ha Htext Hlt.
  assert (Hend : isCaretAtLineEnd sel = Normal false).
  { unfold isCaretAtLineEnd. rewrite Ha, Htext.
    apply Nat.ltb_lt in Hlt. rewrite Hlt. reflexivity. }
  assert (Htimer : timer (run_task handleSelection st) = None).
  { unfold run_task. rewrite (handleSelection_eq st Hen Hskip), Hsel. cbv zeta.
    rewrite Hend. destruct (isCollapsed sel); reflexivity. }
  split; [exact Htimer|]. split.
  - simpl. rewrite Htimer. reflexivity.
  - unfold run_task. rewrite (handleSelection_eq st Hen Hskip), Hsel. cbv zeta.
    rewrite Hend. destruct (isCollapsed sel); reflexivity.
Qed.

Lemma no_debounce_mid_line_witness :
  timer (run_task handleSelection
           (set_surface
              (mkSurface
                 (Some (mkSelection true
                          (Some (mkAnchor true 6 5 true IsTextbox true false))))
                 ["hello"] [] " ")
              fetching)) = None.
Proof.
  destruct (@no_debounce_mid_line
              (set_surface
                 (mkSurface
                    (Some (mkSelection true
                             (Some (mkAnchor true 6 5 true IsTextbox true false))))
                    ["hello"] [] " ")
                 fetching)
              (mkSelection true
                 (Some (mkAnchor true 6 5 true IsTextbox true false)))
              (mkAnchor true 6 5 true IsTextbox true false))
    as (Htimer & _).
  - reflexivity.
  - reflexivity.
  - reflexivity.
  - reflexivity.
  - reflexivity.
  - simpl. lia.
  - exact Htimer.
Defined.

(** X9. A blur has no guard: whether or not autocomplete is disabled, every
    displayed suggestion is removed and reported as an implicit rejection,
    the timeout is cleared, so that no timer callback can follow, and the
    current abort controller is aborted. *)
Theorem blur_rejects_and_tears_down (st : State) :
  suggestionElements (surface (run_task handleBlur st)) = []
  /\ notifications (run_task handleBlur st)
     = notifications st
       ++ rejections (props st) IMPLICIT (now st)
            (suggestionElements (surface st))
  /\ timer (run_task handleBlur st) = None
  /\ step TimerFires (run_task handleBlur st) = None
  /\ controllers (run_task handleBlur st)
     = abort (abortController st) (controllers st)
  /\ before (surface (run_task handleBlur st)) = before (surface st)
  /\ suggestionCache (run_task handleBlur st) = suggestionCache st.
Proof.
  unfold run_task. rewrite handleBlur_eq. repeat split.
Qed.

(* ------------------------------------------------------------------------- *)
(** ** The caret helpers *)

(** X10. The text [getTextUptilCaretInElement] returns never holds a
    non-breaking space. *)
Theorem getTextUptilCaretInElement_no_nbsp (w : Surface) (L : string) :
  getTextUptilCaretInElement w = Normal L ->
  ~ In nbsp (list_ascii_of_string L).
Proof.
  unfold getTextUptilCaretInElement.
  destruct (getCaretAsRange w) as [[range|]|e]; try discriminate.
  - destruct (setStartThrows range); intros H; injection H as <-.
    + simpl. tauto.
    + apply replace_nbsp_no_nbsp.
  - intros H. injection H as <-. simpl. tauto.
Qed.

Lemma getTextUptilCaretInElement_no_nbsp_witness :
  getTextUptilCaretInElement
    (mkSurface (Some (caretAtEnd 6)) [String "h" (String "i" (String nbsp ""))]
       [] "")
  = Normal "hi "
  /\ ~ In nbsp (list_ascii_of_string "hi ").
Proof.
  assert (H : getTextUptilCaretInElement
                (mkSurface (Some (caretAtEnd 6))
                   [String "h" (String "i" (String nbsp ""))] [] "")
              = Normal "hi ") by reflexivity.
  split; [exact H | exact (getTextUptilCaretInElement_no_nbsp _ H)].
Defined.

(* ------------------------------------------------------------------------- *)
(** ** When the fetch resolves *)

(** X12. A fetch that resolves with a non-empty text while the text before
    the caret is still the one it was issued for, the caret being inside the
    textbox: the text is written to the cache under that text, the suggestion
    element generated from it is inserted in front of whatever suggestions
    are displayed, and [onSuggestionShown] reports the text with the time that
    passed since the call as latency.  The element shows the text as the HTML
    parser reads it: the text itself when it holds neither U+0000 nor CR. *)
Theorem fresh_result_is_displayed (st : State) (frame : Awaiting) (T : string)
    (range : Anchor) :
  T <> "" ->
  getCaretAsRange (surface st) = Normal (Some range) ->
  insideTextbox range = true ->
  getTextUptilCaretInElement (surface st) = Normal (aw_textUptilCaret frame) ->
  suggestionElements (surface (settle_task frame (Resolves T) st))
  = generateSuggestionElement T (uuid_string (uuids st))
    :: suggestionElements (surface st)
  /\ textContent (generateSuggestionElement T (uuid_string (uuids st)))
     = dropNUL (normalizeNewlines false T)
  /\ (plainText T ->
      textContent (generateSuggestionElement T (uuid_string (uuids st))) = T)
  /\ suggestionCache (settle_task frame (Resolves T) st)
     = lru_set (aw_textUptilCaret frame) T (suggestionCache st)
  /\ (exists timeShown,
        notifications (settle_task frame (Resolves T) st)
        = notifications st
          ++ (if has_onSuggestionShown (props st)
              then [SuggestionShown
                      (mkSuggestionInfo (uuid_string (uuids st)) timeShown
                         (now st - aw_timeBefore frame) T
                         (aw_textUptilCaret frame))]
              else []))
  /\ escaped (settle_task frame (Resolves T) st) = escaped st
  /\ before (surface (settle_task frame (Resolves T) st)) = before (surface st).
Proof.
  intros HT Hrange Hin Hget.
  assert (Heq : settle_task frame (Resolves T) st
                = shown (aw_textUptilCaret frame) (aw_timeBefore frame) T
                    (set_suggestionCache
                       (lru_set (aw_textUptilCaret frame) T (suggestionCache st))
                       (set_awaiting (drop_frame (aw_signal frame) (awaiting st))
                          st))).
  { unfold settle_task, run_task, showSuggestionAtCaret_resume.
    rewrite (truthy_Some HT). cbn [negb].
    unfold bind at 1. unfold modify at 1.
    rewrite (@showSuggestionAtCaret_display_shown _ _ _ _ range);
      [reflexivity | exact Hrange | exact Hin | exact Hget]. }
  rewrite Heq. unfold shown. simpl.
  split; [destruct (has_onSuggestionShown (props st)); reflexivity|].
  split; [reflexivity|].
  split; [exact (@parsedText_plain T)|].
  split; [destruct (has_onSuggestionShown (props st)); reflexivity|].
  split; [exists (now st);
          destruct (has_onSuggestionShown (props st)); simpl;
          rewrite ?app_nil_r; reflexivity|].
  split; destruct (has_onSuggestionShown (props st)); reflexivity.
Qed.

Lemma fresh_result_is_displayed_witness :
  suggestionElements
    (surface (settle_task (mkAwaiting "hello " 1000 1) (Resolves "world")
                (set_now 1700 fetching)))
  = [mkSuggestionElement "s-0" "world"]
  /\ exists timeShown,
       notifications
         (settle_task (mkAwaiting "hello " 1000 1) (Resolves "world")
            (set_now 1700 fetching))
       = [SuggestionShown (mkSuggestionInfo "s-0" timeShown 700 "world" "hello ")].
Proof.
  assert (HT : "world" <> "") by discriminate.
  destruct (@fresh_result_is_displayed (set_now 1700 fetching)
              (mkAwaiting "hello " 1000 1) "world"
              (mkAnchor true 6 6 true IsTextbox true false)
              HT eq_refl eq_refl eq_refl) as (Hels & _ & _ & _ & Hnot & _).
  split; [exact Hels | exact Hnot].
Defined.

Lemma display_without_caret L tb text st :
  getCaretAsRange (surface st) = Normal None ->
  exists u, showSuggestionAtCaret_display L tb text st = (Normal tt, set_uuids u st).
Proof.
  intros Hnone.
  destruct (showSuggestionAtCaret_display_cases L tb text st)
    as [(range & Hr & Hin & _ & Heq) | [(_ & Heq) | [(_ & Heq) | (e & He & Heq)]]].
  - rewrite Hnone in Hr. discriminate.
  - eexists. exact Heq.
  - exists (uuids st). rewrite Heq. destruct st; reflexivity.
  - unfold getTextUptilCaretInElement in He. rewrite Hnone in He. discriminate.
Qed.

(** X13. A fetch that resolves while the document has no caret.  When there
    is no selection object or the selection is not collapsed, nothing is
    inserted and no callback is invoked, whatever the text.  When the
    selection holds no range, a non-empty result is not displayed either, and
    the [IndexSizeError] of [getRangeAt(0)] ends the run as an unhandled
    rejection. *)
Theorem result_not_displayed_without_caret (st : State) (frame : Awaiting)
    (T : string) :
  (getCaretAsRange (surface st) = Normal None ->
   surface (settle_task frame (Resolves T) st) = surface st
   /\ notifications (settle_task frame (Resolves T) st) = notifications st
   /\ escaped (settle_task frame (Resolves T) st) = escaped st)
  /\ (forall e,
        getCaretAsRange (surface st) = Throw e ->
        T <> "" ->
        surface (settle_task frame (Resolves T) st) = surface st
        /\ notifications (settle_task frame (Resolves T) st) = notifications st
        /\ escaped (settle_task frame (Resolves T) st) = escaped st ++ [e]).
Proof.
  split.
  - intros Hnone.
    unfold settle_task, run_task, showSuggestionAtCaret_resume.
    destruct (truthy (Some T)); cbn [negb]; [|repeat split].
    unfold bind, modify.
    match goal with
    | |- context [showSuggestionAtCaret_display ?a ?b ?c ?s] =>
        destruct (@display_without_caret a b c s Hnone) as (u & Heq)
    end.
    rewrite Heq. repeat split.
  - intros e Hthrow HT.
    unfold settle_task, run_task, showSuggestionAtCaret_resume.
    rewrite (truthy_Some HT). cbn [negb].
    unfold bind, modify.
    match goal with
    | |- context [showSuggestionAtCaret_display ?a ?b ?c ?s] =>
        destruct (showSuggestionAtCaret_display_cases a b c s)
          as [(range & Hr & _) | [(Hget & _) | [((L' & Hget & _) & _) | (e' & Hget & Heq)]]]
    end.
    + simpl in Hr. rewrite Hthrow in Hr. discriminate.
    + unfold getTextUptilCaretInElement in Hget. simpl in Hget.
      rewrite Hthrow in Hget. discriminate.
    + unfold getTextUptilCaretInElement in Hget. simpl in Hget.
      rewrite Hthrow in Hget. discriminate.
    + rewrite Heq. unfold getTextUptilCaretInElement in Hget. simpl in Hget.
      rewrite Hthrow in Hget. injection Hget as <-. repeat split.
Qed.

Lemma result_not_displayed_without_caret_witness :
  surface
    (settle_task (mkAwaiting "hello " 1000 1) (Resolves "world")
       (set_surface (mkSurface None ["hello "] [] "") fetching))
  = mkSurface None ["hello "] [] ""
  /\ escaped
       (settle_task (mkAwaiting "hello " 1000 1) (Resolves "world")
          (set_surface nothing_selected fetching))
     = [IndexSizeError].
Proof.
  destruct (@result_not_displayed_without_caret
              (set_surface (mkSurface None ["hello "] [] "") fetching)
              (mkAwaiting "hello " 1000 1) "world") as (Hnone & _).
  destruct (Hnone eq_refl) as (Hsurf & _).
  destruct (@result_not_displayed_without_caret
              (set_surface nothing_selected fetching)
              (mkAwaiting "hello " 1000 1) "world") as (_ & Hthrow).
  assert (HT : "world" <> "") by discriminate.
  destruct (Hthrow IndexSizeError eq_refl HT) as (_ & _ & Hesc).
  split; [exact Hsurf | exact Hesc].
Defined.

(* ------------------------------------------------------------------------- *)
(** ** The cache *)


Lemma lru_remove_length k c : length (lru_remove k c) <= length c.
Proof.
  induction c as [|[k0 v0] c IH]; simpl; [lia|].
  destruct (String.eqb k k0); simpl; lia.
Qed.

Lemma lru_remove_length_found k c v :
  lru_find k c = Some v -> length (lru_remove k c) < length c.
Proof.
  induction c as [|[k0 v0] c IH]; simpl; [discriminate|].
  destruct (String.eqb k k0).
  - intros _. pose proof (lru_remove_length k c). lia.
  - intros H. apply IH in H. simpl. lia.
Qed.

Lemma lru_remove_keys k c : ~ In k (map fst (lru_remove k c)).
Proof.
  induction c as [|[k0 v0] c IH]; simpl; [tauto|].
  destruct (String.eqb_spec k k0) as [->|Hne]; [exact IH|].
  simpl. intros [H | H]; [congruence | exact (IH H)].
Qed.

Lemma lru_remove_subset k c x :
  In x (map fst (lru_remove k c)) -> In x (map fst c).
Proof.
  induction c as [|[k0 v0] c IH]; simpl; [tauto|].
  destruct (String.eqb k k0); simpl; tauto.
Qed.

Lemma lru_remove_NoDup k c :
  NoDup (map fst c) -> NoDup (map fst (lru_remove k c)).
Proof.
  induction c as [|[k0 v0] c IH]; simpl; [auto|].
  intros H. inversion H as [|? ? Hnin Hnd]; subst.
  destruct (String.eqb k k0); [apply IH, Hnd|].
  simpl. constructor; [|apply IH, Hnd].
  intros Hin. apply Hnin. exact (lru_remove_subset _ _ _ Hin).
Qed.

Lemma firstn_NoDup_keys n : forall c : LRUCache,
  NoDup (map fst c) -> NoDup (map fst (firstn n c)).
Proof.
  induction n as [|n IH]; intros c H; simpl; [constructor|].
  destruct c as [|[k v] c]; simpl in *; [constructor|].
  inversion H as [|? ? Hnin Hnd]; subst.
  constructor; [|apply IH, Hnd].
  intros Hin. apply Hnin.
  rewrite <- (firstn_skipn n c), map_app. apply in_or_app. left. exact Hin.
Qed.

Lemma cache_bounded_get k c :
  cache_bounded c -> cache_bounded (snd (lru_get k c)).
Proof.
  intros (Hlen & Hnd). unfold lru_get.
  destruct (lru_find k c) as [v|] eqn:Hfind; simpl; [|split; assumption].
  split.
  - pose proof (lru_remove_length_found k c Hfind). simpl. lia.
  - simpl. constructor; [apply lru_remove_keys | apply lru_remove_NoDup, Hnd].
Qed.

Lemma cache_bounded_set k v c :
  cache_bounded c -> cache_bounded (lru_set k v c).
Proof.
  intros (Hlen & Hnd). unfold lru_set. split.
  - rewrite length_firstn. lia.
  - apply firstn_NoDup_keys. simpl.
    constructor; [apply lru_remove_keys | apply lru_remove_NoDup, Hnd].
Qed.

(** An invariant of the cache that [get] and [set] keep is kept by every
    task of the component. *)
Section CacheInvariant.

Variable P : LRUCache -> Prop.
Hypothesis P_get : forall k c, P c -> P (snd (lru_get k c)).
Hypothesis P_set : forall k v c, P c -> P (lru_set k v c).

Lemma showSuggestionAtCaret_keeps g st :
  P (suggestionCache st) ->
  P (suggestionCache (snd (showSuggestionAtCaret g st))).
Proof.
  intros Hok.
  destruct (getTextUptilCaretInElement (surface st)) as [L|e] eqn:Hget.
  - destruct (truthy_cases (lru_find L (suggestionCache st)))
      as [(v & Hfind & Hv) | Hmiss].
    + rewrite (showSuggestionAtCaret_hit g st Hget Hfind Hv).
      pose proof (P_get L Hok) as Hg. unfold lru_get in Hg.
      rewrite Hfind in Hg. simpl in Hg.
      match goal with
      | |- context [showSuggestionAtCaret_display ?a ?b ?c ?s] =>
          destruct (showSuggestionAtCaret_display_frame a b c s) as (Hd & _);
          destruct (showSuggestionAtCaret_display a b c s) as [[u|e] st']
      end; simpl in *; rewrite Hd; exact Hg.
    + rewrite (showSuggestionAtCaret_miss g st Hget Hmiss).
      destruct g; simpl; apply P_get, Hok.
  - rewrite (showSuggestionAtCaret_throws g st Hget). exact Hok.
Qed.

Lemma resume_keeps frame r st :
  P (suggestionCache st) ->
  P (suggestionCache (snd (showSuggestionAtCaret_resume frame r st))).
Proof.
  intros Hok. destruct r as [text|e]; simpl; [|exact Hok].
  destruct (String.eqb text ""); simpl; [exact Hok|].
  unfold bind, modify.
  match goal with
  | |- context [showSuggestionAtCaret_display ?a ?b ?c ?s] =>
      destruct (showSuggestionAtCaret_display_frame a b c s) as (Hd & _)
  end.
  rewrite Hd. simpl. apply P_set, Hok.
Qed.

Lemma input_task_keeps justTyped st :
  P (suggestionCache st) -> P (suggestionCache (input_task justTyped st)).
Proof.
  intros Hok. unfold input_task.
  destruct (handleInput_cases justTyped st) as [(d & e & -> & Hpa) | Heq].
  - rewrite (handleInput_partialAcceptance Hpa). cbv zeta.
    assert (Hok1 : P (suggestionCache (contentChanged (removed IMPLICIT st)))).
    { destruct (contentChanged_frame (removed IMPLICIT st)) as (_ & Hc & _).
      rewrite Hc. exact Hok. }
    destruct (truthy (Some (substring_from (String.length d) (textContent e))));
      [|exact Hok1].
    match goal with
    | |- context [showSuggestionAtCaret ?g ?s] =>
        pose proof (@showSuggestionAtCaret_keeps g s Hok1) as Hshow;
        destruct (showSuggestionAtCaret g s) as [[[frame|]|err] st2]
    end; simpl in Hshow; try exact Hshow.
    rewrite run_task_suggestionCache. apply resume_keeps. exact Hshow.
  - rewrite Heq.
    destruct (disableAutocomplete (props st));
      match goal with
      | |- context [contentChanged ?s] =>
          destruct (contentChanged_frame s) as (_ & Hc & _)
      end; rewrite Hc; exact Hok.
Qed.

Lemma step_keeps ev st st' :
  P (suggestionCache st) -> step ev st = Some st' -> P (suggestionCache st').
Proof.
  intros Hok Hstep. destruct ev; simpl in Hstep.
  - injection Hstep as <-. apply input_task_keeps, Hok.
  - injection Hstep as <-. rewrite handleKeyDown_suggestionCache. exact Hok.
  - injection Hstep as <-. rewrite handleSelection_suggestionCache. exact Hok.
  - injection Hstep as <-. unfold run_task. rewrite handleBlur_eq. exact Hok.
  - destruct (timer st) as [t|]; [|discriminate].
    destruct (armedAt t + Z.max 0 (delay t) <=? now st)%Z; [|discriminate].
    injection Hstep as <-. unfold timer_task.
    pose proof (@showSuggestionAtCaret_keeps FromProps (set_timer None st) Hok)
      as Hshow.
    destruct (showSuggestionAtCaret FromProps (set_timer None st))
      as [[[frame|]|err] st2]; exact Hshow.
  - destruct (find_frame signal (awaiting st)) as [frame|]; [|discriminate].
    injection Hstep as <-. unfold settle_task.
    rewrite run_task_suggestionCache. apply resume_keeps. exact Hok.
  - injection Hstep as <-. exact Hok.
  - destruct (0 <=? ms)%Z; [|discriminate]. injection Hstep as <-. exact Hok.
  - injection Hstep as <-. exact Hok.
  - destruct (0 <=? ms)%Z; [|discriminate]. injection Hstep as <-. exact Hok.
Qed.

Lemma run_keeps evs : forall st st',
  P (suggestionCache st) -> run evs st = Some st' -> P (suggestionCache st').
Proof.
  induction evs as [|ev evs IH]; intros st st' Hok Hrun; simpl in Hrun.
  - injection Hrun as <-. exact Hok.
  - destruct (step ev st) as [st1|] eqn:Hstep; [|discriminate].
    exact (IH _ _ (@step_keeps ev st st1 Hok Hstep) Hrun).
Qed.

End CacheInvariant.

(** X14. The cache never outgrows its capacity of 25 entries and never holds
    a key twice, whatever the sequence of events. *)
Theorem cache_stays_bounded (p : Props) (w : Surface) (evs : list Event)
    (st : State) :
  run evs (mount p w) = Some st ->
  length (suggestionCache st) <= 25
  /\ NoDup (map fst (suggestionCache st)).
Proof.
  intros Hrun.
  apply (@run_keeps cache_bounded cache_bounded_get
           (fun k v c => @cache_bounded_set k v c) evs (mount p w) st);
    [|exact Hrun].
  split; [simpl; unfold lru_max; lia | constructor].
Qed.

Lemma cache_stays_bounded_witness :
  length (suggestionCache displaying) <= 25
  /\ NoDup (map fst (suggestionCache displaying)).
Proof.
  apply (@cache_stays_bounded (allCallbacks false None) hello
           [Select; Tick 1000; TimerFires; Settles 1 (Resolves "world")]
           displaying).
  reflexivity.
Defined.

(* ------------------------------------------------------------------------- *)
(** ** Calls of the provider *)

(** A run of [showSuggestionAtCaret] on a cache hit, in one place. *)
Lemma showSuggestionAtCaret_hit_frame g st L v :
  getTextUptilCaretInElement (surface st) = Normal L ->
  lru_find L (suggestionCache st) = Some v ->
  v <> "" ->
  providerCalls (snd (showSuggestionAtCaret g st)) = providerCalls st
  /\ controllers (snd (showSuggestionAtCaret g st)) = controllers st
  /\ forall frame, fst (showSuggestionAtCaret g st) <> Normal (Some frame).
Proof.
  intros Hget Hfind Hv.
  rewrite (showSuggestionAtCaret_hit g st Hget Hfind Hv).
  match goal with
  | |- context [showSuggestionAtCaret_display ?a ?b ?c ?s] =>
      destruct (showSuggestionAtCaret_display_frame a b c s) as (_ & Hp & Hc);
      destruct (showSuggestionAtCaret_display a b c s) as [[u|e] st']
  end; simpl in *; repeat split; auto; discriminate.
Qed.



Lemma handleKeyDown_providerCalls key st :
  providerCalls (run_task (handleKeyDown key) st) = providerCalls st.
Proof. apply handleKeyDown_frame. Qed.

Lemma handleSelection_providerCalls st :
  providerCalls (run_task handleSelection st) = providerCalls st.
Proof.
  unfold handleSelection. unfold_monad.
  destruct (disableAutocomplete (props st)); [reflexivity|].
  destruct (disableSelectionEvent st); [reflexivity|].
  rewrite removeSuggestionIfDisplayed_eq. simpl.
  destruct (selection (surface st)) as [sel|]; simpl; [|reflexivity].
  destruct (isCollapsed sel); simpl; [|reflexivity].
  destruct (isCaretAtLineEnd sel) as [[|]|e]; reflexivity.
Qed.

Lemma input_task_providerCalls justTyped st :
  providerCalls (input_task justTyped st) = providerCalls st.
Proof.
  unfold input_task.
  destruct (handleInput_cases justTyped st) as [(d & e & -> & Hpa) | Heq].
  - rewrite (handleInput_partialAcceptance Hpa). cbv zeta.
    destruct (contentChanged_frame (removed IMPLICIT st)) as (_ & _ & Hpc & _).
    destruct (truthy (Some (substring_from (String.length d) (textContent e))));
      [|exact Hpc].
    match goal with
    | |- context [showSuggestionAtCaret (Remaining ?r) ?s] =>
        pose proof (showSuggestionAtCaret_Remaining_providerCalls r s) as Hshow;
        destruct (showSuggestionAtCaret (Remaining r) s) as [[[frame|]|err] st2]
    end; simpl in Hshow.
    + rewrite run_task_providerCalls, resume_providerCalls. simpl.
      rewrite Hshow. exact Hpc.
    + simpl. rewrite Hshow. exact Hpc.
    + simpl. rewrite Hshow. exact Hpc.
  - rewrite Heq.
    destruct (disableAutocomplete (props st));
      match goal with
      | |- context [contentChanged ?s] =>
          destruct (contentChanged_frame s) as (_ & _ & Hc & _)
      end; rewrite Hc; reflexivity.
Qed.

(** X16. [props.getSuggestion] is called from the callback of the debounce
    timer and from nowhere else: no input, key press, selection event, blur,
    settled promise or re-render calls it; and one timer callback calls it at
    most once, with the text before the caret and the signal of a new abort
    controller. *)
Theorem provider_called_by_timer_only (ev : Event) (st st' : State) :
  step ev st = Some st' ->
  (ev <> TimerFires -> providerCalls st' = providerCalls st)
  /\ (ev = TimerFires ->
      providerCalls st' = providerCalls st
      \/ exists L,
           getTextUptilCaretInElement (surface st) = Normal L
           /\ providerCalls st'
              = providerCalls st ++ [(L, length (controllers st))]).
Proof.
  intros Hstep. split.
  - intros Hev. destruct ev; simpl in Hstep; try congruence.
    + injection Hstep as <-. apply input_task_providerCalls.
    + injection Hstep as <-. apply handleKeyDown_providerCalls.
    + injection Hstep as <-. apply handleSelection_providerCalls.
    + injection Hstep as <-. unfold run_task. rewrite handleBlur_eq. reflexivity.
    + destruct (find_frame signal (awaiting st)) as [frame|]; [|discriminate].
      injection Hstep as <-. unfold settle_task.
      rewrite run_task_providerCalls, resume_providerCalls. reflexivity.
    + injection Hstep as <-. reflexivity.
    + destruct (0 <=? ms)%Z; [|discriminate]. injection Hstep as <-. reflexivity.
    + injection Hstep as <-. reflexivity.
    + destruct (0 <=? ms)%Z; [|discriminate]. injection Hstep as <-. reflexivity.
  - intros ->. simpl in Hstep.
    destruct (timer st) as [t|]; [|discriminate].
    destruct (armedAt t + Z.max 0 (delay t) <=? now st)%Z; [|discriminate].
    injection Hstep as <-. unfold timer_task.
    destruct (getTextUptilCaretInElement (surface st)) as [L|e] eqn:Hget.
    + destruct (truthy_cases (lru_find L (suggestionCache st)))
        as [(v & Hfind & Hv) | Hmiss].
      * left.
        destruct (@showSuggestionAtCaret_hit_frame FromProps (set_timer None st)
                    L v Hget Hfind Hv) as (Hp & _ & Hf).
        destruct (showSuggestionAtCaret FromProps (set_timer None st))
          as [[[f|]|err] st2]; simpl in *; exact Hp.
      * right. exists L. split; [reflexivity|].
        rewrite (@showSuggestionAtCaret_miss FromProps (set_timer None st) L Hget Hmiss).
        reflexivity.
    + left. rewrite (@showSuggestionAtCaret_throws FromProps (set_timer None st) e Hget).
      reflexivity.
Qed.

Lemma provider_called_by_timer_only_witness :
  providerCalls (run_task handleBlur fetching) = providerCalls fetching.
Proof.
  destruct (@provider_called_by_timer_only Blur fetching
              (run_task handleBlur fetching) eq_refl) as (H & _).
  apply H. discriminate.
Defined.




(* ------------------------------------------------------------------------- *)
(** ** Input events *)

Lemma emits_only_shown_same st st' :
  notifications st' = notifications st -> emits_only_shown st st'.
Proof. intros H. exists []. rewrite app_nil_r. split; [exact H | constructor]. Qed.

Lemma emits_only_shown_trans st1 st2 st3 :
  emits_only_shown st1 st2 -> emits_only_shown st2 st3 ->
  emits_only_shown st1 st3.
Proof.
  intros (t1 & H1 & F1) (t2 & H2 & F2). exists (t1 ++ t2). split.
  - rewrite H2, H1, app_assoc. reflexivity.
  - apply Forall_app. split; assumption.
Qed.

Lemma display_emits_only_shown L tb text st :
  emits_only_shown st (snd (showSuggestionAtCaret_display L tb text st)).
Proof.
  destruct (showSuggestionAtCaret_display_cases L tb text st)
    as [(range & _ & _ & _ & Heq) | [(_ & Heq) | [(_ & Heq) | (e & _ & Heq)]]];
    rewrite Heq; simpl; try (apply emits_only_shown_same; reflexivity).
  unfold shown. destruct (has_onSuggestionShown (props st)).
  - eexists. split; [reflexivity|]. repeat constructor. eexists. reflexivity.
  - apply emits_only_shown_same; reflexivity.
Qed.

Lemma showSuggestionAtCaret_emits_only_shown g st :
  emits_only_shown st (snd (showSuggestionAtCaret g st)).
Proof.
  destruct (getTextUptilCaretInElement (surface st)) as [L|e] eqn:Hget.
  - destruct (truthy_cases (lru_find L (suggestionCache st)))
      as [(v & Hfind & Hv) | Hmiss].
    + rewrite (showSuggestionAtCaret_hit g st Hget Hfind Hv).
      match goal with
      | |- context [showSuggestionAtCaret_display ?a ?b ?c ?s] =>
          pose proof (display_emits_only_shown a b c s) as Hd;
          destruct (showSuggestionAtCaret_display a b c s) as [[u|e] st']
      end; exact Hd.
    + rewrite (showSuggestionAtCaret_miss g st Hget Hmiss).
      apply emits_only_shown_same. destruct g; reflexivity.
  - rewrite (showSuggestionAtCaret_throws g st Hget).
    apply emits_only_shown_same. reflexivity.
Qed.

Lemma resume_emits_only_shown frame r st :
  emits_only_shown st (snd (showSuggestionAtCaret_resume frame r st)).
Proof.
  destruct r as [text|e]; simpl; [|apply emits_only_shown_same; reflexivity].
  destruct (String.eqb text ""); simpl;
    [apply emits_only_shown_same; reflexivity|].
  unfold bind, modify.
  match goal with
  | |- context [showSuggestionAtCaret_display ?a ?b ?c ?s] =>
      pose proof (display_emits_only_shown a b c s) as Hd
  end.
  exact Hd.
Qed.

Lemma contentChanged_removed_log reason st :
  notifications (contentChanged (removed reason st))
  = notifications st
    ++ rejections (props st) reason (now st) (suggestionElements (surface st))
    ++ contentReport (props st) (set_suggestionElements [] (surface st)).
Proof.
  unfold contentChanged, contentReport.
  change (props (removed reason st)) with (props st).
  destruct (has_onContentChange (props st)); simpl.
  - rewrite <- app_assoc. reflexivity.
  - rewrite app_nil_r. reflexivity.
Qed.

(** X18. With autocomplete enabled, every input event first removes the
    displayed suggestions and reports each as an implicit rejection, then
    reports the content of the textbox without any suggestion element; all it
    may report after that is the suggestion it displays again. *)
Theorem input_reports_content_without_suggestion (justTyped : option string)
    (st : State) :
  disableAutocomplete (props st) = false ->
  exists tail,
    notifications (input_task justTyped st)
    = notifications st
      ++ rejections (props st) IMPLICIT (now st) (suggestionElements (surface st))
      ++ contentReport (props st) (set_suggestionElements [] (surface st))
      ++ tail
    /\ Forall (fun n => exists info, n = SuggestionShown info) tail.
Proof.
  intros Hen.
  assert (Hgoal : forall st',
             emits_only_shown (contentChanged (removed IMPLICIT st)) st' ->
             exists tail,
               notifications st'
               = notifications st
                 ++ rejections (props st) IMPLICIT (now st)
                      (suggestionElements (surface st))
                 ++ contentReport (props st)
                      (set_suggestionElements [] (surface st))
                 ++ tail
               /\ Forall (fun n => exists info, n = SuggestionShown info) tail).
  { intros st' (t & Ht & Ft). exists t. split; [|exact Ft].
    rewrite Ht, contentChanged_removed_log. rewrite <- !app_assoc. reflexivity. }
  apply Hgoal. unfold input_task.
  destruct (handleInput_cases justTyped st) as [(d & e & -> & Hpa) | Heq].
  - rewrite (handleInput_partialAcceptance Hpa). cbv zeta.
    destruct (truthy (Some (substring_from (String.length d) (textContent e))));
      [|apply emits_only_shown_same; reflexivity].
    match goal with
    | |- context [showSuggestionAtCaret ?g ?s] =>
        pose proof (showSuggestionAtCaret_emits_only_shown g s) as Hshow;
        destruct (showSuggestionAtCaret g s) as [[[frame|]|err] st2]
    end; simpl in Hshow.
    + eapply emits_only_shown_trans; [exact Hshow|].
      match goal with
      | |- context [run_task (showSuggestionAtCaret_resume ?f ?r) ?s] =>
          pose proof (resume_emits_only_shown f r s) as Hres
      end.
      destruct Hres as (t & Ht & Ft). exists t. split; [|exact Ft].
      rewrite run_task_notifications. exact Ht.
    + destruct Hshow as (t & Ht & Ft). exists t. split; [exact Ht | exact Ft].
    + destruct Hshow as (t & Ht & Ft). exists t. split; [exact Ht | exact Ft].
  - rewrite Heq, Hen. apply emits_only_shown_same. reflexivity.
Qed.

Lemma input_reports_content_without_suggestion_witness :
  exists tail,
    notifications (input_task (Some "x") typed_w)
    = notifications typed_w
      ++ [SuggestionRejected "s-0" 1000 IMPLICIT]
      ++ [ContentChange "hello w"]
      ++ tail
    /\ Forall (fun n => exists info, n = SuggestionShown info) tail.
Proof.
  exact (@input_reports_content_without_suggestion (Some "x") typed_w eq_refl).
Defined.

(** X19. Partial acceptance exhaustion: when the typed data is the whole text
    of the displayed suggestion, the suggestion is removed (reported as an
    implicit rejection), the content is reported, and nothing is displayed
    again: the cache, the abort controllers and the skip flag for the next
    selection event are untouched. *)
Theorem partial_acceptance_exhaustion (st : State) (e : SuggestionElement) :
  disableAutocomplete (props st) = false ->
  hd_error (suggestionElements (surface st)) = Some e ->
  textContent e <> "" ->
  suggestionElements (surface (input_task (Some (textContent e)) st)) = []
  /\ notifications (input_task (Some (textContent e)) st)
     = notifications st
       ++ rejections (props st) IMPLICIT (now st)
            (suggestionElements (surface st))
       ++ contentReport (props st) (set_suggestionElements [] (surface st))
  /\ disableSelectionEvent (input_task (Some (textContent e)) st)
     = disableSelectionEvent st
  /\ suggestionCache (input_task (Some (textContent e)) st) = suggestionCache st
  /\ controllers (input_task (Some (textContent e)) st) = controllers st.
Proof.
  intros Hen Hcur Htext.
  assert (Hpa : partialAcceptance st (textContent e) e).
  { repeat split; auto. apply prefix_refl. }
  assert (Heq : input_task (Some (textContent e)) st
                = contentChanged (removed IMPLICIT st)).
  { unfold input_task. rewrite (handleInput_partialAcceptance Hpa). cbv zeta.
    rewrite substring_from_all. reflexivity. }
  rewrite Heq.
  destruct (contentChanged_frame (removed IMPLICIT st))
    as (Hs & Hc & _ & Hk & _).
  rewrite Hs, Hc, Hk, contentChanged_removed_log.
  repeat split.
  unfold contentChanged. change (props (removed IMPLICIT st)) with (props st).
  destruct (has_onContentChange (props st)); reflexivity.
Qed.

Lemma partial_acceptance_exhaustion_witness :
  suggestionElements (surface (input_task (Some "world") displaying)) = []
  /\ notifications (input_task (Some "world") displaying)
     = notifications displaying
       ++ [SuggestionRejected "s-0" 1000 IMPLICIT; ContentChange "hello "]
  /\ disableSelectionEvent (input_task (Some "world") displaying) = false.
Proof.
  assert (Htext : textContent (mkSuggestionElement "s-0" "world") <> "")
    by discriminate.
  destruct (@partial_acceptance_exhaustion displaying
              (mkSuggestionElement "s-0" "world") eq_refl eq_refl Htext)
    as (Hels & Hnot & Hskip & _).
  split; [exact Hels|]. split; [exact Hnot | exact Hskip].
Defined.

(** X20. Partial acceptance with a remainder, the caret at a collapsed
    position inside the textbox and no cache entry for the text before it:
    exactly one suggestion is displayed afterwards, and what the user typed
    followed by its text is the text of the suggestion that was displayed, so
    typing along a suggestion shortens it from the front.  The remainder is
    written to the cache under the text before the caret, and
    [props.getSuggestion] is not called.  The text of the displayed
    suggestion is one the HTML parser leaves as it is, as the text of every
    element made by [generateSuggestionElement] is. *)
Theorem partial_acceptance_splits_text (st : State) (d : string)
    (e : SuggestionElement) (L : string) (range : Anchor) :
  partialAcceptance st d e ->
  substring_from (String.length d) (textContent e) <> "" ->
  plainText (textContent e) ->
  getCaretAsRange (surface st) = Normal (Some range) ->
  insideTextbox range = true ->
  getTextUptilCaretInElement (surface st) = Normal L ->
  truthy (lru_find L (suggestionCache st)) = false ->
  exists e',
    suggestionElements (surface (input_task (Some d) st)) = [e']
    /\ suggestionId e' = uuid_string (uuids st)
    /\ (d ++ textContent e')%string = textContent e
    /\ String.length (textContent e')
       = String.length (textContent e) - String.length d
    /\ suggestionCache (input_task (Some d) st)
       = lru_set L (substring_from (String.length d) (textContent e))
           (snd (lru_get L (suggestionCache st)))
    /\ providerCalls (input_task (Some d) st) = providerCalls st.
Proof.
  intros Hpa Hrem Hplain Hrange Hin Hget Hmiss.
  set (r := substring_from (String.length d) (textContent e)) in *.
  assert (Hsplit : textContent e = (d ++ r)%string).
  { destruct Hpa as (_ & _ & _ & Hp). exact (prefix_split _ _ Hp). }
  assert (Hr : parsedText r = r).
  { apply parsedText_plain, (plainText_app_r d). rewrite <- Hsplit. exact Hplain. }
  destruct (contentChanged_frame (removed IMPLICIT st))
    as (Hsurf & Hcache & Hpc & Hctl & Huuids & Hnow & _).
  set (st1 := contentChanged (removed IMPLICIT st)) in *.
  assert (Heq : input_task (Some d) st
                = shown L (now st1) r
                    (set_suggestionCache
                       (lru_set L r (snd (lru_get L (suggestionCache st1))))
                       (set_disableSelectionEvent true
                          (suspended (Remaining r) L st1)))).
  { unfold input_task. rewrite (handleInput_partialAcceptance Hpa). cbv zeta.
    fold r. fold st1. rewrite (truthy_Some Hrem).
    rewrite (@showSuggestionAtCaret_miss _ _ L).
    2:{ rewrite Hsurf. exact Hget. }
    2:{ rewrite Hcache. exact Hmiss. }
    unfold run_task, showSuggestionAtCaret_resume.
    rewrite (truthy_Some Hrem).
    cbn [negb aw_textUptilCaret aw_timeBefore aw_signal].
    unfold bind at 1. unfold modify at 1.
    rewrite (@showSuggestionAtCaret_display_shown _ _ _ _ range).
    - reflexivity.
    - simpl. rewrite Hsurf. exact Hrange.
    - exact Hin.
    - simpl. rewrite Hsurf. exact Hget. }
  exists (generateSuggestionElement r (uuid_string (uuids st))).
  assert (Htext : textContent (generateSuggestionElement r (uuid_string (uuids st)))
                  = r) by exact Hr.
  rewrite Heq, Htext. unfold shown.
  destruct (has_onSuggestionShown
              (props
                 (set_suggestionCache
                    (lru_set L r (snd (lru_get L (suggestionCache st1))))
                    (set_disableSelectionEvent true
                       (suspended (Remaining r) L st1)))));
    simpl; rewrite Huuids, Hcache, Hpc;
    (split; [reflexivity|]); (split; [reflexivity|]);
    (split; [symmetry; exact Hsplit|]);
    (split; [rewrite Hsplit, string_app_length; lia|]);
    split; reflexivity.
Qed.

Lemma partial_acceptance_splits_text_witness :
  exists e',
    suggestionElements (surface (input_task (Some "w") typed_w)) = [e']
    /\ ("w" ++ textContent e')%string = "world".
Proof.
  assert (Hpa : partialAcceptance typed_w "w" (mkSuggestionElement "s-0" "world")).
  { repeat split. discriminate. }
  assert (Hrem : substring_from (String.length "w")
                   (textContent (mkSuggestionElement "s-0" "world")) <> "").
  { vm_compute. discriminate. }
  assert (Hplain : plainText (textContent (mkSuggestionElement "s-0" "world"))).
  { split; intros H; vm_compute in H; intuition discriminate. }
  destruct (@partial_acceptance_splits_text typed_w "w"
              (mkSuggestionElement "s-0" "world") "hello w"
              (mkAnchor true 7 7 true IsTextbox true false)
              Hpa Hrem Hplain eq_refl eq_refl eq_refl eq_refl)
    as (e' & Hels & _ & Hsplit & _).
  exists e'. split; [exact Hels | exact Hsplit].
Defined.

Lemma run_task_same_refs_but_escaped A (m : M A) st :
  props (run_task m st) = props (snd (m st))
  /\ disableSelectionEvent (run_task m st) = disableSelectionEvent (snd (m st)).
Proof. unfold run_task. destruct (m st) as [[a|e] st']; split; reflexivity. Qed.

(** X21. After a partial acceptance that displays a remainder, the selection
    event caused by the typed character is skipped: it only resets the skip
    flag, so the suggestion just displayed stays, no rejection is reported and
    no debounce starts; the selection event after that one is handled again. *)
Theorem selection_after_partial_acceptance_is_skipped (st : State) (d : string)
    (e : SuggestionElement) :
  partialAcceptance st d e ->
  substring_from (String.length d) (textContent e) <> "" ->
  disableSelectionEvent (input_task (Some d) st) = true
  /\ run_task handleSelection (input_task (Some d) st)
     = set_disableSelectionEvent false (input_task (Some d) st).
Proof.
  intros Hpa Hrem.
  assert (Hfacts : disableSelectionEvent (input_task (Some d) st) = true
                   /\ props (input_task (Some d) st) = props st).
  { unfold input_task. rewrite (handleInput_partialAcceptance Hpa). cbv zeta.
    rewrite (truthy_Some Hrem).
    destruct (contentChanged_frame (removed IMPLICIT st))
      as (_ & _ & _ & _ & _ & _ & Hprops).
    match goal with
    | |- context [showSuggestionAtCaret ?g ?s] =>
        pose proof (showSuggestionAtCaret_same_refs g s) as (Hp & _);
        destruct (showSuggestionAtCaret g s) as [[[frame|]|err] st2]
    end; simpl in Hp.
    - match goal with
      | |- context [run_task (showSuggestionAtCaret_resume ?f ?r) ?s] =>
          pose proof (resume_same_refs f r s) as (Hp2 & _ & Hd2 & _);
          destruct (run_task_same_refs_but_escaped
                      (showSuggestionAtCaret_resume f r) s) as (Hp3 & Hd3)
      end.
      rewrite Hp3, Hd3, Hp2, Hd2. simpl. split; [reflexivity|].
      rewrite Hp. exact Hprops.
    - simpl. split; [reflexivity|]. rewrite Hp. exact Hprops.
    - simpl. split; [reflexivity|]. rewrite Hp. exact Hprops. }
  destruct Hfacts as (Hskip & Hprops). split; [exact Hskip|].
  destruct Hpa as (Hen & _).
  unfold handleSelection. unfold_monad.
  rewrite Hprops, Hen, Hskip. reflexivity.
Qed.

Lemma selection_after_partial_acceptance_is_skipped_witness :
  disableSelectionEvent (input_task (Some "w") typed_w) = true
  /\ suggestionElements
       (surface (run_task handleSelection (input_task (Some "w") typed_w)))
     = [mkSuggestionElement "s-1" "orld"].
Proof.
  assert (Hpa : partialAcceptance typed_w "w" (mkSuggestionElement "s-0" "world")).
  { repeat split. discriminate. }
  assert (Hrem : substring_from (String.length "w")
                   (textContent (mkSuggestionElement "s-0" "world")) <> "").
  { vm_compute. discriminate. }
  destruct (selection_after_partial_acceptance_is_skipped Hpa Hrem)
    as (Hskip & Heq).
  split; [exact Hskip|]. rewrite Heq. reflexivity.
Defined.

(* ------------------------------------------------------------------------- *)
(** ** Suggestions without text *)

Lemma cache_parses_find c :
  cache_parses c -> forall k v, lru_find k c = Some v -> parsedText v <> "".
Proof.
  induction 1 as [|[k0 v0] c Hv _ IH]; intros k v; simpl; [discriminate|].
  destruct (String.eqb k k0); [|apply IH].
  intros H. injection H as <-. exact Hv.
Qed.

Lemma cache_parses_remove k c : cache_parses c -> cache_parses (lru_remove k c).
Proof.
  induction 1 as [|[k0 v0] c Hv _ IH]; simpl; [constructor|].
  destruct (String.eqb k k0); [exact IH | constructor; assumption].
Qed.

Lemma cache_parses_get k c : cache_parses c -> cache_parses (snd (lru_get k c)).
Proof.
  intros Hc. unfold lru_get.
  destruct (lru_find k c) as [v|] eqn:Hfind; simpl; [|exact Hc].
  constructor; [exact (cache_parses_find Hc _ Hfind) | apply cache_parses_remove, Hc].
Qed.

Lemma cache_parses_set k v c :
  parsedText v <> "" -> cache_parses c -> cache_parses (lru_set k v c).
Proof.
  intros Hv Hc. unfold lru_set, cache_parses.
  assert (Hall : Forall (fun entry => parsedText (snd entry) <> "")
                   ((k, v) :: lru_remove k c)).
  { constructor; [exact Hv | apply cache_parses_remove, Hc]. }
  revert Hall. generalize ((k, v) :: lru_remove k c). generalize lru_max.
  induction n as [|n IH]; intros l Hl; simpl; [constructor|].
  destruct Hl as [|entry l He Hl]; constructor; [exact He | apply IH, Hl].
Qed.

Lemma suggestions_ok_nil s :
  suggestionElements (surface s) = [] -> suggestions_ok (surface s).
Proof. intros H. unfold suggestions_ok. rewrite H. constructor. Qed.

Lemma display_suggestions_ok L tb text st :
  parsedText text <> "" ->
  suggestions_ok (surface st) ->
  suggestions_ok (surface (snd (showSuggestionAtCaret_display L tb text st))).
Proof.
  intros Htext Hok.
  destruct (showSuggestionAtCaret_display_cases L tb text st)
    as [(range & _ & _ & _ & Heq) | [(_ & Heq) | [(_ & Heq) | (e & _ & Heq)]]];
    rewrite Heq; simpl; try exact Hok.
  unfold shown, suggestions_ok.
  destruct (has_onSuggestionShown (props st)); simpl;
    (constructor; [split; [exact Htext | apply parsedText_is_plain] | exact Hok]).
Qed.

Lemma showSuggestionAtCaret_parsed g st :
  cache_parses (suggestionCache st) ->
  cache_parses (suggestionCache (snd (showSuggestionAtCaret g st)))
  /\ suggestions_ok (surface (snd (showSuggestionAtCaret g st))).
Proof.
  intros Hcache.
  destruct (getTextUptilCaretInElement (surface st)) as [L|e] eqn:Hget.
  - destruct (truthy_cases (lru_find L (suggestionCache st)))
      as [(v & Hfind & Hv) | Hmiss].
    + rewrite (showSuggestionAtCaret_hit g st Hget Hfind Hv).
      pose proof (cache_parses_find Hcache _ Hfind) as Hpv.
      match goal with
      | |- context [showSuggestionAtCaret_display ?a ?b ?c ?s] =>
          pose proof (@display_suggestions_ok a b c s Hpv
                        (suggestions_ok_nil s eq_refl)) as Hd;
          destruct (showSuggestionAtCaret_display_frame a b c s) as (Hc & _);
          destruct (showSuggestionAtCaret_display a b c s) as [[u|e] st']
      end; simpl in *; (split; [|exact Hd]); rewrite Hc;
        (constructor; [exact Hpv | apply cache_parses_remove, Hcache]).
    + rewrite (showSuggestionAtCaret_miss g st Hget Hmiss). split.
      * destruct g; simpl; apply cache_parses_get, Hcache.
      * apply suggestions_ok_nil. destruct g; reflexivity.
  - rewrite (showSuggestionAtCaret_throws g st Hget). split; [exact Hcache|].
    apply suggestions_ok_nil. reflexivity.
Qed.

Lemma resume_parsed frame r st :
  (forall text, r = Resolves text -> text <> "" -> parsedText text <> "") ->
  cache_parses (suggestionCache st) ->
  suggestions_ok (surface st) ->
  cache_parses (suggestionCache (snd (showSuggestionAtCaret_resume frame r st)))
  /\ suggestions_ok (surface (snd (showSuggestionAtCaret_resume frame r st))).
Proof.
  intros Hr Hcache Hok. destruct r as [text|e]; simpl; [|split; assumption].
  destruct (String.eqb_spec text "") as [->|Hne]; simpl; [split; assumption|].
  pose proof (Hr text eq_refl Hne) as Hpt.
  unfold bind, modify.
  match goal with
  | |- context [showSuggestionAtCaret_display ?a ?b ?c ?s] =>
      destruct (showSuggestionAtCaret_display_frame a b c s) as (Hc & _);
      pose proof (@display_suggestions_ok a b c s Hpt Hok) as Hd
  end.
  split; [|exact Hd]. rewrite Hc. simpl. apply cache_parses_set; assumption.
Qed.

Lemma run_task_surface A (m : M A) st :
  surface (run_task m st) = surface (snd (m st)).
Proof. unfold run_task. destruct (m st) as [[a|e] st']; reflexivity. Qed.

Lemma input_task_parsed justTyped st :
  cache_parses (suggestionCache st) ->
  suggestions_ok (surface st) ->
  cache_parses (suggestionCache (input_task justTyped st))
  /\ suggestions_ok (surface (input_task justTyped st)).
Proof.
  intros Hcache Hok. unfold input_task.
  destruct (contentChanged_frame (removed IMPLICIT st)) as (Hs & Hc & _).
  assert (Hnil : suggestions_ok (surface (contentChanged (removed IMPLICIT st)))).
  { rewrite Hs. constructor. }
  assert (Hc1 : cache_parses
                  (suggestionCache (contentChanged (removed IMPLICIT st)))).
  { rewrite Hc. exact Hcache. }
  destruct (handleInput_cases justTyped st) as [(d & e & -> & Hpa) | Heq].
  - rewrite (handleInput_partialAcceptance Hpa). cbv zeta.
    destruct (String.eqb_spec
                (substring_from (String.length d) (textContent e)) "")
      as [Hempty | Hrem].
    { rewrite Hempty. simpl. split; assumption. }
    rewrite (truthy_Some Hrem).
    assert (Hpr : parsedText (substring_from (String.length d) (textContent e))
                  <> "").
    { destruct Hpa as (_ & Hcur & _ & Hp).
      assert (Hplain : plainText (textContent e)).
      { unfold suggestions_ok in Hok.
        destruct (suggestionElements (surface st)) as [|e0 rest];
          [discriminate|].
        simpl in Hcur. injection Hcur as ->.
        inversion Hok as [|? ? (_ & H) _]. exact H. }
      rewrite parsedText_plain; [exact Hrem|].
      apply (plainText_app_r d). rewrite <- (prefix_split _ _ Hp). exact Hplain. }
    match goal with
    | |- context [showSuggestionAtCaret ?g ?s] =>
        destruct (@showSuggestionAtCaret_parsed g s Hc1) as (Hsc & Hss);
        destruct (showSuggestionAtCaret g s) as [[[frame|]|err] st2]
    end; simpl in Hsc, Hss; try (split; assumption).
    rewrite run_task_suggestionCache, run_task_surface.
    apply resume_parsed; try assumption.
    intros text Ht _. injection Ht as <-. exact Hpr.
  - rewrite Heq. destruct (disableAutocomplete (props st));
      [|split; assumption].
    destruct (contentChanged_frame st) as (Hs0 & Hc0 & _).
    rewrite Hs0, Hc0. split; assumption.
Qed.

Lemma getCaretAsRange_throws w e :
  getCaretAsRange w = Throw e -> e = IndexSizeError.
Proof.
  unfold getCaretAsRange.
  destruct (selection w) as [sel|]; [|discriminate].
  destruct (isCollapsed sel); simpl; [|discriminate].
  destruct (anchor sel); [discriminate|].
  intros H. injection H as <-. reflexivity.
Qed.

(** Every key press leaves the textbox either as it is or without a
    suggestion; with suggestions that have a text it raises nothing but the
    error of a selection without a range. *)
Lemma handleKeyDown_outcome key st :
  (surface (run_task (handleKeyDown key) st) = surface st
   \/ suggestionElements (surface (run_task (handleKeyDown key) st)) = [])
  /\ (suggestions_ok (surface st) ->
      forall e, fst (handleKeyDown key st) = Throw e -> e = IndexSizeError).
Proof.
  unfold run_task, suggestions_ok. rewrite handleKeyDown_eq.
  destruct (disableAutocomplete (props st));
    [split; [left; reflexivity | discriminate]|].
  destruct (String.eqb key "Escape");
    [split; [right; reflexivity | discriminate]|].
  destruct (String.eqb key "Tab");
    [|split; [left; reflexivity | discriminate]].
  destruct (suggestionElements (surface st)) as [|s rest];
    [split; [left; reflexivity | discriminate]|].
  destruct (String.eqb_spec (textContent s) "") as [Hempty | Htext].
  { rewrite Hempty. simpl. split; [left; reflexivity|].
    intros Hok. inversion Hok as [|? ? (H & _) _]. congruence. }
  rewrite (truthy_Some Htext).
  destruct (getCaretAsRange (surface st)) as [[range|]|err] eqn:Hrange.
  - destruct (insideTextbox range); cbv zeta;
      (split; [right; reflexivity | discriminate]).
  - split; [right; reflexivity | discriminate].
  - split; [right; reflexivity|].
    intros _ e H. injection H as <-. exact (getCaretAsRange_throws _ Hrange).
Qed.

Lemma handleSelection_outcome st :
  surface (run_task handleSelection st) = surface st
  \/ suggestionElements (surface (run_task handleSelection st)) = [].
Proof.
  unfold handleSelection. unfold_monad.
  destruct (disableAutocomplete (props st)); [left; reflexivity|].
  destruct (disableSelectionEvent st); [left; reflexivity|].
  rewrite removeSuggestionIfDisplayed_eq. simpl.
  destruct (selection (surface st)) as [sel|]; simpl; [|right; reflexivity].
  destruct (isCollapsed sel); simpl; [|right; reflexivity].
  destruct (isCaretAtLineEnd sel) as [[|]|e]; right; reflexivity.
Qed.

Lemma step_parsed ev st st' :
  survivesParsing ev ->
  cache_parses (suggestionCache st) ->
  suggestions_ok (surface st) ->
  step ev st = Some st' ->
  cache_parses (suggestionCache st') /\ suggestions_ok (surface st').
Proof.
  intros Hev Hcache Hok Hstep.
  destruct ev; simpl in Hstep.
  - injection Hstep as <-. apply input_task_parsed; assumption.
  - injection Hstep as <-. split.
    + rewrite handleKeyDown_suggestionCache. exact Hcache.
    + destruct (handleKeyDown_outcome key st) as ([Hs | Hs] & _);
        [rewrite Hs; exact Hok | apply suggestions_ok_nil, Hs].
  - injection Hstep as <-. split.
    + rewrite handleSelection_suggestionCache. exact Hcache.
    + destruct (handleSelection_outcome st) as [Hs | Hs];
        [rewrite Hs; exact Hok | apply suggestions_ok_nil, Hs].
  - injection Hstep as <-. unfold run_task. rewrite handleBlur_eq.
    split; [exact Hcache | apply suggestions_ok_nil; reflexivity].
  - destruct (timer st) as [t|]; [|discriminate].
    destruct (armedAt t + Z.max 0 (delay t) <=? now st)%Z; [|discriminate].
    injection Hstep as <-. unfold timer_task.
    pose proof (@showSuggestionAtCaret_parsed FromProps (set_timer None st)
                  Hcache) as Hshow.
    destruct (showSuggestionAtCaret FromProps (set_timer None st))
      as [[[frame|]|err] st2]; exact Hshow.
  - destruct (find_frame signal (awaiting st)) as [frame|]; [|discriminate].
    injection Hstep as <-. unfold settle_task.
    rewrite run_task_suggestionCache, run_task_surface.
    apply resume_parsed; try assumption.
    intros text ->. exact Hev.
  - injection Hstep as <-. split; assumption.
  - destruct (0 <=? ms)%Z; [|discriminate]. injection Hstep as <-.
    split; assumption.
  - injection Hstep as <-. split; assumption.
  - destruct (0 <=? ms)%Z; [|discriminate]. injection Hstep as <-.
    split; assumption.
Qed.

Lemma run_parsed evs : forall st st',
  Forall survivesParsing evs ->
  cache_parses (suggestionCache st) ->
  suggestions_ok (surface st) ->
  run evs st = Some st' ->
  cache_parses (suggestionCache st') /\ suggestions_ok (surface st').
Proof.
  induction evs as [|ev evs IH]; intros st st' Hevs Hcache Hok Hrun;
    simpl in Hrun.
  - injection Hrun as <-. split; assumption.
  - destruct (step ev st) as [st1|] eqn:Hstep; [|discriminate].
    inversion Hevs as [|? ? Hev Hrest]; subst.
    destruct (@step_parsed ev st st1 Hev Hcache Hok Hstep) as (Hc1 & Hs1).
    exact (IH _ _ Hrest Hc1 Hs1 Hrun).
Qed.

Lemma reachable_parsed st :
  reachable_by survivesParsing st ->
  cache_parses (suggestionCache st) /\ suggestions_ok (surface st).
Proof.
  intros (p & w & evs & Hw & Hevs & Hrun).
  apply (@run_parsed evs (mount p w) st Hevs); [constructor | | exact Hrun].
  apply suggestions_ok_nil. exact Hw.
Qed.

(** X22. As long as no provider result consists of U+0000 only, each
    displayed suggestion and each cached suggestion is a non-empty text, in
    every state the component reaches from a freshly mounted textbox.  (A
    result the provider resolves to is displayed as the HTML parser reads it,
    and the parser drops U+0000.) *)
Theorem reachable_suggestions_nonempty (st : State) :
  reachable_by survivesParsing st ->
  Forall (fun e => textContent e <> "") (suggestionElements (surface st))
  /\ Forall (fun entry => snd entry <> "") (suggestionCache st).
Proof.
  intros Hreach. destruct (reachable_parsed Hreach) as (Hc & Hs). split.
  - unfold suggestions_ok in Hs. apply (Forall_impl _ (fun e H => proj1 H) Hs).
  - apply (Forall_impl _ (fun entry H => parsedText_nonempty H) Hc).
Qed.

Lemma reachable_displaying : reachable_by survivesParsing displaying.
Proof.
  exists (allCallbacks false None), hello,
    [Select; Tick 1000; TimerFires; Settles 1 (Resolves "world")].
  split; [reflexivity|]. split; [|reflexivity].
  repeat constructor. intros _. discriminate.
Defined.

Lemma reachable_suggestions_nonempty_witness :
  Forall (fun e => textContent e <> "") (suggestionElements (surface displaying))
  /\ Forall (fun entry => snd entry <> "") (suggestionCache displaying).
Proof. exact (reachable_suggestions_nonempty reachable_displaying). Defined.

(** X23. As long as no provider result consists of U+0000 only, the
    assertion of the Tab branch, [assert(suggestionText)], never fails in a
    state the component reaches from a freshly mounted textbox: a key press
    does not raise an [AssertionError]. *)
Theorem keydown_assertion_never_fails (st : State) (key : string) :
  reachable_by survivesParsing st ->
  fst (handleKeyDown key st) <> Throw AssertionError.
Proof.
  intros Hreach Hthrow. destruct (reachable_parsed Hreach) as (_ & Hs).
  destruct (handleKeyDown_outcome key st) as (_ & H).
  specialize (H Hs _ Hthrow). discriminate.
Qed.

Lemma keydown_assertion_never_fails_witness :
  fst (handleKeyDown "Tab" displaying) <> Throw AssertionError.
Proof. exact (@keydown_assertion_never_fails displaying "Tab" reachable_displaying). Defined.

(** X26. A provider result that consists of U+0000 only is not empty, so it
    passes the test of [showSuggestionAtCaret], but the element built from it
    has no text.  It is displayed as a suggestion without text, and Tab on it
    fails [assert(suggestionText)]: the [AssertionError] leaves the handler,
    the empty suggestion stays displayed and nothing is reported. *)
Theorem empty_suggestion_fails_assertion (st : State) (frame : Awaiting)
    (T : string) (range : Anchor) :
  disableAutocomplete (props st) = false ->
  suggestionElements (surface st) = [] ->
  T <> "" ->
  parsedText T = "" ->
  getCaretAsRange (surface st) = Normal (Some range) ->
  insideTextbox range = true ->
  getTextUptilCaretInElement (surface st) = Normal (aw_textUptilCaret frame) ->
  suggestionElements (surface (settle_task frame (Resolves T) st))
  = [mkSuggestionElement (uuid_string (uuids st)) ""]
  /\ fst (handleKeyDown "Tab" (settle_task frame (Resolves T) st))
     = Throw AssertionError
  /\ suggestionElements
       (surface (run_task (handleKeyDown "Tab")
                   (settle_task frame (Resolves T) st)))
     = [mkSuggestionElement (uuid_string (uuids st)) ""]
  /\ notifications
       (run_task (handleKeyDown "Tab") (settle_task frame (Resolves T) st))
     = notifications (settle_task frame (Resolves T) st)
  /\ escaped
       (run_task (handleKeyDown "Tab") (settle_task frame (Resolves T) st))
     = escaped st ++ [AssertionError].
Proof.
  intros Hen Hels HT Hparsed Hrange Hin Hget.
  assert (Heq : settle_task frame (Resolves T) st
                = shown (aw_textUptilCaret frame) (aw_timeBefore frame) T
                    (set_suggestionCache
                       (lru_set (aw_textUptilCaret frame) T (suggestionCache st))
                       (set_awaiting (drop_frame (aw_signal frame) (awaiting st))
                          st))).
  { unfold settle_task, run_task, showSuggestionAtCaret_resume.
    rewrite (truthy_Some HT). cbn [negb].
    unfold bind at 1. unfold modify at 1.
    rewrite (@showSuggestionAtCaret_display_shown _ _ _ _ range);
      [reflexivity | exact Hrange | exact Hin | exact Hget]. }
  set (st1 := settle_task frame (Resolves T) st) in *.
  assert (Hfacts : suggestionElements (surface st1)
                   = [mkSuggestionElement (uuid_string (uuids st)) ""]
                   /\ props st1 = props st /\ escaped st1 = escaped st).
  { rewrite Heq. unfold shown, generateSuggestionElement. rewrite Hparsed.
    destruct (has_onSuggestionShown
                (props
                   (set_suggestionCache
                      (lru_set (aw_textUptilCaret frame) T (suggestionCache st))
                      (set_awaiting
                         (drop_frame (aw_signal frame) (awaiting st)) st))));
      simpl; rewrite Hels; auto. }
  destruct Hfacts as (Hels1 & Hprops1 & Hesc1).
  assert (Hkey : handleKeyDown "Tab" st1
                 = (Throw AssertionError, prevented "Tab" st1)).
  { rewrite handleKeyDown_eq, Hprops1, Hen, Hels1. reflexivity. }
  split; [exact Hels1|]. unfold run_task. rewrite Hkey.
  split; [reflexivity|]. split; [exact Hels1|]. split; [reflexivity|].
  simpl. rewrite Hesc1. reflexivity.
Qed.

Lemma empty_suggestion_fails_assertion_witness :
  suggestionElements
    (surface (settle_task (mkAwaiting "hello " 1000 1)
                (Resolves (String NUL "")) fetching))
  = [mkSuggestionElement "s-0" ""]
  /\ fst (handleKeyDown "Tab"
            (settle_task (mkAwaiting "hello " 1000 1)
               (Resolves (String NUL "")) fetching))
     = Throw AssertionError.
Proof.
  assert (HT : String NUL "" <> "") by discriminate.
  destruct (@empty_suggestion_fails_assertion fetching
              (mkAwaiting "hello " 1000 1) (String NUL "")
              (mkAnchor true 6 6 true IsTextbox true false)
              eq_refl eq_refl HT eq_refl eq_refl eq_refl eq_refl)
    as (Hels & Hthrow & _).
  split; [exact Hels | exact Hthrow].
Defined.

(* ------------------------------------------------------------------------- *)
(** ** Where a second suggestion can come from *)

Lemma display_adds_at_most_one L tb text st :
  length (suggestionElements (surface (snd (showSuggestionAtCaret_display L tb text st))))
  <= S (length (suggestionElements (surface st))).
Proof.
  destruct (showSuggestionAtCaret_display_cases L tb text st)
    as [(range & _ & _ & _ & Heq) | [(_ & Heq) | [(_ & Heq) | (e & _ & Heq)]]];
    rewrite Heq; simpl; try lia.
  unfold shown. destruct (has_onSuggestionShown (props st)); simpl; lia.
Qed.

(** A run of [showSuggestionAtCaret] starts by removing what is displayed:
    up to its await it leaves at most one suggestion, and none when it
    suspends. *)
Lemma showSuggestionAtCaret_at_most_one g st :
  length (suggestionElements (surface (snd (showSuggestionAtCaret g st)))) <= 1
  /\ forall frame,
       fst (showSuggestionAtCaret g st) = Normal (Some frame) ->
       suggestionElements (surface (snd (showSuggestionAtCaret g st))) = [].
Proof.
  destruct (getTextUptilCaretInElement (surface st)) as [L|e] eqn:Hget.
  - destruct (truthy_cases (lru_find L (suggestionCache st)))
      as [(v & Hfind & Hv) | Hmiss].
    + rewrite (showSuggestionAtCaret_hit g st Hget Hfind Hv).
      match goal with
      | |- context [showSuggestionAtCaret_display ?a ?b ?c ?s] =>
          pose proof (display_adds_at_most_one a b c s) as Hd;
          destruct (showSuggestionAtCaret_display a b c s) as [[u|e] st']
      end; simpl in *; (split; [exact Hd | discriminate]).
    + rewrite (showSuggestionAtCaret_miss g st Hget Hmiss).
      destruct g; simpl; (split; [lia | reflexivity]).
  - rewrite (showSuggestionAtCaret_throws g st Hget). simpl.
    split; [lia | discriminate].
Qed.

Lemma resume_adds_at_most_one frame r st :
  length (suggestionElements (surface (snd (showSuggestionAtCaret_resume frame r st))))
  <= S (length (suggestionElements (surface st))).
Proof.
  destruct r as [text|e]; simpl; [|lia].
  destruct (String.eqb text ""); simpl; [lia|].
  unfold bind, modify.
  match goal with
  | |- context [showSuggestionAtCaret_display ?a ?b ?c ?s] =>
      exact (display_adds_at_most_one a b c s)
  end.
Qed.

Lemma input_task_at_most_one justTyped st :
  length (suggestionElements (surface st)) <= 1 ->
  length (suggestionElements (surface (input_task justTyped st))) <= 1.
Proof.
  intros Hone. unfold input_task.
  destruct (contentChanged_frame (removed IMPLICIT st)) as (Hs & _).
  destruct (handleInput_cases justTyped st) as [(d & e & -> & Hpa) | Heq].
  - rewrite (handleInput_partialAcceptance Hpa). cbv zeta.
    destruct (truthy (Some (substring_from (String.length d) (textContent e))));
      [|rewrite Hs; simpl; lia].
    match goal with
    | |- context [showSuggestionAtCaret ?g ?s] =>
        destruct (showSuggestionAtCaret_at_most_one g s) as (Hle & Hnil);
        destruct (showSuggestionAtCaret g s) as [[[frame|]|err] st2]
    end; cbn [fst snd] in Hle, Hnil; try exact Hle.
    rewrite run_task_surface.
    match goal with
    | |- context [showSuggestionAtCaret_resume ?f ?r ?s] =>
        pose proof (resume_adds_at_most_one f r s) as Hr
    end.
    change (surface (set_disableSelectionEvent true st2)) with (surface st2) in Hr.
    rewrite (Hnil frame eq_refl) in Hr. exact Hr.
  - rewrite Heq. destruct (disableAutocomplete (props st)).
    + destruct (contentChanged_frame st) as (Hs0 & _). rewrite Hs0. exact Hone.
    + rewrite Hs. simpl. lia.
Qed.

Lemma handleKeyDown_surface key st :
  surface (run_task (handleKeyDown key) st) = surface st
  \/ suggestionElements (surface (run_task (handleKeyDown key) st)) = [].
Proof. apply handleKeyDown_outcome. Qed.

(** X24. Only a fetch that settles can put a second suggestion into the
    textbox: every other task (input, key press, selection event, blur, timer
    callback, re-render, edit of the committed text) that starts with at most
    one suggestion displayed ends with at most one, and a fetch that settles
    adds at most one element to those displayed. *)
Theorem second_suggestion_only_from_settling_fetch (ev : Event) (st st' : State) :
  step ev st = Some st' ->
  (forall signal r,
     ev = Settles signal r ->
     length (suggestionElements (surface st'))
     <= S (length (suggestionElements (surface st))))
  /\ ((forall signal r, ev <> Settles signal r) ->
      length (suggestionElements (surface st)) <= 1 ->
      length (suggestionElements (surface st')) <= 1).
Proof.
  intros Hstep. split.
  - intros signal r ->. simpl in Hstep.
    destruct (find_frame signal (awaiting st)) as [frame|]; [|discriminate].
    injection Hstep as <-. unfold settle_task. rewrite run_task_surface.
    match goal with
    | |- context [showSuggestionAtCaret_resume ?f ?r ?s] =>
        exact (resume_adds_at_most_one f r s)
    end.
  - intros Hev Hone. destruct ev; simpl in Hstep.
    + injection Hstep as <-. apply input_task_at_most_one, Hone.
    + injection Hstep as <-.
      destruct (handleKeyDown_surface key st) as [Hs | Hs]; rewrite Hs;
        [exact Hone | simpl; lia].
    + injection Hstep as <-.
      destruct (handleSelection_outcome st) as [Hs | Hs]; rewrite Hs;
        [exact Hone | simpl; lia].
    + injection Hstep as <-. unfold run_task. rewrite handleBlur_eq. simpl. lia.
    + destruct (timer st) as [t|]; [|discriminate].
      destruct (armedAt t + Z.max 0 (delay t) <=? now st)%Z; [|discriminate].
      injection Hstep as <-. unfold timer_task.
      destruct (showSuggestionAtCaret_at_most_one FromProps (set_timer None st))
        as (Hle & _).
      destruct (showSuggestionAtCaret FromProps (set_timer None st))
        as [[[frame|]|err] st2]; exact Hle.
    + exfalso. exact (Hev signal r eq_refl).
    + injection Hstep as <-. exact Hone.
    + destruct (0 <=? ms)%Z; [|discriminate]. injection Hstep as <-. exact Hone.
    + injection Hstep as <-. exact Hone.
    + destruct (0 <=? ms)%Z; [|discriminate]. injection Hstep as <-. exact Hone.
Qed.

Lemma second_suggestion_only_from_settling_fetch_witness :
  length (suggestionElements (surface (timer_task (set_timer (Some (mkTimer 1000 0)) displaying)))) <= 1.
Proof.
  destruct (@second_suggestion_only_from_settling_fetch TimerFires
              (set_timer (Some (mkTimer 1000 0)) displaying)
              (timer_task (set_timer (Some (mkTimer 1000 0)) displaying))
              eq_refl) as (_ & H).
  apply H.
  - intros signal r. discriminate.
  - simpl. lia.
Defined.

(* ------------------------------------------------------------------------- *)
(** ** A fetch that settles after an accepted suggestion *)

Lemma display_stale L L' tb text st :
  getTextUptilCaretInElement (surface st) = Normal L' ->
  L' <> L ->
  showSuggestionAtCaret_display L tb text st = (Normal tt, st).
Proof.
  intros Hget Hne.
  destruct (showSuggestionAtCaret_display_cases L tb text st)
    as [(range & _ & _ & H & _) | [(H & _) | [(_ & Heq) | (e & H & _)]]];
    try (rewrite Hget in H; congruence).
  exact Heq.
Qed.

(** X25. An accepted suggestion makes a pending fetch stale: when Tab commits
    a suggestion while a fetch issued for the text before the caret is still
    pending, the result of that fetch is not displayed and not reported when
    it arrives, whatever it is. *)
Theorem accept_makes_pending_fetch_stale (st : State) (e : SuggestionElement)
    (rest : list SuggestionElement) (range : Anchor) (frame : Awaiting)
    (T : string) :
  disableAutocomplete (props st) = false ->
  suggestionElements (surface st) = e :: rest ->
  textContent e <> "" ->
  getCaretAsRange (surface st) = Normal (Some range) ->
  insideTextbox range = true ->
  setStartThrows range = false ->
  getTextUptilCaretInElement (surface st) = Normal (aw_textUptilCaret frame) ->
  surface (settle_task frame (Resolves T) (run_task (handleKeyDown "Tab") st))
  = surface (run_task (handleKeyDown "Tab") st)
  /\ notifications
       (settle_task frame (Resolves T) (run_task (handleKeyDown "Tab") st))
     = notifications (run_task (handleKeyDown "Tab") st).
Proof.
  intros Hen Hels Htext Hrange Hin Hset Hget.
  pose proof (@handleKeyDown_Tab_leading_text st e rest range _
                Hen Hels Htext Hrange Hin Hset Hget) as Hafter.
  set (st1 := run_task (handleKeyDown "Tab") st) in *.
  unfold settle_task, run_task, showSuggestionAtCaret_resume.
  destruct (truthy (Some T)); cbn [negb]; [|split; reflexivity].
  unfold bind, modify.
  rewrite (@display_stale _ (aw_textUptilCaret frame
                              ++ replace_nbsp (textContent e))%string).
  - split; reflexivity.
  - exact Hafter.
  - apply string_app_neq, replace_nbsp_nonempty, Htext.
Qed.

Lemma accept_makes_pending_fetch_stale_witness :
  suggestionElements
    (surface
       (settle_task (mkAwaiting "hello " 2500 2) (Resolves "there")
          (run_task (handleKeyDown "Tab") displaying)))
  = [].
Proof.
  assert (Htext : textContent (mkSuggestionElement "s-0" "world") <> "")
    by discriminate.
  destruct (@accept_makes_pending_fetch_stale displaying
              (mkSuggestionElement "s-0" "world") []
              (mkAnchor true 6 6 true IsTextbox true false)
              (mkAwaiting "hello " 2500 2) "there"
              eq_refl eq_refl Htext eq_refl eq_refl eq_refl eq_refl)
    as (Hsurf & _).
  rewrite Hsurf. reflexivity.
Defined.
